(** * LLM-AutoDoc: the PR comment-mining pipeline

    A shallow embedding of [src/autodoc/bedrock_client.py] and
    [src/autodoc/github_client.py]: the batch classifier and its response
    parser, the PR selector, the checkpointed orchestrator
    ([generate_llmtxt]) and the guideline synthesizer's prompt
    construction, with the properties the specification states about them.

    Conventions.  Everything outside the two files is an input of the
    model: the replies of the language model ([llm_reply]), the code host
    ([Host]), the files and the fates of the saves ([World]), the order
    in which the workers of a thread pool finish (a schedule), and what
    each worker finds when it reads the [inferences] of the client they
    share ([inference_reads]).  What a run does to the outside is recorded
    as a trace of [event]s.  The constants of the package's [config] module
    (model id, prompt templates) are section variables.  Token counts are
    integers and costs binary64 floating-point numbers, as in Python; the
    guideline file is read and written in text mode. *)

From Stdlib Require Import String Ascii List Bool Arith ZArith Lia.
From Stdlib Require Import Floats.
From Stdlib Require Import Permutation Sorted DecimalString.
Import ListNotations.

Set Warnings "-abstract-large-number".
Set Warnings "-inexact-float".

Local Open Scope string_scope.
Local Open Scope list_scope.
Local Open Scope nat_scope.

(** ** Python [str] primitives

    A Python [str] is modelled as a Rocq [string] whose characters are the
    code points 0..255.  The character classes below are Python's own on
    that range ([str.isspace], [str.lower], and the [\s] and [\w] classes of
    [re] on [str] patterns). *)

Module PyStr.

Definition code (c : ascii) : nat := nat_of_ascii c.

Definition between (lo hi n : nat) : bool := (lo <=? n) && (n <=? hi).

(** [c.isspace()]: TAB..CR, FS..US, SPACE, NEL, NBSP. *)
Definition isspace (c : ascii) : bool :=
  let n := code c in
  between 9 13 n || between 28 32 n || (n =? 133) || (n =? 160).

(** [c.lower()]: A-Z and the upper-case Latin-1 letters move up by 32. *)
Definition lower_char (c : ascii) : ascii :=
  let n := code c in
  if between 65 90 n || between 192 214 n || between 216 222 n
  then ascii_of_nat (n + 32) else c.

Fixpoint lower (s : string) : string :=
  match s with
  | EmptyString => EmptyString
  | String c s' => String (lower_char c) (lower s')
  end.

(** [s.lstrip()] *)
Fixpoint lstrip (s : string) : string :=
  match s with
  | EmptyString => EmptyString
  | String c s' => if isspace c then lstrip s' else s
  end.

Definition is_empty (s : string) : bool :=
  match s with EmptyString => true | _ => false end.

(** [s.rstrip()] *)
Fixpoint rstrip (s : string) : string :=
  match s with
  | EmptyString => EmptyString
  | String c s' =>
      let r := rstrip s' in
      if is_empty r && isspace c then EmptyString else String c r
  end.

(** [s.strip()] *)
Definition strip (s : string) : string := lstrip (rstrip s).

(** [s[:n]] for [n >= 0] *)
Fixpoint take (n : nat) (s : string) : string :=
  match n, s with
  | S n', String c s' => String c (take n' s')
  | _, _ => EmptyString
  end.

(** [s[n:]] for [n >= 0] *)
Fixpoint drop (n : nat) (s : string) : string :=
  match n, s with
  | S n', String _ s' => drop n' s'
  | _, _ => s
  end.

(** [s[-n:]] for [n > 0]: the whole string when it is shorter than [n]. *)
Definition last_chars (n : nat) (s : string) : string :=
  drop (String.length s - n) s.

(** [s.startswith(p)] *)
Fixpoint startswith (p s : string) : bool :=
  match p, s with
  | EmptyString, _ => true
  | String a p', String b s' => Ascii.eqb a b && startswith p' s'
  | String _ _, EmptyString => false
  end.

(** [sub in s] *)
Fixpoint contains (sub s : string) : bool :=
  startswith sub s ||
  match s with
  | EmptyString => false
  | String _ s' => contains sub s'
  end.

(** [s.split(sep)] for a non-empty separator: a left-to-right scan for
    non-overlapping occurrences.  [skip] counts the characters of a
    separator occurrence still to be passed over; [acc] is the current
    piece, reversed. *)
Fixpoint rev_string (acc s : string) : string :=
  match s with
  | EmptyString => acc
  | String c s' => rev_string (String c acc) s'
  end.

Fixpoint split_aux (sep : string) (skip : nat) (acc s : string) : list string :=
  match s with
  | EmptyString => [rev_string "" acc]
  | String c s' =>
      match skip with
      | S k => split_aux sep k acc s'
      | O =>
          if startswith sep s
          then rev_string "" acc :: split_aux sep (String.length sep - 1) "" s'
          else split_aux sep 0 (String c acc) s'
      end
  end.

Definition split (sep s : string) : list string := split_aux sep 0 "" s.

Definition nl : string := String (ascii_of_nat 10) EmptyString.

End PyStr.

Import PyStr.

(** ** The LLM gateway and the cost ledger ([BedrockClient]) *)

(** What one call of [client.invoke_model] followed by the decoding of its
    body can yield: an exception, or a decoded body with its [usage]
    counters and its [content]. *)
Inductive reply_content : Type :=
| Malformed (msg : string)  (* reading [content[0]] raises *)
| NotText                   (* empty content, or first block not of type text *)
| TextBlock (t : string).   (* [content[0]['text']] *)

Inductive llm_reply : Type :=
| TransportError (msg : string)
| Reply (usage_in usage_out : Z) (content : reply_content).

(** The costs are Python [float]s: IEEE 754 binary64 numbers, as Rocq's
    primitive floats are, with decimal literals that denote the nearest
    such number, as Python's do.

    [float_of_int n] is [float(n)] for a Python [int], as [int * float]
    converts its left operand: the nearest binary64 number, ties to even.
    An [int] of [2^1024] or so and beyond has none, and Python raises
    [OverflowError]; token counts are nowhere near, and the conversion is
    infinite here. *)
Definition float_of_int (n : Z) : float :=
  SF2Prim (binary_normalize prec emax n 0 false).

Record BedrockClient : Type := mkClient {
  inferences : list string;
  input_tokens : Z;
  output_tokens : Z;
  total_cost : float
}.

Definition new_client : BedrockClient := mkClient [] 0 0 0%float.

(** The two rates of a model, dollars per token: the quotients
    [0.003 / 1000] and the like, computed as the source computes them. *)
Definition rates (modelId : string) : float * float :=
  let m := lower modelId in
  if contains "claude-3-sonnet" m then (0.003 / 1000, 0.015 / 1000)%float
  else if contains "claude-3-haiku" m then (0.00125 / 1000, 0.00625 / 1000)%float
  else if contains "claude-3-opus" m then (0.015 / 1000, 0.075 / 1000)%float
  else (0.003 / 1000, 0.015 / 1000)%float.

(** [calculate_cost]: two products and a sum in floating point. *)
Definition calculate_cost (modelId : string) (inp out : Z) : float :=
  let '(input_rate, output_rate) := rates modelId in
  let input_cost := (float_of_int inp * input_rate)%float in
  let output_cost := (float_of_int out * output_rate)%float in
  (input_cost + output_cost)%float.

Section Gateway.

(** [BEDROCK_MODEL_ID] comes from the package's [config] module. *)
Variable BEDROCK_MODEL_ID : string.

(** [tracked_invoke_model] with [track_cost=True]: on a reply the three
    ledger fields are updated in turn; an exception leaves them alone. *)
Definition tracked_invoke_model (self : BedrockClient) (r : llm_reply)
  : BedrockClient * option reply_content :=
  match r with
  | TransportError _ => (self, None)
  | Reply i o content =>
      let self1 := mkClient (inferences self) (input_tokens self + i)%Z
                            (output_tokens self) (total_cost self) in
      let self2 := mkClient (inferences self1) (input_tokens self1)
                            (output_tokens self1 + o)%Z (total_cost self1) in
      let cost := calculate_cost BEDROCK_MODEL_ID i o in
      let self3 := mkClient (inferences self2) (input_tokens self2)
                            (output_tokens self2) (total_cost self2 + cost)%float in
      (self3, Some content)
  end.

(** *** The batch classifier's response parser *)

(** One pass of the [for response in responses] loop body, for a block
    that is not blank: the classification and the inference appended. *)
Definition parse_block (response : string) : string * string :=
  let lines := split nl (strip response) in
  let classification_line := strip (lower (hd "" lines)) in
  if contains "code_standards" classification_line then
    ("code_standards",
     match lines with
     | _ :: l1 :: _ => if is_empty (strip l1) then "" else strip l1
     | _ => ""
     end)
  else if contains "discussions" classification_line then ("discussions", "")
  else ("general", "").

Fixpoint parse_blocks (responses : list string) : list (string * string) :=
  match responses with
  | [] => []
  | response :: rest =>
      if is_empty (strip response) then parse_blocks rest
      else parse_block response :: parse_blocks rest
  end.

(** [result = text.strip(); responses = result.split('\n\n')] and the
    loop, giving the parallel lists [classifications] and [inferences]. *)
Definition parse_response (text : string) : list string * list string :=
  let parsed := parse_blocks (split (nl ++ nl) (strip text)) in
  (map fst parsed, map snd parsed).

(** "Ensure we return exactly num_comments classifications". *)
Definition reconcile (classifications : list string) (num_comments : nat)
  : list string :=
  if length classifications <? num_comments then
    classifications ++ repeat "general" (num_comments - length classifications)
  else if num_comments <? length classifications then
    firstn num_comments classifications
  else classifications.

(** [classify_comments]: returns the classifications and the client as
    the call leaves it ([self.inferences] is assigned only on the
    text path). *)
Definition classify_comments (self : BedrockClient) (num_comments : nat)
    (r : llm_reply) : BedrockClient * list string :=
  match tracked_invoke_model self r with
  | (self', Some (TextBlock text)) =>
      let '(classifications, infs) := parse_response text in
      (mkClient infs (input_tokens self') (output_tokens self') (total_cost self'),
       reconcile classifications num_comments)
  | (self', Some NotText) => (self', repeat "general" num_comments)
  | (self', Some (Malformed _)) => (self', repeat "general" num_comments)
  | (self', None) => (self', repeat "general" num_comments)
  end.

End Gateway.

(** ** Review comments, pull requests and analyses ([github_client.py]) *)

(** The keys of a processed review comment that the pipeline reads;
    [review_comment] is empty when the body is missing. *)
Record ReviewComment : Type := mkComment {
  path : string;
  review_comment : string;
  code_block : string
}.

(** A PR dictionary.  [review_comments] is absent until [_process_pr] has
    merged the extracted context into the dictionary. *)
Record PullRequest : Type := mkPR {
  pr_number : Z;
  title : string;
  comment_count : Z;
  review_comments : option (list ReviewComment)
}.

(** One entry of [pr_analysis['comment_analysis']]. *)
Record CommentAnalysis : Type := mkAnalysis {
  file : string;
  comment : string;
  classification : string;
  inferred_comment : string
}.

Record PRAnalysis : Type := mkPRAnalysis {
  an_pr_number : Z;
  an_title : string;
  an_comment_count : Z;
  comment_analysis : list CommentAnalysis
}.

(** One entry of [all_comments]; the key [inferred_comment] is set only
    for a non-empty inference. *)
Record CommentDatum : Type := mkDatum {
  cd_pr_number : Z;
  cd_pr_title : string;
  cd_file : string;
  cd_comment : string;
  cd_classification : string;
  cd_inferred_comment : option string
}.

Record CheckpointState : Type := mkCheckpoint {
  cp_all_comments : list CommentDatum;
  cp_code_standards_count : nat;
  cp_total_comments_count : nat;
  cp_top_prs : list PullRequest;
  cp_processed_pr_ids : list Z;
  cp_processing_stage : option string
}.

(** [pr_number in processed_pr_ids] *)
Definition is_processed (processed_pr_ids : list Z) (n : Z) : bool :=
  existsb (Z.eqb n) processed_pr_ids.

(** [processed_pr_ids.add(n)] *)
Definition add_processed (processed_pr_ids : list Z) (n : Z) : list Z :=
  if is_processed processed_pr_ids n then processed_pr_ids
  else processed_pr_ids ++ [n].

(** What the run leaves behind, in order. *)
Inductive event : Type :=
| EvSearch                                  (* the PR Selector queries the host *)
| EvExtract (n : Z)                         (* [_process_pr] for PR [n] *)
| EvWorker (n : Z)                          (* [_classify_pr_comments] submitted *)
| EvClassify (n : Z) (num_comments : nat)   (* [classify_comments] called *)
| EvSave (cp : CheckpointState) (ok : bool) (* a checkpoint save and its fate *)
| EvSaveError (msg : string)                (* a failed save, logged *)
| EvLogError (msg : string)
| EvSynthesize (prompt : string)            (* the synthesis LLM call *)
| EvWrite (content : string)                (* the guideline file written *)
| EvRemoveCheckpoint.

(** [concurrent.futures.as_completed]: the futures come back in the order
    the workers finish.  A schedule names, step by step, which of the
    futures still pending finishes next (an index taken modulo their
    number); when it runs out the rest finish in submission order. *)
Fixpoint remove_at {A : Type} (i : nat) (l : list A) : list A :=
  match l, i with
  | [], _ => []
  | _ :: l', O => l'
  | x :: l', S i' => x :: remove_at i' l'
  end.

Fixpoint as_completed {A : Type} (schedule : list nat) (pending : list A)
  : list A :=
  match schedule with
  | [] => pending
  | i :: schedule' =>
      match pending with
      | [] => []
      | x :: _ =>
          let j := i mod length pending in
          nth j pending x :: as_completed schedule' (remove_at j pending)
      end
  end.

(** [l.sort(key=key, reverse=True)] and [sorted(l, key=key, reverse=True)]:
    descending by key, and stable (equal keys keep their order). *)
Fixpoint insert_desc {A : Type} (key : A -> Z) (x : A) (l : list A) : list A :=
  match l with
  | [] => [x]
  | y :: l' =>
      if (key y <=? key x)%Z then x :: y :: l' else y :: insert_desc key x l'
  end.

Definition sort_desc {A : Type} (key : A -> Z) (l : list A) : list A :=
  fold_right (insert_desc key) [] l.

(** ** The table-of-contents pattern

    [re.search(r'## Table of Contents.*?(?=##\s+\w+|$)', s, re.DOTALL)]:
    the match starts at the first occurrence of the heading (from there the
    rest of the pattern always succeeds, at the latest at the end of [s]),
    and the lazy [.*?] takes characters until the lookahead holds. *)
Module TocPattern.

Definition heading : string := "## Table of Contents".

(** [\w]: [c.isalnum()] or an underscore. *)
Definition is_word (c : ascii) : bool :=
  let n := code c in
  between 48 57 n || between 65 90 n || between 97 122 n || (n =? 95) ||
  (n =? 170) || (n =? 178) || (n =? 179) || (n =? 181) || (n =? 185) ||
  (n =? 186) || between 188 190 n || between 192 214 n ||
  between 216 246 n || between 248 255 n.

(** [\s+\w+] matches at the start of [s]: the two classes are disjoint,
    so the white space is taken whole and a word character must follow. *)
Fixpoint spaces_then_word (seen_space : bool) (s : string) : bool :=
  match s with
  | EmptyString => false
  | String c s' =>
      if isspace c then spaces_then_word true s'
      else seen_space && is_word c
  end.

(** [$] without [re.MULTILINE]: the end, or just before a final newline. *)
Definition at_end (s : string) : bool :=
  is_empty s || String.eqb s nl.

(** [(?=##\s+\w+|$)] at the start of [s]. *)
Definition lookahead (s : string) : bool :=
  (startswith "##" s && spaces_then_word false (drop 2 s)) || at_end s.

(** What [.*?] consumes from [s]. *)
Fixpoint lazy_any (s : string) : string :=
  if lookahead s then EmptyString
  else match s with
       | EmptyString => EmptyString
       | String c s' => String c (lazy_any s')
       end.

(** The suffix of [s] from the first occurrence of the heading. *)
Fixpoint find_heading (s : string) : option string :=
  if startswith heading s then Some s
  else match s with
       | EmptyString => None
       | String _ s' => find_heading s'
       end.

(** [toc_match.group(0) if toc_match else ""] *)
Definition toc_section (s : string) : string :=
  match find_heading s with
  | Some suffix => heading ++ lazy_any (drop (String.length heading) suffix)
  | None => EmptyString
  end.

End TocPattern.

Section Pipeline.

Variable BEDROCK_MODEL_ID : string.

(** The classification model, as the prompt's variable parts determine
    its reply. *)
Variable llm_classify : string -> nat -> llm_reply.

(** *** [_classify_pr_comments] *)

Definition comment_text (c : ReviewComment) : string :=
  "File: " ++ path c ++ nl ++
  "Comment: " ++ review_comment c ++ nl ++
  (if is_empty (code_block c) then ""
   else "Code Block:" ++ nl ++ code_block c ++ nl) ++
  "---" ++ nl.

Definition comments_to_classify (rcs : list ReviewComment)
  : list (ReviewComment * string) :=
  map (fun c => (c, comment_text c))
      (filter (fun c => negb (is_empty (review_comment c))) rcs).

(** The loop over [enumerate(zip(comments_to_classify, classifications))],
    from index [idx] on. *)
Fixpoint map_back (infs : list string) (idx : nat)
    (cs : list (ReviewComment * string)) (classifications : list string)
  : list CommentAnalysis :=
  match cs, classifications with
  | (c, _) :: cs', cl :: classifications' =>
      let inference := nth idx infs "" in
      mkAnalysis (path c) (review_comment c) cl
                 (if String.eqb cl "code_standards" then inference else "")
      :: map_back infs (S idx) cs' classifications'
  | _, _ => []
  end.

(** The worker with no other worker beside it: the client after the call,
    the analysis ([None] when the body raised), and whether the classifier
    was called. *)
Definition _classify_pr_comments (client : BedrockClient) (pr : PullRequest)
  : BedrockClient * option PRAnalysis * list event :=
  match review_comments pr with
  | None => (client, None, [])
  | Some rcs =>
      let to_classify := comments_to_classify rcs in
      match to_classify with
      | [] => (client,
               Some (mkPRAnalysis (pr_number pr) (title pr) (comment_count pr) []),
               [])
      | _ :: _ =>
          let combined_text := String.concat nl (map snd to_classify) in
          let num_comments := length to_classify in
          let '(client', classifications) :=
            classify_comments BEDROCK_MODEL_ID client num_comments
                              (llm_classify combined_text num_comments) in
          (client',
           Some (mkPRAnalysis (pr_number pr) (title pr) (comment_count pr)
                   (map_back (inferences client') 0 to_classify classifications)),
           [EvClassify (pr_number pr) num_comments])
      end
  end.

(** The worker among the other workers of the pool.  All of them share one
    [BedrockClient], and [classify_comments] rebinds its [inferences] on
    every text reply.  So the two reads of [self.bedrock_client.inferences]
    in the loop, the one of the length test and the one of the subscript,
    may each find the list another worker's call has left.  [views idx]
    is what the two reads find at index [idx]: when the test passes on the
    first list and the second is too short, the subscript raises
    [IndexError] and the worker's handler returns [None]. *)
Fixpoint map_back_shared (views : nat -> list string * list string) (idx : nat)
    (cs : list (ReviewComment * string)) (classifications : list string)
  : option (list CommentAnalysis) :=
  match cs, classifications with
  | (c, _) :: cs', cl :: classifications' =>
      let '(at_test, at_subscript) := views idx in
      match (if idx <? length at_test then nth_error at_subscript idx
             else Some "") with
      | None => None
      | Some inference =>
          match map_back_shared views (S idx) cs' classifications' with
          | None => None
          | Some rest =>
              Some (mkAnalysis (path c) (review_comment c) cl
                      (if String.eqb cl "code_standards" then inference else "")
                    :: rest)
          end
      end
  | _, _ => Some []
  end.

(** What the reads of one worker find, given the list its own call of the
    classifier left on the client. *)
Definition inference_views : Type :=
  list string -> nat -> list string * list string.

(** No other worker comes in between: both reads find the worker's own. *)
Definition undisturbed : inference_views := fun own _ => (own, own).

(** [_classify_pr_comments] as a worker of the pool; the definition above
    is the worker whose reads nothing disturbs. *)
Definition _classify_pr_comments_shared (views : inference_views)
    (client : BedrockClient) (pr : PullRequest)
  : BedrockClient * option PRAnalysis * list event :=
  match review_comments pr with
  | None => (client, None, [])
  | Some rcs =>
      let to_classify := comments_to_classify rcs in
      match to_classify with
      | [] => (client,
               Some (mkPRAnalysis (pr_number pr) (title pr) (comment_count pr) []),
               [])
      | _ :: _ =>
          let combined_text := String.concat nl (map snd to_classify) in
          let num_comments := length to_classify in
          let '(client', classifications) :=
            classify_comments BEDROCK_MODEL_ID client num_comments
                              (llm_classify combined_text num_comments) in
          (client',
           option_map (mkPRAnalysis (pr_number pr) (title pr) (comment_count pr))
                      (map_back_shared (views (inferences client')) 0
                                       to_classify classifications),
           [EvClassify (pr_number pr) num_comments])
      end
  end.

(** *** [get_top_k_prs_by_comments] *)

(** The scan of the search results: [get_pull] gives the PR's metadata or
    raises ([None]); the scan stops once [2 * k] candidates are held. *)
Fixpoint scan_candidates (get_pull : Z -> option PullRequest) (k : nat)
    (issues : list Z) (pr_count : nat) (prs_with_comments : list PullRequest)
  : list PullRequest :=
  match issues with
  | [] => prs_with_comments
  | n :: rest =>
      match get_pull n with
      | None => scan_candidates get_pull k rest pr_count prs_with_comments
      | Some pr_info =>
          let prs := prs_with_comments ++ [pr_info] in
          if k * 2 <=? S pr_count then prs
          else scan_candidates get_pull k rest (S pr_count) prs
      end
  end.

(** [prs_with_comments.sort(key=lambda x: x['comment_count'], reverse=True)] *)
Definition sort_by_comments (l : list PullRequest) : list PullRequest :=
  sort_desc comment_count l.

(** [_process_pr]: the PR dictionary updated with the extracted context,
    or [None] when the extraction failed. *)
Definition _process_pr (extract_pr_context : Z -> option (list ReviewComment))
    (pr_info : PullRequest) : option PullRequest :=
  match extract_pr_context (pr_number pr_info) with
  | Some rcs => Some (mkPR (pr_number pr_info) (title pr_info)
                           (comment_count pr_info) (Some rcs))
  | None => None
  end.

Fixpoint keep_results {A : Type} (l : list (option A)) : list A :=
  match l with
  | [] => []
  | Some x :: l' => x :: keep_results l'
  | None :: l' => keep_results l'
  end.

(** The code host as the selector sees it. *)
Record Host : Type := mkHost {
  search_issues : option (list Z);       (* [None]: the query raises *)
  get_pull : Z -> option PullRequest;
  extract_pr_context : Z -> option (list ReviewComment);
  fetch_schedule : list nat              (* completion order of the fetches *)
}.

(** The PRs selected before their details are fetched (line 299). *)
Definition select_top_prs (h : Host) (k : nat) : option (list PullRequest) :=
  match search_issues h with
  | None => None
  | Some results =>
      let max_prs_to_check := Nat.min 300 (length results) in
      let prs_with_comments :=
        scan_candidates (get_pull h) k (firstn max_prs_to_check results) 0 [] in
      match prs_with_comments with
      | [] => None
      | _ :: _ => Some (firstn k (sort_by_comments prs_with_comments))
      end
  end.

Definition get_top_k_prs_by_comments (h : Host) (k : nat)
  : option (list PullRequest) * list event :=
  match select_top_prs h k with
  | None => (None, [EvSearch])
  | Some top_prs =>
      let futures := map (_process_pr (extract_pr_context h)) top_prs in
      (Some (keep_results (as_completed (fetch_schedule h) futures)),
       EvSearch :: map (fun pr => EvExtract (pr_number pr)) top_prs)
  end.

(** *** [generate_llmtxt_guidelines] *)

(** The prompt templates of the package's [config] module, as the
    functions [str.format] makes of them. *)
Variable LLMTXT_GENERATION_PROMPT : string -> string.
Variable LLMTXT_UPDATE_PROMPT : string -> string -> string.

(** The synthesis model, as the prompt determines its reply. *)
Variable llm_synthesize : string -> llm_reply.

Definition str_of_nat (n : nat) : string :=
  NilEmpty.string_of_uint (Nat.to_uint n).

Definition inferred_of (d : CommentDatum) : string :=
  match cd_inferred_comment d with Some i => i | None => "" end.

(** [file_comments]: a dictionary in insertion order. *)
Fixpoint add_to_file (f : string) (entry : string * string)
    (file_comments : list (string * list (string * string)))
  : list (string * list (string * string)) :=
  match file_comments with
  | [] => [(f, [entry])]
  | (f', entries) :: rest =>
      if String.eqb f f' then (f', entries ++ [entry]) :: rest
      else (f', entries) :: add_to_file f entry rest
  end.

Definition group_by_file (all_comments : list CommentDatum)
  : list (string * list (string * string)) :=
  fold_left (fun acc d => add_to_file (cd_file d) (cd_comment d, inferred_of d) acc)
            all_comments [].

Fixpoint selected_text (i : nat) (selected : list (string * string)) : string :=
  match selected with
  | [] => ""
  | (c, inferred) :: rest =>
      "Comment " ++ str_of_nat i ++ ": " ++ c ++ nl ++
      (if is_empty inferred then ""
       else "Inferred Standard: " ++ inferred ++ nl) ++
      selected_text (S i) rest
  end.

Definition file_text (entry : string * list (string * string)) : string :=
  let '(f, file_data) := entry in
  let selected :=
    firstn 5 (sort_desc (fun x => Z.of_nat (String.length (snd x))) file_data) in
  "File: " ++ f ++ nl ++ selected_text 1 selected ++ nl.

Definition datum_text (d : CommentDatum) : string :=
  "File: " ++ cd_file d ++ nl ++ "Comment: " ++ cd_comment d ++ nl ++
  "Classification: " ++ cd_classification d ++ nl ++
  (if is_empty (inferred_of d) then ""
   else "Inferred: " ++ inferred_of d ++ nl) ++ nl.

Definition comments_text (all_comments : list CommentDatum) : string :=
  if 30 <? length all_comments
  then String.concat "" (map file_text (group_by_file all_comments))
  else String.concat "" (map datum_text all_comments).

Definition truncation_marker : string :=
  nl ++ nl ++ "..." ++ nl ++ "[Content truncated for efficiency]" ++ nl ++ nl.

(** [optimized_content], the stand-in for a large existing document. *)
Definition optimized_content (existing_content : string) : string :=
  let toc_section := TocPattern.toc_section existing_content in
  let start_content := take 10000 existing_content in
  let end_content :=
    if 5000 <? String.length existing_content
    then last_chars 5000 existing_content else "" in
  toc_section ++ nl ++ nl ++ start_content ++ truncation_marker ++ end_content.

(** What fills the template's [existing_content] slot; [None] when the
    generation template, which has no such slot, is used. *)
Definition forwarded_content (existing_content : string) : option string :=
  if is_empty (strip existing_content) then None
  else if 20000 <? String.length existing_content
       then Some (optimized_content existing_content)
       else Some existing_content.

Definition build_prompt (all_comments : list CommentDatum)
    (existing_content : string) : string :=
  match forwarded_content existing_content with
  | Some content => LLMTXT_UPDATE_PROMPT content (comments_text all_comments)
  | None => LLMTXT_GENERATION_PROMPT (comments_text all_comments)
  end.

(** The text the synthesizer returns for a reply. *)
Definition guidelines_of_reply (r : option reply_content) (transport_msg : string)
  : string :=
  match r with
  | Some (TextBlock t) => strip t
  | Some NotText => "Unable to generate coding guidelines."
  | Some (Malformed msg) => "Error generating coding guidelines: " ++ msg
  | None => "Error generating coding guidelines: " ++ transport_msg
  end.

Definition generate_llmtxt_guidelines (self : BedrockClient)
    (all_comments : list CommentDatum) (existing_content : string)
  : BedrockClient * string * list event :=
  let prompt := build_prompt all_comments existing_content in
  let r := llm_synthesize prompt in
  let '(self', content) := tracked_invoke_model BEDROCK_MODEL_ID self r in
  (self',
   guidelines_of_reply content
     (match r with TransportError msg => msg | _ => "" end),
   [EvSynthesize prompt]).

(** *** [generate_llmtxt], the orchestrator *)

(** The guideline file: missing, not readable, or holding the characters
    [s] (its bytes, decoded). *)
Inductive file_read : Type :=
| NoFile
| Unreadable
| Content (s : string).

Definition CR : ascii := ascii_of_nat 13.
Definition LF : ascii := ascii_of_nat 10.

(** Reading in text mode, as [open(path, 'r')] does: every [\r\n] and
    every other [\r] of the file comes out as [\n]. *)
Fixpoint universal_newlines (s : string) : string :=
  match s with
  | EmptyString => EmptyString
  | String c s' =>
      if Ascii.eqb c CR then
        String LF
          match s' with
          | String c' s'' =>
              if Ascii.eqb c' LF then universal_newlines s''
              else universal_newlines s'
          | EmptyString => EmptyString
          end
      else String c (universal_newlines s')
  end.

(** Writing in text mode, as [open(path, 'w')] does: every [\n] of the
    text goes out as [os.linesep]. *)
Fixpoint text_mode_write (linesep s : string) : string :=
  match s with
  | EmptyString => EmptyString
  | String c s' =>
      if Ascii.eqb c LF then linesep ++ text_mode_write linesep s'
      else String c (text_mode_write linesep s')
  end.

(** The checkpoint file: missing, not loadable (torn or foreign), or
    holding a snapshot. *)
Inductive ckpt_file : Type :=
| Absent
| Corrupt
| Stored (cp : CheckpointState).

(** The fate of one [with open(checkpoint_path, 'wb') as f: pickle.dump]. *)
Inductive save_outcome : Type :=
| Saved
| OpenFailed      (* [open] raised: the file is as it was *)
| DumpFailed.     (* [pickle.dump] raised after the file was truncated *)

Record World : Type := mkWorld {
  output_file : file_read;
  checkpoint_file : ckpt_file;
  checkpoint_dir_ok : bool;            (* a missing directory can be made *)
  host : Host;
  worker_schedule : list nat;          (* completion order of the workers *)
  inference_reads : Z -> inference_views;
                                       (* what the worker of a PR reads of the
                                          shared client's [inferences] *)
  save_result : nat -> save_outcome;   (* fate of the n-th save of the run *)
  synthesis_raises : bool;             (* an exception escapes the synthesizer *)
  write_ok : bool;                     (* the guideline file can be written *)
  remove_ok : bool;                    (* [os.remove] succeeds *)
  os_linesep : string                  (* "\n", or "\r\n" on Windows *)
}.

Record RunState : Type := mkRun {
  all_comments : list CommentDatum;
  code_standards_count : nat;
  total_comments_count : nat;
  processed_pr_ids : list Z;
  client : BedrockClient;
  checkpoint : ckpt_file;
  saves : nat;                         (* saves attempted so far *)
  trace : list event
}.

Definition snapshot (st : RunState) (top_prs : list PullRequest)
    (stage : option string) : CheckpointState :=
  mkCheckpoint (all_comments st) (code_standards_count st)
               (total_comments_count st) top_prs (processed_pr_ids st) stage.

(** One guarded save: [try: ... pickle.dump ... except Exception: log]. *)
Definition save_checkpoint (w : World) (st : RunState) (cp : CheckpointState)
    (err : string) : RunState :=
  let outcome := save_result w (saves st) in
  let file' := match outcome with
               | Saved => Stored cp
               | OpenFailed => checkpoint st
               | DumpFailed => Corrupt
               end in
  let evs := match outcome with
             | Saved => [EvSave cp true]
             | _ => [EvSave cp false; EvSaveError err]
             end in
  mkRun (all_comments st) (code_standards_count st) (total_comments_count st)
        (processed_pr_ids st) (client st) file' (S (saves st))
        (trace st ++ evs).

(** The loop [for analysis in result['comment_analysis']]. *)
Fixpoint extract_comments (result : PRAnalysis) (analyses : list CommentAnalysis)
    (acc : list CommentDatum * nat * nat) : list CommentDatum * nat * nat :=
  match analyses with
  | [] => acc
  | analysis :: rest =>
      let '(comments, code_standards, total) := acc in
      let total' := S total in
      if String.eqb (classification analysis) "code_standards" then
        let comment_data :=
          mkDatum (an_pr_number result) (an_title result) (file analysis)
                  (comment analysis) (classification analysis)
                  (if is_empty (inferred_comment analysis) then None
                   else Some (inferred_comment analysis)) in
        extract_comments result rest
          (comments ++ [comment_data], S code_standards, total')
      else extract_comments result rest (comments, code_standards, total')
  end.

(** One turn of [for future in as_completed(futures)]: the worker for
    [pr] has finished, and its result, if any, is folded into the run and
    checkpointed.  The workers run side by side on one client: what this
    one found when it read the client's [inferences] is
    [inference_reads w (pr_number pr)], the list of another worker's call
    it may be.  The ledger is carried from one finished worker to the next
    as if their calls had come one after the other; what calls that
    overlap do to it is the matter of [LedgerThreads] below. *)
Definition complete_worker (w : World) (top_prs : list PullRequest)
    (st : RunState) (pr : PullRequest) : RunState :=
  let '(client', result, evs) :=
    _classify_pr_comments_shared (inference_reads w (pr_number pr))
                                 (client st) pr in
  let st1 := mkRun (all_comments st) (code_standards_count st)
                   (total_comments_count st) (processed_pr_ids st) client'
                   (checkpoint st) (saves st) (trace st ++ evs) in
  match result with
  | None => st1
  | Some result =>
      let '(comments, code_standards, total) :=
        extract_comments result (comment_analysis result)
          (all_comments st1, code_standards_count st1, total_comments_count st1) in
      let st2 := mkRun comments code_standards total
                       (add_processed (processed_pr_ids st1) (an_pr_number result))
                       (client st1) (checkpoint st1) (saves st1) (trace st1) in
      save_checkpoint w st2 (snapshot st2 top_prs None) "Error saving checkpoint"
  end.

Record Outcome : Type := mkOutcome {
  ret : bool;
  final : RunState;
  final_output : file_read
}.

(** The state the run starts from: a loadable checkpoint is restored only
    on [resume]; a checkpoint that fails to load restores nothing. *)
Definition fresh_state (w : World) : RunState :=
  mkRun [] 0 0 [] new_client (checkpoint_file w) 0 [].

(** [os.makedirs(checkpoint_dir, exist_ok=True)]: it cannot fail when the
    directory is there, as it is when it holds a checkpoint file. *)
Definition makedirs_ok (w : World) : bool :=
  match checkpoint_file w with
  | Absent => checkpoint_dir_ok w
  | _ => true
  end.

Definition initial_state (w : World) (resume : bool)
  : RunState * list PullRequest :=
  let fresh := fresh_state w in
  if resume then
    match checkpoint_file w with
    | Stored cp =>
        (mkRun (cp_all_comments cp) (cp_code_standards_count cp)
               (cp_total_comments_count cp) (cp_processed_pr_ids cp)
               new_client (checkpoint_file w) 0 [],
         cp_top_prs cp)
    | Corrupt =>
        (mkRun [] 0 0 [] new_client (checkpoint_file w) 0
               [EvLogError "Error loading checkpoint"], [])
    | Absent => (fresh, [])
    end
  else (fresh, []).

(** [unprocessed_prs] *)
Definition unprocessed (top_prs : list PullRequest) (processed : list Z)
  : list PullRequest :=
  filter (fun pr => negb (is_processed processed (pr_number pr))) top_prs.

Definition with_trace (st : RunState) (evs : list event) : RunState :=
  mkRun (all_comments st) (code_standards_count st) (total_comments_count st)
        (processed_pr_ids st) (client st) (checkpoint st) (saves st)
        (trace st ++ evs).

(** [if os.path.exists(checkpoint_path): os.remove(checkpoint_path)] *)
Definition remove_checkpoint (w : World) (st : RunState) : RunState :=
  match checkpoint st with
  | Absent => st
  | _ =>
      if remove_ok w
      then mkRun (all_comments st) (code_standards_count st)
                 (total_comments_count st) (processed_pr_ids st)
                 (client st) Absent (saves st)
                 (trace st ++ [EvRemoveCheckpoint])
      else with_trace st [EvLogError "Error removing checkpoint"]
  end.

(** DISCOVERY: the PR selector runs only when no PRs were restored. *)
Definition discover (w : World) (limit : nat)
    (st0 : RunState) (loaded_prs : list PullRequest)
  : RunState * list PullRequest :=
  match loaded_prs with
  | [] => let '(found, evs) := get_top_k_prs_by_comments (host w) limit in
          (with_trace st0 evs, match found with Some l => l | None => [] end)
  | _ :: _ => (st0, loaded_prs)
  end.

(** ANALYSIS, and the stage-marker save that opens SYNTHESIS. *)
Definition analyse (w : World) (top_prs : list PullRequest) (st1 : RunState)
  : RunState :=
  let unprocessed_prs := unprocessed top_prs (processed_pr_ids st1) in
  let st2 := with_trace st1
               (map (fun pr => EvWorker (pr_number pr)) unprocessed_prs) in
  let st3 := fold_left (complete_worker w top_prs)
                       (as_completed (worker_schedule w) unprocessed_prs) st2 in
  save_checkpoint w st3 (snapshot st3 top_prs (Some "pr_analysis_complete"))
                  "Error saving final checkpoint".

(** [should_write] *)
Definition should_write (existing_file : bool)
    (existing_content llmtxt_content : string) : bool :=
  if existing_file
  then negb (String.eqb existing_content llmtxt_content)   (* content_changed *)
  else true.

(** The guideline text the synthesizer returns in state [st4]. *)
Definition synthesized (st4 : RunState) (existing_content : string) : string :=
  snd (fst (generate_llmtxt_guidelines (client st4) (all_comments st4)
                                       existing_content)).

(** SYNTHESIS and DONE. *)
Definition finish (w : World) (top_prs : list PullRequest)
    (existing_content : string) (existing_file : bool) (st4 : RunState)
  : Outcome :=
  if synthesis_raises w
  then mkOutcome false
         (with_trace st4 [EvLogError "Error during LLM extraction"])
         (output_file w)
  else
    let '(client', llmtxt_content, evs) :=
      generate_llmtxt_guidelines (client st4) (all_comments st4)
                                 existing_content in
    let st5 := mkRun (all_comments st4) (code_standards_count st4)
                     (total_comments_count st4) (processed_pr_ids st4) client'
                     (checkpoint st4) (saves st4) (trace st4 ++ evs) in
    let st6 := save_checkpoint w st5
                 (snapshot st5 top_prs (Some "llm_extraction_complete"))
                 "Error updating checkpoint after LLM extraction" in
    if should_write existing_file existing_content llmtxt_content then
      if write_ok w then
        let st7 := with_trace st6 [EvWrite llmtxt_content] in
        mkOutcome true (remove_checkpoint w st7)
                  (Content (text_mode_write (os_linesep w) llmtxt_content))
      else mkOutcome false st6 (output_file w)
    else mkOutcome true (remove_checkpoint w st6) (output_file w).

(** [existing_content], as read in text mode. *)
Definition existing_content_of (w : World) : string :=
  match output_file w with Content s => universal_newlines s | _ => "" end.

(** INIT and DISCOVERY: the state and the PRs the analysis starts from
    (no PRs when the checkpoint directory cannot be made). *)
Definition before_analysis (w : World) (limit : nat) (resume : bool)
  : RunState * list PullRequest :=
  if makedirs_ok w then
    let '(st0, loaded_prs) := initial_state w resume in
    discover w limit st0 loaded_prs
  else (fresh_state w, []).

Definition generate_llmtxt (w : World) (limit : nat) (resume : bool) : Outcome :=
  let existing_content := existing_content_of w in
  let existing_file := negb (is_empty (strip existing_content)) in
  let '(st1, top_prs) := before_analysis w limit resume in
  match top_prs with
  | [] => mkOutcome false st1 (output_file w)        (* "No PRs found" *)
  | _ :: _ =>
      finish w top_prs existing_content existing_file (analyse w top_prs st1)
  end.

End Pipeline.

(** ** Reading a trace *)

(** The PRs for which a worker was submitted, in order of submission. *)
Definition dispatched (t : list event) : list Z :=
  flat_map (fun e => match e with EvWorker n => [n] | _ => [] end) t.

(** The PRs for which the classifier was called. *)
Definition classified (t : list event) : list Z :=
  flat_map (fun e => match e with EvClassify n _ => [n] | _ => [] end) t.

(** The PRs whose context was extracted. *)
Definition extracted (t : list event) : list Z :=
  flat_map (fun e => match e with EvExtract n => [n] | _ => [] end) t.

(** The guideline texts written. *)
Definition written (t : list event) : list string :=
  flat_map (fun e => match e with EvWrite c => [c] | _ => [] end) t.

(** Events of the checkpoint store. *)
Definition is_checkpoint_event (e : event) : bool :=
  match e with
  | EvSave _ _ | EvSaveError _ | EvRemoveCheckpoint => true
  | EvLogError msg => String.eqb msg "Error removing checkpoint"
  | _ => false
  end.

(** The trace without the events of the checkpoint store. *)
Definition work_events (t : list event) : list event :=
  filter (fun e => negb (is_checkpoint_event e)) t.

(** ** The checkpoint file under a save

    [with open(checkpoint_path, 'wb') as f: pickle.dump(checkpoint_data, f)]
    acts on the checkpoint path itself: [open] creates the file or empties
    it, the pickled snapshot then reaches it chunk by chunk, and the file is
    closed.  No other path is written and nothing is renamed. *)
Module CheckpointFile.

(** The bytes at [checkpoint_path]; [None] when there is no file. *)
Definition file : Type := option string.

Inductive op : Type :=
| Open_wb
| Write (chunk : string)
| Close.

Definition apply_op (f : file) (o : op) : file :=
  match o with
  | Open_wb => Some ""
  | Write chunk =>
      Some (String.append (match f with Some c => c | None => "" end) chunk)
  | Close => f
  end.

(** The steps of one save of a snapshot pickled as [chunks]. *)
Definition save_ops (chunks : list string) : list op :=
  Open_wb :: map Write chunks ++ [Close].

(** The file once the first [k] steps are done: what a reader opening it
    then finds, and what is left if the save stops there. *)
Definition file_after (k : nat) (old : file) (chunks : list string) : file :=
  fold_left apply_op (firstn k (save_ops chunks)) old.

Definition pickled (chunks : list string) : string :=
  fold_right String.append "" chunks.

(** A reader never finds anything but the old or the new snapshot. *)
Definition atomic_save : Prop :=
  forall (old : file) (chunks : list string) (k : nat),
    file_after k old chunks = old \/
    file_after k old chunks = Some (pickled chunks).

End CheckpointFile.

(** ** The cost ledger under concurrent calls

    The workers of the thread pool share one [BedrockClient].  On the
    return path of [tracked_invoke_model] each of the three augmented
    assignments reads the attribute and then writes it back; no lock is
    taken anywhere.  A thread is the return path of one call, a schedule
    says which thread takes the next step. *)
Module LedgerThreads.

Record thread : Type := mkThread {
  pc : nat;                (* steps done: 0..6 *)
  usage_in : Z;            (* [usage['input_tokens']] of its reply *)
  usage_out : Z;
  read_z : Z;              (* the counter it has read *)
  read_q : float           (* the cost it has read *)
}.

Definition spawn (usage : Z * Z) : thread :=
  mkThread 0 (fst usage) (snd usage) 0 0%float.

Definition advance (t : thread) (z : Z) (q : float) : thread :=
  mkThread (S (pc t)) (usage_in t) (usage_out t) z q.

(** One step of a thread on the shared client. *)
Definition step (modelId : string) (t : thread) (self : BedrockClient)
  : thread * BedrockClient :=
  match pc t with
  | 0 => (advance t (input_tokens self) (read_q t), self)
  | 1 => (advance t (read_z t) (read_q t),
          mkClient (inferences self) (read_z t + usage_in t)%Z
                   (output_tokens self) (total_cost self))
  | 2 => (advance t (output_tokens self) (read_q t), self)
  | 3 => (advance t (read_z t) (read_q t),
          mkClient (inferences self) (input_tokens self)
                   (read_z t + usage_out t)%Z (total_cost self))
  | 4 => (advance t (read_z t) (total_cost self), self)
  | 5 => (advance t (read_z t) (read_q t),
          mkClient (inferences self) (input_tokens self) (output_tokens self)
                   (read_q t
                    + calculate_cost modelId (usage_in t) (usage_out t))%float)
  | _ => (t, self)
  end.

Fixpoint step_at (modelId : string) (i : nat) (ts : list thread)
    (self : BedrockClient) : list thread * BedrockClient :=
  match ts, i with
  | [], _ => ([], self)
  | t :: ts', O => let '(t', self') := step modelId t self in (t' :: ts', self')
  | t :: ts', S i' =>
      let '(ts'', self') := step_at modelId i' ts' self in (t :: ts'', self')
  end.

Fixpoint run (modelId : string) (schedule : list nat) (ts : list thread)
    (self : BedrockClient) : list thread * BedrockClient :=
  match schedule with
  | [] => (ts, self)
  | i :: schedule' =>
      let '(ts', self') := step_at modelId i ts self in
      run modelId schedule' ts' self'
  end.

Definition finished (ts : list thread) : bool :=
  forallb (fun t => 6 <=? pc t) ts.

(** The schedule that lets the threads [first .. first + n - 1] run one
    after another, each to its end. *)
Fixpoint serial (first n : nat) : list nat :=
  match n with
  | O => []
  | S n' => repeat first 6 ++ serial (S first) n'
  end.

(** The ledger after the calls are made one at a time. *)
Definition one_at_a_time (modelId : string) (usages : list (Z * Z))
    (self : BedrockClient) : BedrockClient :=
  fold_left (fun s u => fst (tracked_invoke_model modelId s
                               (Reply (fst u) (snd u) NotText)))
            usages self.

Definition done (u : Z * Z) (self : BedrockClient) : thread :=
  mkThread 6 (fst u) (snd u) (output_tokens self) (total_cost self).

(** No schedule loses a token count. *)
Definition no_lost_update (modelId : string) : Prop :=
  forall (usages : list (Z * Z)) (schedule : list nat) (self : BedrockClient),
    finished (fst (run modelId schedule (map spawn usages) self)) = true ->
    input_tokens (snd (run modelId schedule (map spawn usages) self))
    = (input_tokens self + fold_right Z.add 0 (map fst usages))%Z.

End LedgerThreads.

(** ** Vocabulary of the properties *)

(** An entry gets an inference only when classified [code_standards]. *)
Definition inference_only_for_standards (a : CommentAnalysis) : Prop :=
  classification a = "code_standards" \/ inferred_comment a = "".

(** The replies on which the transport call or the reading of the
    response raises. *)
Definition raises (r : llm_reply) : bool :=
  match r with
  | TransportError _ => true
  | Reply _ _ (Malformed _) => true
  | _ => false
  end.

Definition general_entry (c : ReviewComment) : CommentAnalysis :=
  mkAnalysis (path c) (review_comment c) "general" "".

(** The repository of the scenario: four confirmed candidates. *)
Definition candidate (n count : Z) : PullRequest := mkPR n "" count None.

Definition scenario_pull (n : Z) : option PullRequest :=
  if (n =? 10)%Z then Some (candidate 10 40)
  else if (n =? 11)%Z then Some (candidate 11 15)
  else if (n =? 12)%Z then Some (candidate 12 15)
  else if (n =? 13)%Z then Some (candidate 13 5)
  else None.

Definition scenario_host (fetches : Z -> option (list ReviewComment))
    (schedule : list nat) : Host :=
  mkHost (Some [10; 11; 12; 13]%Z) scenario_pull fetches schedule.

(** Events a worker's completion may add for the PRs [ns]: a call of the
    classifier for one of them, and events of the checkpoint store. *)
Definition completion_event (ns : list Z) (e : event) : Prop :=
  match e with
  | EvClassify n _ => In n ns
  | EvSave _ _ | EvSaveError _ => True
  | _ => False
  end.

(** Events of the synthesis and of the end of the run. *)
Definition closing_event (e : event) : Prop :=
  match e with
  | EvSave _ _ | EvSaveError _ | EvLogError _ | EvSynthesize _ | EvWrite _
  | EvRemoveCheckpoint => True
  | _ => False
  end.

Definition extends (P : event -> Prop) (st st' : RunState) : Prop :=
  exists evs, trace st' = trace st ++ evs /\ Forall P evs.

Definition selector_event (e : event) : Prop :=
  match e with EvSearch | EvExtract _ => True | _ => False end.

Definition submission_event (e : event) : Prop :=
  match e with EvWorker _ => True | _ => False end.

(** The state a loaded checkpoint restores. *)
Definition restored (cp : CheckpointState) : RunState :=
  mkRun (cp_all_comments cp) (cp_code_standards_count cp)
        (cp_total_comments_count cp) (cp_processed_pr_ids cp)
        new_client (Stored cp) 0 [].

Definition not_a_write (e : event) : Prop :=
  match e with EvWrite _ => False | _ => True end.

Definition demo_classify : string -> nat -> llm_reply :=
  fun _ _ => Reply 120 8 (TextBlock "general").

Definition demo_generation (comments : string) : string :=
  "Write guidelines from:" ++ nl ++ comments.

Definition demo_update (existing comments : string) : string :=
  "Existing:" ++ nl ++ existing ++ nl ++ "New:" ++ nl ++ comments.

Definition demo_synthesize : string -> llm_reply :=
  fun _ => Reply 900 300 (TextBlock "# Guidelines").

Definition demo_run : World -> nat -> bool -> Outcome :=
  generate_llmtxt "claude-3-sonnet" demo_classify demo_generation demo_update
                  demo_synthesize.

Definition fetched (n count : Z) : PullRequest :=
  mkPR n "" count (Some [mkComment "a.py" "rename this" ""]).

(** A checkpoint with two of five PRs processed. *)
Definition two_of_five : CheckpointState :=
  mkCheckpoint [] 0 2
    [fetched 1 50; fetched 2 40; fetched 3 30; fetched 4 20; fetched 5 10]
    [1; 2]%Z None.

Definition world_with (cp : CheckpointState) (h : Host) : World :=
  mkWorld NoFile (Stored cp) true h [] (fun _ => undisturbed) (fun _ => Saved)
          false true true nl.

Definition no_host : Host := mkHost None (fun _ => None) (fun _ => None) [].

(** A checkpoint that lacks [top_prs] but marks PR 10 processed. *)
Definition lacks_top_prs : CheckpointState :=
  mkCheckpoint [] 0 1 [] [10]%Z None.

Definition world_with_output (cp : CheckpointState) (s : string) : World :=
  mkWorld (Content s) (Stored cp) true no_host [] (fun _ => undisturbed)
          (fun _ => Saved) false true true nl.

(** The same world with other fates for its saves. *)
Definition with_save_result (w : World) (f : nat -> save_outcome) : World :=
  mkWorld (output_file w) (checkpoint_file w) (checkpoint_dir_ok w) (host w)
          (worker_schedule w) (inference_reads w) f (synthesis_raises w)
          (write_ok w) (remove_ok w) (os_linesep w).


Fixpoint repeat_char (c : ascii) (n : nat) : string :=
  match n with
  | O => EmptyString
  | S n' => String c (repeat_char c n')
  end.

(** A guideline document of 20,021 characters: the table-of-contents
    heading and a body without any further [##] heading. *)
Definition toc_only_document : string :=
  TocPattern.heading ++ repeat_char "a" 20001.

(** ** Further code of the two clients *)

(** [get_file_extension] *)
Definition get_file_extension (file_path : string) : string :=
  if is_empty file_path || negb (contains "." file_path) then ""
  else last (split "." file_path) "".

(** *** Fetching a PR's context *)

(** A review comment as the host's API returns it. *)
Record RawComment : Type := mkRaw {
  user_login : string;
  diff_hunk : string;
  body : string;
  raw_created_at : string;
  raw_path : string;
  raw_line : option Z;
  raw_commit_id : option string
}.

(** The dictionary [get_pr_review_comments] makes of it. *)
Record ProcessedComment : Type := mkProcessed {
  reviewer_username : string;
  pc_code_block : string;
  pc_review_comment : string;
  pc_created_at : string;
  pc_path : string;
  pc_line : option Z;
  pc_commit_id : option string;
  file_extension : string
}.

(** An answer to [requests.get]. *)
Record HttpResponse (A : Type) : Type := mkResponse {
  status_code : Z;
  json : A
}.

Arguments mkResponse {A} _ _.
Arguments status_code {A} _.
Arguments json {A} _.

(** What [repository.get_pull] gives. *)
Record PullMeta : Type := mkMeta {
  number : Z;
  pm_title : string;
  pm_body : string;
  pm_author : string;
  pm_created_at : string;
  pm_updated_at : string;
  base_ref : string;
  head_ref : string;
  changed_files : Z;
  additions : Z;
  deletions : Z;
  comments : Z;
  review_comment_count : Z
}.

(** The code host at the level of its requests; [None] is a request that
    raises. *)
Record GitHubApi : Type := mkApi {
  get_pull_meta : Z -> option PullMeta;
  files_request : Z -> option (HttpResponse (list string));
  comments_request : Z -> option (HttpResponse (list RawComment))
}.

Record PRContext : Type := mkContext {
  ctx_pr_number : Z;
  ctx_title : string;
  ctx_description : string;
  ctx_author : string;
  ctx_created_at : string;
  ctx_updated_at : string;
  ctx_base_branch : string;
  ctx_head_branch : string;
  ctx_changed_files : Z;
  ctx_additions : Z;
  ctx_deletions : Z;
  ctx_files : list string;
  ctx_review_comments : list ProcessedComment
}.

(** The keys of a processed comment that the worker reads. *)
Definition as_review_comment (c : ProcessedComment) : ReviewComment :=
  mkComment (pc_path c) (pc_review_comment c) (pc_code_block c).

Section MoreCode.

Variable BEDROCK_MODEL_ID : string.
Variable llm_classify : string -> nat -> llm_reply.

(** [MAX_COMMENTS_PER_PR] comes from the package's [config] module. *)
Variable MAX_COMMENTS_PER_PR : nat.

Definition process_comment (c : RawComment) : ProcessedComment :=
  mkProcessed (user_login c) (diff_hunk c) (body c) (raw_created_at c)
              (raw_path c) (raw_line c) (raw_commit_id c)
              (get_file_extension (raw_path c)).

(** [get_pr_files], on the answer to its request. *)
Definition get_pr_files (response : HttpResponse (list string)) : list string :=
  if (status_code response =? 200)%Z then json response else [].

(** [get_pr_review_comments], on the answer to its request. *)
Definition get_pr_review_comments (response : HttpResponse (list RawComment))
  : list ProcessedComment :=
  if (status_code response =? 200)%Z
  then map process_comment (firstn MAX_COMMENTS_PER_PR (json response))
  else [].

(** [extract_pr_context]: any exception on the way gives [None]. *)
Definition extract_pr_context_of (api : GitHubApi) (n : Z) : option PRContext :=
  match get_pull_meta api n with
  | None => None
  | Some pr =>
      match files_request api n with
      | None => None
      | Some files =>
          match comments_request api n with
          | None => None
          | Some review =>
              Some (mkContext n (pm_title pr) (pm_body pr) (pm_author pr)
                              (pm_created_at pr) (pm_updated_at pr)
                              (base_ref pr) (head_ref pr) (changed_files pr)
                              (additions pr) (deletions pr)
                              (get_pr_files files)
                              (get_pr_review_comments review))
          end
      end
  end.

(** The PR dictionary the selector builds from a pull. *)
Definition pr_info_of (pr : PullMeta) : PullRequest :=
  mkPR (number pr) (pm_title pr) (comments pr + review_comment_count pr)%Z None.

(** The selector's view of a host that answers through [api]. *)
Definition host_of (api : GitHubApi) (search : option (list Z))
    (schedule : list nat) : Host :=
  mkHost search
         (fun n => option_map pr_info_of (get_pull_meta api n))
         (fun n => option_map (fun ctx => map as_review_comment
                                              (ctx_review_comments ctx))
                              (extract_pr_context_of api n))
         schedule.

(** *** [classify_comment], the single-comment classifier *)

Definition classify_comment (self : BedrockClient) (r : llm_reply)
  : BedrockClient * string :=
  match tracked_invoke_model BEDROCK_MODEL_ID self r with
  | (self', Some (TextBlock text)) =>
      let result := lower (strip text) in
      (self',
       if contains "code_standards" result then "code_standards"
       else if contains "discussions" result then "discussions"
       else "general")
  | (self', _) => (self', "general")
  end.

(** *** [classify_pr_comments], the analysis without checkpoints *)

Definition str_of_Z (z : Z) : string := NilZero.string_of_int (Z.to_int z).

(** An entry of its [all_comments]: the analysis with the PR's number and
    title. *)
Record AnalysisEntry : Type := mkEntry {
  ae_pr_number : Z;
  ae_pr_title : string;
  ae_analysis : CommentAnalysis
}.

Record AnalysisState : Type := mkAnalysisState {
  as_client : BedrockClient;
  as_comments : list AnalysisEntry;
  as_pr_count : nat;
  as_total_comments : Z;
  as_total_review_comments : nat;
  as_trace : list event
}.

(** One turn of its [for future in as_completed(futures)]; [reads] is
    what the workers, side by side here too, read of the shared client's
    [inferences]. *)
Definition collect_analysis (reads : Z -> inference_views)
    (st : AnalysisState) (pr : PullRequest) : AnalysisState :=
  let '(client', result, evs) :=
    _classify_pr_comments_shared BEDROCK_MODEL_ID llm_classify
                                 (reads (pr_number pr)) (as_client st) pr in
  match result with
  | None =>
      mkAnalysisState client' (as_comments st) (as_pr_count st)
                      (as_total_comments st) (as_total_review_comments st)
                      (as_trace st ++ evs)
  | Some result =>
      mkAnalysisState client'
        (as_comments st
         ++ map (mkEntry (an_pr_number result) (an_title result))
                (comment_analysis result))
        (S (as_pr_count st))
        (as_total_comments st + an_comment_count result)%Z
        (as_total_review_comments st + length (comment_analysis result))
        (as_trace st ++ evs)
  end.

Definition entry_text (e : AnalysisEntry) : string :=
  let a := ae_analysis e in
  "PR #" ++ str_of_Z (ae_pr_number e) ++ ": " ++ ae_pr_title e ++ nl ++
  "File: " ++ file a ++ nl ++
  "Comment: " ++ comment a ++ nl ++
  "Classification: " ++ classification a ++ nl ++
  (if String.eqb (classification a) "code_standards"
      && negb (is_empty (inferred_comment a))
   then "Inferred Standard: " ++ inferred_comment a ++ nl else "") ++
  repeat_char "-" 80 ++ nl ++ nl.

(** What is written to the analysis file. *)
Definition analysis_text (owner repo : string) (st : AnalysisState) : string :=
  "Code Review Comments Analysis" ++ nl ++
  "Repository: " ++ owner ++ "/" ++ repo ++ nl ++
  "Total PRs analyzed: " ++ str_of_nat (as_pr_count st) ++ nl ++
  "Total comments: " ++ str_of_Z (as_total_comments st) ++ " (analyzed "
  ++ str_of_nat (as_total_review_comments st) ++ " review comments)" ++ nl ++ nl ++
  "All Comments:" ++ nl ++ nl ++
  String.concat "" (map entry_text (as_comments st)).

Record AnalysisOutcome : Type := mkAnalysisOutcome {
  analysis_ret : bool;
  analysis_file : option string;       (* what the run wrote, if it did *)
  analysis_state : AnalysisState
}.

(** [classify_pr_comments].  After the analysis file is written the body
    reads the names [generate_llmtxt], [llmtxt_output] and [keep_analysis],
    which are neither parameters nor module globals: the first read raises
    [NameError], the handler prints it and returns [False]. *)
Definition classify_pr_comments (owner repo : string) (h : Host)
    (schedule : list nat) (reads : Z -> inference_views) (output_ok : bool)
    (limit : nat) : AnalysisOutcome :=
  let '(found, evs) := get_top_k_prs_by_comments h limit in
  let st0 := mkAnalysisState new_client [] 0 0 0 evs in
  match found with
  | None | Some [] => mkAnalysisOutcome false None st0       (* "No PRs found" *)
  | Some top_prs =>
      let st :=
        fold_left (collect_analysis reads) (as_completed schedule top_prs) st0 in
      if output_ok
      then mkAnalysisOutcome false (Some (analysis_text owner repo st)) st
      else mkAnalysisOutcome false None st
  end.

End MoreCode.

(** *** The command line ([cli.py], [unified_cli.py])

    The two PR commands that end in [generate_llmtxt] or
    [classify_pr_comments].  [token_ok] says whether [GitHubClient] can be
    built, [url_ok] whether [parse_repo_url] accepts the URL; [generated] and
    [classified] are the results of the two methods. *)
Inductive pr_command : Type :=
| Generate
| Classify (llmtxt : bool).

(** Exit status of [cli.py]. *)
Definition cli_exit_status (cmd : pr_command) (token_ok url_ok : bool)
    (generated classified : bool) : nat :=
  if negb token_ok then 1
  else if negb url_ok then 1
  else match cmd with
       | Generate => 0                      (* [success] is not looked at *)
       | Classify llmtxt =>
           let success := if llmtxt then generated else classified in
           if success then 0 else 1
       end.

(** Exit status of [unified_cli.py], which has no [--llmtxt]. *)
Definition unified_cli_exit_status (cmd : pr_command) (token_ok url_ok : bool)
    (generated classified : bool) : nat :=
  if negb token_ok then 1
  else if negb url_ok then 1
  else match cmd with
       | Generate => if generated then 0 else 1
       | Classify _ => if classified then 0 else 1
       end.

(** ** Vocabulary of the further properties *)

(** The three categories. *)
Definition is_category (s : string) : Prop :=
  s = "code_standards" \/ s = "discussions" \/ s = "general".

(** An inference is kept only beside [code_standards], and stripped. *)
Definition well_formed_result (classification inference : string) : Prop :=
  is_category classification /\
  (inference = "" \/ classification = "code_standards") /\
  strip inference = inference.

(** The comments of a PR that are submitted to the classifier. *)
Definition submitted (rcs : list ReviewComment) : list ReviewComment :=
  filter (fun c => negb (is_empty (review_comment c))) rcs.

(** A processed comment with an empty body. *)
Definition silent_comment : ReviewComment := mkComment "a.py" "" "@@ -1 +1 @@".

(** The client after a series of gateway calls with the given replies. *)
Definition after_replies (modelId : string) (replies : list llm_reply)
    (self : BedrockClient) : BedrockClient :=
  fold_left (fun s r => fst (tracked_invoke_model modelId s r)) replies self.


(** The candidates the selector's scan retains. *)
Definition scanned_candidates (h : Host) (k : nat) : list PullRequest :=
  match search_issues h with
  | None => []
  | Some results =>
      scan_candidates (get_pull h) k
                      (firstn (Nat.min 300 (length results)) results) 0 []
  end.

(** [a] comes before [b] in descending order of [key]. *)
Definition descending {A : Type} (key : A -> Z) (a b : A) : Prop :=
  (key b <= key a)%Z.

(** A host API for the examples: PR 21 exists, its files are listed, and
    the request for its comments is answered with the given status. *)
Definition raw_comment (text : string) : RawComment :=
  mkRaw "alice" "@@ -1 +1 @@" text "2024-01-01T00:00:00" "src/a.py" None None.

Definition api_with_status (status : Z) : GitHubApi :=
  mkApi (fun n => if (n =? 21)%Z
                  then Some (mkMeta 21 "Fix" "" "bob" "" "" "main" "fix" 1 2 3 4 5)
                  else None)
        (fun _ => Some (mkResponse 200 ["src/a.py"]))
        (fun _ => Some (mkResponse status
                          [raw_comment "one"; raw_comment "two";
                           raw_comment "three"])).

Definition quiet_world : World :=
  mkWorld NoFile Absent true no_host [] (fun _ => undisturbed) (fun _ => Saved)
          false true true nl.

(** PR 21 as the selector returns it when at most two comments are kept. *)
Definition fetched_21 : PullRequest :=
  mkPR 21 "Fix" 9 (Some [mkComment "src/a.py" "one" "@@ -1 +1 @@";
                         mkComment "src/a.py" "two" "@@ -1 +1 @@"]).

(** An entry of [all_comments] gathered from a [code_standards] comment. *)
Definition is_standard (d : CommentDatum) : Prop :=
  cd_classification d = "code_standards".

(** From [st] to [st'] the run has only gathered: new [code_standards]
    comments were appended and counted, the total grew by at least as much,
    and PRs among [pending] joined the processed ones. *)
Definition progress (pending : list Z) (st st' : RunState) : Prop :=
  exists new,
    all_comments st' = all_comments st ++ new /\
    Forall is_standard new /\
    code_standards_count st' = code_standards_count st + length new /\
    total_comments_count st + length new <= total_comments_count st' /\
    incl (processed_pr_ids st) (processed_pr_ids st') /\
    (forall n, In n (processed_pr_ids st') ->
               In n (processed_pr_ids st) \/ In n pending) /\
    (NoDup (processed_pr_ids st) -> NoDup (processed_pr_ids st')).

(** Two states with the same gathered data. *)
Definition same_data (st st' : RunState) : Prop :=
  all_comments st' = all_comments st /\
  code_standards_count st' = code_standards_count st /\
  total_comments_count st' = total_comments_count st /\
  processed_pr_ids st' = processed_pr_ids st.

(** Nothing was restored and the selector finds nothing. *)
Definition finds_nothing (w : World) (limit : nat) (resume : bool) : Prop :=
  snd (initial_state w resume) = [] /\
  (fst (get_top_k_prs_by_comments (host w) limit) = None \/
   fst (get_top_k_prs_by_comments (host w) limit) = Some []).

(** A world whose synthesizer raises, resumed from [two_of_five]. *)
Definition failing_world : World :=
  mkWorld NoFile (Stored two_of_five) true no_host [] (fun _ => undisturbed)
          (fun _ => Saved) true true true nl.

(** The world a later run finds: the checkpoint the failed run left. *)
Definition world_after (out : Outcome) : World :=
  mkWorld NoFile (checkpoint (final out)) true no_host []
          (fun _ => undisturbed) (fun _ => Saved) false true true nl.

(** A world without checkpoint whose host cannot be searched. *)
Definition unreachable_world : World :=
  mkWorld (Content "# Guidelines") Absent true no_host []
          (fun _ => undisturbed) (fun _ => Saved) false true true nl.

(** A checkpoint whose two PRs are both processed. *)
Definition all_done : CheckpointState :=
  mkCheckpoint [] 0 2 [fetched 1 50; fetched 2 40] [1; 2]%Z
               (Some "pr_analysis_complete").

(** A synthesis model that cannot be reached. *)
Definition unreachable_synthesizer (msg : string) : string -> llm_reply :=
  fun _ => TransportError msg.

(** The pairs [(comment, inferred)] of the comments on file [f], in the
    order of [all_comments]. *)
Definition entries_of (f : string) (all_comments : list CommentDatum)
  : list (string * string) :=
  map (fun d => (cd_comment d, inferred_of d))
      (filter (fun d => String.eqb (cd_file d) f) all_comments).

(** [file_comments.get(f, [])] *)
Definition file_entries (f : string)
    (file_comments : list (string * list (string * string)))
  : list (string * string) :=
  match find (fun g => String.eqb (fst g) f) file_comments with
  | Some g => snd g
  | None => []
  end.

(** The analysis entries all carry one of the three categories, and the
    counter of review comments is their number. *)
Definition consistent_analysis (st : AnalysisState) : Prop :=
  as_total_review_comments st = length (as_comments st) /\
  Forall (fun e => is_category (classification (ae_analysis e))) (as_comments st).

(** The reads of a worker never make the subscript fail: whenever the
    length test passes, the list the subscript finds is long enough. *)
Definition in_range (views : inference_views) : Prop :=
  forall own idx,
    idx < length (fst (views own idx)) -> idx < length (snd (views own idx)).

(** Two analyses of one PR that agree on everything but the inferences. *)
Definition same_entries (a b : PRAnalysis) : Prop :=
  an_pr_number a = an_pr_number b /\
  an_title a = an_title b /\
  an_comment_count a = an_comment_count b /\
  map file (comment_analysis a) = map file (comment_analysis b) /\
  map comment (comment_analysis a) = map comment (comment_analysis b) /\
  map classification (comment_analysis a)
  = map classification (comment_analysis b).

(** A text with a carriage return in it, and a synthesis model that
    returns it. *)
Definition text_with_cr : string := "a" ++ String CR "b".

Definition cr_synthesize : string -> llm_reply :=
  fun _ => Reply 900 300 (TextBlock text_with_cr).

(** Reads of a worker that another worker's call disturbs: the length
    test finds a list of one inference, the subscript an empty one. *)
Definition disturbed : inference_views := fun _ _ => (["stale"], []).

(** [world_with], but the worker of PR [n] is disturbed. *)
Definition world_disturbing (n : Z) (cp : CheckpointState) (h : Host) : World :=
  mkWorld NoFile (Stored cp) true h []
          (fun m => if (m =? n)%Z then disturbed else undisturbed)
          (fun _ => Saved) false true true nl.







(** The tokens the replies of a series of calls report. *)
Definition counted_in (replies : list llm_reply) : Z :=
  fold_right (fun r acc => match r with
                           | Reply i _ _ => (i + acc)%Z
                           | TransportError _ => acc
                           end) 0%Z replies.

Definition counted_out (replies : list llm_reply) : Z :=
  fold_right (fun r acc => match r with
                           | Reply _ o _ => (o + acc)%Z
                           | TransportError _ => acc
                           end) 0%Z replies.

(** The same tokens in two calls and in one. *)
Definition two_calls : list llm_reply :=
  [Reply 1000 200 NotText; Reply 500 100 NotText].

Definition one_call : list llm_reply := [Reply 1500 300 NotText].

(** * Properties *)

(** ** The batch classifier *)

Section ClassifierFacts.

Variable BEDROCK_MODEL_ID : string.
Variable llm_classify : string -> nat -> llm_reply.

(** The parser's tolerances on small inputs: a run of blank lines leaves an
    empty block, which is skipped; the first line is matched anywhere and in
    any case; [code_standards] is tested before [discussions]; only the
    second line of a block is taken as the inference. *)
Example split_blank_lines :
  split (nl ++ nl) ("a" ++ nl ++ nl ++ nl ++ "b") = ["a"; (nl ++ "b")%string].
Proof. reflexivity. Qed.

Example split_empty : split nl "" = [""].
Proof. reflexivity. Qed.

Example parse_tolerances :
  parse_response ("Classification: CODE_STANDARDS" ++ nl ++ "  Use guards.  " ++ nl
                  ++ "more" ++ nl ++ nl ++ nl ++ nl ++ "whatever" ++ nl ++ nl
                  ++ "discussions and code_standards")
  = (["code_standards"; "general"; "code_standards"], ["Use guards."; ""; ""]).
Proof. vm_compute. reflexivity. Qed.

Example reconcile_cuts_and_pads :
  reconcile ["a"; "b"; "c"] 2 = ["a"; "b"] /\
  reconcile ["a"] 3 = ["a"; "general"; "general"].
Proof. split; reflexivity. Qed.

Lemma reconcile_length (classifications : list string) (n : nat) :
  length (reconcile classifications n) = n.
Proof.
  unfold reconcile.
  destruct (length classifications <? n) eqn:Hlt.
  - apply Nat.ltb_lt in Hlt. rewrite length_app, repeat_length. lia.
  - destruct (n <? length classifications) eqn:Hgt.
    + apply Nat.ltb_lt in Hgt. rewrite length_firstn. lia.
    + apply Nat.ltb_ge in Hlt. apply Nat.ltb_ge in Hgt. lia.
Qed.

Lemma reconcile_spec (classifications : list string) (n : nat) :
  reconcile classifications n =
  if length classifications <? n
  then classifications ++ repeat "general" (n - length classifications)
  else firstn n classifications.
Proof.
  unfold reconcile.
  destruct (length classifications <? n) eqn:Hlt; [reflexivity|].
  destruct (n <? length classifications) eqn:Hgt; [reflexivity|].
  apply Nat.ltb_ge in Hlt. apply Nat.ltb_ge in Hgt.
  symmetry. apply firstn_all2. lia.
Qed.

Lemma parse_response_lengths (text : string) :
  length (snd (parse_response text)) = length (fst (parse_response text)).
Proof. unfold parse_response. simpl. now rewrite !length_map. Qed.

Lemma classify_comments_text (self : BedrockClient) (n : nat)
    (i o : Z) (text : string) :
  classify_comments BEDROCK_MODEL_ID self n (Reply i o (TextBlock text)) =
  (mkClient (snd (parse_response text)) (input_tokens self + i)
            (output_tokens self + o)
            (total_cost self + calculate_cost BEDROCK_MODEL_ID i o)%float,
   reconcile (fst (parse_response text)) n).
Proof.
  unfold classify_comments, tracked_invoke_model. cbn [inferences input_tokens output_tokens total_cost].
  destruct (parse_response text) as [cls infs]. reflexivity.
Qed.

Lemma classify_comments_fallback (self : BedrockClient) (n : nat) (r : llm_reply) :
  (forall i o text, r <> Reply i o (TextBlock text)) ->
  snd (classify_comments BEDROCK_MODEL_ID self n r) = repeat "general" n /\
  inferences (fst (classify_comments BEDROCK_MODEL_ID self n r)) = inferences self.
Proof.
  intros Hr. destruct r as [msg | i o [msg | | text]]; cbn; auto.
  exfalso. eapply Hr. reflexivity.
Qed.

Lemma map_back_length (infs : list string) (idx : nat)
    (cs : list (ReviewComment * string)) (classifications : list string) :
  length (map_back infs idx cs classifications)
  = Nat.min (length cs) (length classifications).
Proof.
  revert idx classifications.
  induction cs as [| [c t] cs IH]; intros idx [| cl cls]; cbn; auto.
Qed.

Lemma map_back_inferences (infs : list string) (idx : nat)
    (cs : list (ReviewComment * string)) (classifications : list string) :
  Forall inference_only_for_standards (map_back infs idx cs classifications).
Proof.
  revert idx classifications.
  induction cs as [| [c t] cs IH]; intros idx [| cl cls]; cbn; constructor; auto.
  unfold inference_only_for_standards. cbn.
  destruct (String.eqb cl "code_standards") eqn:E; auto.
  left. now apply String.eqb_eq.
Qed.

(** C1.  Whatever the model replies, [classify_comments] returns exactly
    [num_comments] classifications.  When the reply is a text block, the
    parsed classifications are padded at the tail with [general] if they
    are fewer than [num_comments] and cut to the first [num_comments]
    otherwise, and the inferences kept on the client are as many as were
    parsed, so that a padded entry finds no inference.  The worker then
    produces one analysis entry per submitted comment. *)
Theorem classify_comments_length_invariance :
  forall (self : BedrockClient) (num_comments : nat),
    (forall r : llm_reply,
        length (snd (classify_comments BEDROCK_MODEL_ID self num_comments r))
        = num_comments) /\
    (forall (i o : Z) (text : string),
        let parsed := fst (parse_response text) in
        let out := classify_comments BEDROCK_MODEL_ID self num_comments
                                     (Reply i o (TextBlock text)) in
        snd out =
        (if length parsed <? num_comments
         then parsed ++ repeat "general" (num_comments - length parsed)
         else firstn num_comments parsed) /\
        length (inferences (fst out)) = length parsed /\
        (forall idx, nth (length parsed + idx) (inferences (fst out)) "" = "")) /\
    (forall (pr : PullRequest),
        match _classify_pr_comments BEDROCK_MODEL_ID llm_classify self pr,
              review_comments pr with
        | (_, Some a, _), Some rcs =>
            length (comment_analysis a) = length (comments_to_classify rcs) /\
            Forall inference_only_for_standards (comment_analysis a)
        | (_, None, _), Some _ => False
        | (_, Some _, _), None => False
        | (_, None, _), None => True
        end).
Proof.
  intros self n.
  assert (Hlen : forall r,
             length (snd (classify_comments BEDROCK_MODEL_ID self n r)) = n).
  { intros [msg | i o [msg | | text]]; cbn; try apply repeat_length.
    destruct (parse_response text) as [cls infs]. cbn. apply reconcile_length. }
  split; [exact Hlen|]. split.
  - intros i o text parsed out. subst parsed out.
    rewrite classify_comments_text. cbn [fst snd inferences].
    split; [apply reconcile_spec|]. split; [apply parse_response_lengths|].
    intros idx. apply nth_overflow. rewrite parse_response_lengths. lia.
  - intros pr. unfold _classify_pr_comments.
    destruct (review_comments pr) as [rcs|]; [|exact I].
    destruct (comments_to_classify rcs) as [| p ps] eqn:Hcs.
    + split; [reflexivity | constructor].
    + remember (classify_comments _ _ _ _) as out eqn:Hout.
      destruct out as [client' cls]. cbn [comment_analysis].
      assert (Hn : length cls = length (p :: ps)).
      { change cls with (snd (client', cls)). rewrite Hout.
        destruct (llm_classify _ _) as [msg | i o [msg | | text]]; cbn - [length];
          try apply repeat_length.
        destruct (parse_response text) as [cl infs]. cbn - [length].
        apply reconcile_length. }
      split; [|apply map_back_inferences].
      rewrite map_back_length, Hn. apply Nat.min_id.
Qed.

Lemma classify_comments_raises (self : BedrockClient) (n : nat) (r : llm_reply) :
  raises r = true ->
  snd (classify_comments BEDROCK_MODEL_ID self n r) = repeat "general" n.
Proof. destruct r as [msg | i o [msg | | text]]; cbn; intros H; easy. Qed.

Lemma map_back_general (infs : list string) (idx : nat)
    (cs : list (ReviewComment * string)) :
  map_back infs idx cs (repeat "general" (length cs))
  = map (fun p => general_entry (fst p)) cs.
Proof.
  revert idx. induction cs as [| [c t] cs IH]; intros idx; cbn; [reflexivity|].
  now rewrite IH.
Qed.

(** C2.  When every call of the classification model raises, in the
    transport or while the response is read, [classify_comments] still
    returns: exactly [num_comments] entries [general].  The worker built on
    it returns an analysis (the exception reaches no caller) in which each
    submitted comment is [general] with an empty inference, whatever
    inferences an earlier call left on the client. *)
Theorem classify_comments_fail_safe :
  forall (self : BedrockClient) (pr : PullRequest) (rcs : list ReviewComment),
    review_comments pr = Some rcs ->
    (forall text n, raises (llm_classify text n) = true) ->
    (forall text n,
        snd (classify_comments BEDROCK_MODEL_ID self n (llm_classify text n))
        = repeat "general" n) /\
    snd (fst (_classify_pr_comments BEDROCK_MODEL_ID llm_classify self pr))
    = Some (mkPRAnalysis (pr_number pr) (title pr) (comment_count pr)
              (map general_entry
                 (filter (fun c => negb (is_empty (review_comment c))) rcs))).
Proof.
  intros self pr rcs Hrcs Hraise. split.
  - intros text n. apply classify_comments_raises, Hraise.
  - unfold _classify_pr_comments. rewrite Hrcs.
    unfold comments_to_classify.
    destruct (filter _ rcs) as [| c cs] eqn:Hf; [reflexivity|].
    set (to_classify := map (fun c0 => (c0, comment_text c0)) (c :: cs)).
    change (map (fun c0 => (c0, comment_text c0)) (c :: cs)) with to_classify.
    remember (classify_comments _ _ _ _) as out eqn:Hout.
    destruct out as [client' cls]. cbn [fst snd].
    assert (Hcls : cls = repeat "general" (length to_classify)).
    { change cls with (snd (client', cls)). rewrite Hout.
      apply classify_comments_raises, Hraise. }
    rewrite Hcls, map_back_general. unfold to_classify.
    rewrite map_map. reflexivity.
Qed.

(** C3.  For two submitted comments, the response
    [code_standards\nPrefer early returns.\n\ndiscussions\n] is
    classified as [code_standards] then [discussions], with the inferences
    [Prefer early returns.] and the empty one; mapped back onto the two
    comments this gives exactly those two results. *)
Theorem classifier_scenario :
  forall (self : BedrockClient) (i o : Z) (c1 c2 : ReviewComment * string),
    let response := ("code_standards" ++ nl ++ "Prefer early returns." ++ nl ++ nl
                     ++ "discussions" ++ nl)%string in
    let out := classify_comments BEDROCK_MODEL_ID self 2
                                 (Reply i o (TextBlock response)) in
    snd out = ["code_standards"; "discussions"] /\
    inferences (fst out) = ["Prefer early returns."; ""] /\
    map_back (inferences (fst out)) 0 [c1; c2] (snd out)
    = [mkAnalysis (path (fst c1)) (review_comment (fst c1))
                  "code_standards" "Prefer early returns.";
       mkAnalysis (path (fst c2)) (review_comment (fst c2)) "discussions" ""].
Proof.
  intros self i o [c1 t1] [c2 t2] response out. subst out.
  rewrite classify_comments_text. cbn [fst snd inferences].
  assert (Hparse : parse_response response
                   = (["code_standards"; "discussions"],
                      ["Prefer early returns."; ""]))
    by (vm_compute; reflexivity).
  rewrite Hparse. cbn [fst snd]. repeat split.
Qed.

End ClassifierFacts.

(** The fail-safe default at work: a transport error on every call, a
    client still holding an earlier call's inference, one comment. *)
Lemma classify_comments_fail_safe_witness :
  snd (fst (_classify_pr_comments "model" (fun _ _ => TransportError "timeout")
              (mkClient ["stale"] 0 0 0%float)
              (mkPR 7 "t" 1 (Some [mkComment "a.py" "use a constant" ""]))))
  = Some (mkPRAnalysis 7 "t" 1 [mkAnalysis "a.py" "use a constant" "general" ""]).
Proof.
  apply (classify_comments_fail_safe "model" (fun _ _ => TransportError "timeout")
           (mkClient ["stale"] 0 0 0%float)
           (mkPR 7 "t" 1 (Some [mkComment "a.py" "use a constant" ""]))
           [mkComment "a.py" "use a constant" ""]).
  - reflexivity.
  - intros text n. reflexivity.
Defined.

(** ** The PR selector *)

Section SelectorFacts.

Lemma remove_at_perm {A : Type} (d : A) (l : list A) (j : nat) :
  j < length l -> Permutation (nth j l d :: remove_at j l) l.
Proof.
  revert j. induction l as [| x l IH]; intros j Hj; cbn in Hj; [lia|].
  destruct j as [| j]; cbn; [reflexivity|].
  rewrite perm_swap. constructor. apply IH. lia.
Qed.

(** Every schedule makes [as_completed] return the futures submitted,
    each once, in some order. *)
Lemma as_completed_perm {A : Type} (schedule : list nat) (pending : list A) :
  Permutation (as_completed schedule pending) pending.
Proof.
  revert pending. induction schedule as [| i schedule IH]; intros pending; cbn.
  - reflexivity.
  - destruct pending as [| x pending']; [reflexivity|].
    set (l := x :: pending').
    assert (Hj : i mod length l < length l)
      by (apply Nat.mod_upper_bound; discriminate).
    etransitivity; [| apply (remove_at_perm x l _ Hj)].
    constructor. apply IH.
Qed.

Lemma remove_at_middle {A : Type} (l1 l2 : list A) (x d : A) :
  nth (length l1) (l1 ++ x :: l2) d = x /\
  remove_at (length l1) (l1 ++ x :: l2) = l1 ++ l2.
Proof.
  induction l1 as [| y l1 [IH1 IH2]]; cbn; [split; reflexivity|].
  split; [exact IH1 | now rewrite IH2].
Qed.

(** Conversely, every order of the futures is the work of some schedule. *)
Lemma as_completed_any_order {A : Type} (order pending : list A) :
  Permutation order pending ->
  exists schedule, as_completed schedule pending = order.
Proof.
  revert pending. induction order as [| x order IH]; intros pending Hperm.
  - apply Permutation_nil in Hperm. subst pending. now exists [].
  - assert (Hin : In x pending)
      by (eapply Permutation_in; [exact Hperm | now left]).
    apply in_split in Hin. destruct Hin as [l1 [l2 ->]].
    apply Permutation_cons_app_inv in Hperm.
    destruct (IH _ Hperm) as [schedule Hs].
    exists (length l1 :: schedule). cbn [as_completed].
    destruct (l1 ++ x :: l2) as [| y rest] eqn:Hl.
    { destruct l1; discriminate. }
    rewrite <- Hl.
    rewrite Nat.mod_small by (rewrite length_app; cbn; lia).
    destruct (remove_at_middle l1 l2 x y) as [Hn Hr].
    now rewrite Hn, Hr, Hs.
Qed.

Lemma keep_results_In {A : Type} (l : list (option A)) (x : A) :
  In x (keep_results l) <-> In (Some x) l.
Proof.
  induction l as [| [y|] l IH]; cbn; [tauto | |].
  - rewrite IH. split; intros [H | H]; auto; left; congruence.
  - rewrite IH. split; [auto | intros [H | H]; [discriminate | auto]].
Qed.

(** Whatever the order in which the fetches finish, a PR returned by the
    selector is one of those selected before the fetches, with its number
    and comment count unchanged. *)
Lemma get_top_k_from_selection (h : Host) (k : nat) (top_prs : list PullRequest)
    (pr : PullRequest) :
  select_top_prs h k = Some top_prs ->
  In pr (match fst (get_top_k_prs_by_comments h k) with
         | Some l => l | None => [] end) ->
  exists pr0, In pr0 top_prs /\ pr_number pr = pr_number pr0 /\
              comment_count pr = comment_count pr0.
Proof.
  intros Hsel Hin. unfold get_top_k_prs_by_comments in Hin.
  rewrite Hsel in Hin. cbn [fst] in Hin.
  apply keep_results_In in Hin.
  apply (Permutation_in _ (as_completed_perm _ _)) in Hin.
  apply in_map_iff in Hin. destruct Hin as [pr0 [Hp Hin0]].
  exists pr0. split; [exact Hin0|].
  unfold _process_pr in Hp.
  destruct (extract_pr_context h (pr_number pr0)); [|discriminate].
  injection Hp as <-. split; reflexivity.
Qed.

Lemma scenario_selection (fetches : Z -> option (list ReviewComment))
    (schedule : list nat) :
  select_top_prs (scenario_host fetches schedule) 3
  = Some [candidate 10 40; candidate 11 15; candidate 12 15].
Proof. reflexivity. Qed.

Lemma scenario_never_13 (fetches : Z -> option (list ReviewComment))
    (schedule : list nat) (pr : PullRequest) :
  In pr (match fst (get_top_k_prs_by_comments (scenario_host fetches schedule) 3)
         with Some l => l | None => [] end) ->
  pr_number pr <> 13%Z.
Proof.
  intros Hin.
  destruct (get_top_k_from_selection _ _ _ _ (scenario_selection fetches schedule) Hin)
    as [pr0 [Hin0 [Hn _]]].
  rewrite Hn. cbn in Hin0.
  destruct Hin0 as [<- | [<- | [<- | []]]]; cbn; discriminate.
Qed.

(** Ties keep the order of the search results, and a PR whose detail fetch
    fails is dropped without another taking its place. *)
Example scenario_tie_order :
  select_top_prs (mkHost (Some [13; 12; 11; 10]%Z) scenario_pull
                         (fun _ => None) []) 3
  = Some [candidate 10 40; candidate 12 15; candidate 11 15].
Proof. reflexivity. Qed.

Example scenario_failed_fetch :
  fst (get_top_k_prs_by_comments
         (scenario_host (fun n => if (n =? 10)%Z then None else Some []) []) 3)
  = Some [mkPR 11 "" 15 (Some []); mkPR 12 "" 15 (Some [])].
Proof. reflexivity. Qed.

(** C6.  In the scenario the three PRs selected before the detail fetches
    are #10, #11, #12 in descending order of comment count.  With the
    fetch of #11 finishing first, the list the selector returns is
    #11, #10, #12: the 15-comment PR comes before the 40-comment one. *)
Theorem top3_scenario_completion_order :
  select_top_prs (scenario_host (fun _ => Some []) [1]) 3
  = Some [candidate 10 40; candidate 11 15; candidate 12 15] /\
  fst (get_top_k_prs_by_comments (scenario_host (fun _ => Some []) [1]) 3)
  = Some [mkPR 11 "" 15 (Some []); mkPR 10 "" 40 (Some []);
          mkPR 12 "" 15 (Some [])].
Proof. split; reflexivity. Qed.

End SelectorFacts.

(** ** The orchestrator *)

(** ** The worker among other workers *)

Section SharedWorkerFacts.

Variable BEDROCK_MODEL_ID : string.
Variable llm_classify : string -> nat -> llm_reply.

Local Abbreviation worker := (_classify_pr_comments BEDROCK_MODEL_ID llm_classify).
Local Abbreviation shared_worker :=
  (_classify_pr_comments_shared BEDROCK_MODEL_ID llm_classify).

Lemma map_back_shared_undisturbed (infs : list string) (idx : nat)
    (cs : list (ReviewComment * string)) (classifications : list string) :
  map_back_shared (fun _ => (infs, infs)) idx cs classifications
  = Some (map_back infs idx cs classifications).
Proof.
  revert idx classifications.
  induction cs as [| [c t] cs IH]; intros idx [| cl cls];
    cbn [map_back_shared map_back]; try reflexivity.
  rewrite IH. destruct (idx <? length infs) eqn:E.
  - apply Nat.ltb_lt in E. destruct (nth_error infs idx) as [x|] eqn:En.
    + now rewrite (nth_error_nth _ _ _ En).
    + apply nth_error_None in En. lia.
  - apply Nat.ltb_ge in E. now rewrite nth_overflow.
Qed.

(** Undisturbed, the worker of the pool is the worker alone. *)
Lemma worker_undisturbed (client : BedrockClient) (pr : PullRequest) :
  shared_worker undisturbed client pr = worker client pr.
Proof.
  unfold _classify_pr_comments_shared, _classify_pr_comments, undisturbed.
  destruct (review_comments pr) as [rcs|]; [| reflexivity].
  destruct (comments_to_classify rcs); [reflexivity|].
  destruct (classify_comments _ _ _ _) as [client' cls].
  now rewrite map_back_shared_undisturbed.
Qed.

(** Whatever the reads find, an analysis that is returned has the entries
    of the undisturbed one, inferences apart. *)
Lemma map_back_shared_fields (views : nat -> list string * list string)
    (infs : list string) (idx : nat) (cs : list (ReviewComment * string))
    (classifications : list string) (l : list CommentAnalysis) :
  map_back_shared views idx cs classifications = Some l ->
  map file l = map file (map_back infs idx cs classifications) /\
  map comment l = map comment (map_back infs idx cs classifications) /\
  map classification l
  = map classification (map_back infs idx cs classifications).
Proof.
  revert idx classifications l.
  induction cs as [| [c t] cs IH]; intros idx [| cl cls] l H;
    cbn [map_back_shared] in H; try (injection H as <-; repeat split).
  destruct (views idx) as [at_test at_subscript].
  destruct (if idx <? length at_test then nth_error at_subscript idx else Some "")
    as [inference|]; [| discriminate].
  destruct (map_back_shared views (S idx) cs cls) as [rest|] eqn:Hr;
    [| discriminate].
  injection H as <-. destruct (IH (S idx) cls rest Hr) as (H1 & H2 & H3).
  cbn [map map_back file comment classification]. now rewrite H1, H2, H3.
Qed.

Lemma map_back_shared_in_range (views : nat -> list string * list string)
    (idx : nat) (cs : list (ReviewComment * string))
    (classifications : list string) :
  (forall i, i < length (fst (views i)) -> i < length (snd (views i))) ->
  map_back_shared views idx cs classifications <> None.
Proof.
  intros Hv. revert idx classifications.
  induction cs as [| [c t] cs IH]; intros idx [| cl cls];
    cbn [map_back_shared]; try discriminate.
  specialize (Hv idx). destruct (views idx) as [at_test at_subscript].
  cbn [fst snd] in Hv.
  destruct (idx <? length at_test) eqn:E.
  - apply Nat.ltb_lt in E. apply Hv in E.
    destruct (nth_error at_subscript idx) eqn:En.
    + specialize (IH (S idx) cls).
      now destruct (map_back_shared views (S idx) cs cls).
    + apply nth_error_None in En. lia.
  - specialize (IH (S idx) cls).
    now destruct (map_back_shared views (S idx) cs cls).
Qed.

(** The worker of the pool against the worker alone: the same client
    and the same events; its analysis, when it returns one, has the same
    entries but for the inferences; and it returns one whenever its reads
    stay in range. *)
Lemma shared_worker_spec (views : inference_views) (client : BedrockClient)
    (pr : PullRequest) :
  fst (fst (shared_worker views client pr)) = fst (fst (worker client pr)) /\
  snd (shared_worker views client pr) = snd (worker client pr) /\
  (forall a, snd (fst (shared_worker views client pr)) = Some a ->
             exists a0, snd (fst (worker client pr)) = Some a0 /\
                        same_entries a a0) /\
  (snd (fst (worker client pr)) = None ->
   snd (fst (shared_worker views client pr)) = None) /\
  (in_range views -> snd (fst (worker client pr)) <> None ->
   snd (fst (shared_worker views client pr)) <> None).
Proof.
  unfold _classify_pr_comments_shared, _classify_pr_comments.
  destruct (review_comments pr) as [rcs|];
    [| cbn; repeat split; auto; discriminate].
  destruct (comments_to_classify rcs) as [| p ps].
  - cbn. repeat split; auto; try discriminate.
    intros a H. injection H as <-. eexists. split; [reflexivity|].
    repeat split.
  - destruct (classify_comments _ _ _ _) as [client' cls]. cbn [fst snd].
    split; [reflexivity|]. split; [reflexivity|]. split; [| split].
    + intros a H.
      destruct (map_back_shared _ 0 (p :: ps) cls) as [l|] eqn:Hl;
        [| discriminate].
      injection H as <-. eexists. split; [reflexivity|].
      destruct (map_back_shared_fields _ (inferences client') _ _ _ _ Hl)
        as (H1 & H2 & H3).
      repeat split; assumption.
    + discriminate.
    + intros Hv _.
      pose proof (map_back_shared_in_range (views (inferences client')) 0
                    (p :: ps) cls (Hv (inferences client'))) as Hn.
      now destruct (map_back_shared _ 0 (p :: ps) cls).
Qed.

Lemma shared_worker_number (views : inference_views) (client : BedrockClient)
    (pr : PullRequest) (a : PRAnalysis) :
  snd (fst (shared_worker views client pr)) = Some a ->
  an_pr_number a = pr_number pr.
Proof.
  unfold _classify_pr_comments_shared.
  destruct (review_comments pr) as [rcs|]; [| discriminate].
  destruct (comments_to_classify rcs).
  - intros H. now injection H as <-.
  - destruct (classify_comments _ _ _ _) as [client' cls]. cbn [fst snd].
    destruct (map_back_shared _ _ _ _); [| discriminate].
    intros H. now injection H as <-.
Qed.

End SharedWorkerFacts.

Section OrchestratorFacts.

Variable BEDROCK_MODEL_ID : string.
Variable llm_classify : string -> nat -> llm_reply.
Variable LLMTXT_GENERATION_PROMPT : string -> string.
Variable LLMTXT_UPDATE_PROMPT : string -> string -> string.
Variable llm_synthesize : string -> llm_reply.

Local Abbreviation worker := (_classify_pr_comments BEDROCK_MODEL_ID llm_classify).
Local Abbreviation complete := (complete_worker BEDROCK_MODEL_ID llm_classify).
Local Abbreviation analysis := (analyse BEDROCK_MODEL_ID llm_classify).
Local Abbreviation synthesis :=
  (generate_llmtxt_guidelines BEDROCK_MODEL_ID LLMTXT_GENERATION_PROMPT
                              LLMTXT_UPDATE_PROMPT llm_synthesize).
Local Abbreviation finishing :=
  (finish BEDROCK_MODEL_ID LLMTXT_GENERATION_PROMPT LLMTXT_UPDATE_PROMPT
          llm_synthesize).
Local Abbreviation pipeline :=
  (generate_llmtxt BEDROCK_MODEL_ID llm_classify LLMTXT_GENERATION_PROMPT
                   LLMTXT_UPDATE_PROMPT llm_synthesize).

(** *** How each step extends the trace *)

Lemma extends_refl (P : event -> Prop) (st : RunState) : extends P st st.
Proof. exists []. split; [now rewrite app_nil_r | constructor]. Qed.

Lemma extends_trans (P : event -> Prop) (a b c : RunState) :
  extends P a b -> extends P b c -> extends P a c.
Proof.
  intros [e1 [H1 F1]] [e2 [H2 F2]]. exists (e1 ++ e2). split.
  - now rewrite H2, H1, app_assoc.
  - apply Forall_app. now split.
Qed.

Lemma extends_weaken (P Q : event -> Prop) (a b : RunState) :
  (forall e, P e -> Q e) -> extends P a b -> extends Q a b.
Proof.
  intros HPQ [evs [H F]]. exists evs. split; [exact H|].
  eapply Forall_impl; eauto.
Qed.

Lemma save_checkpoint_extends (P : event -> Prop) (w : World) (st : RunState)
    (cp : CheckpointState) (err : string) :
  (forall c ok, P (EvSave c ok)) -> (forall m, P (EvSaveError m)) ->
  extends P st (save_checkpoint w st cp err).
Proof.
  intros HS HE. unfold save_checkpoint.
  destruct (save_result w (saves st)); eexists; (split; [reflexivity|]);
    repeat constructor; auto.
Qed.

Lemma worker_events (self : BedrockClient) (pr : PullRequest) :
  Forall (completion_event [pr_number pr]) (snd (worker self pr)).
Proof.
  unfold _classify_pr_comments.
  destruct (review_comments pr) as [rcs|]; [|constructor].
  destruct (comments_to_classify rcs); [constructor|].
  destruct (classify_comments _ _ _ _). cbn.
  constructor; [cbn; auto | constructor].
Qed.

Lemma shared_worker_events (views : inference_views) (self : BedrockClient)
    (pr : PullRequest) :
  Forall (completion_event [pr_number pr])
         (snd (_classify_pr_comments_shared BEDROCK_MODEL_ID llm_classify
                 views self pr)).
Proof.
  destruct (shared_worker_spec BEDROCK_MODEL_ID llm_classify views self pr)
    as (_ & -> & _).
  apply worker_events.
Qed.

Lemma complete_worker_extends (w : World) (top_prs : list PullRequest)
    (st : RunState) (pr : PullRequest) :
  extends (completion_event [pr_number pr]) st (complete w top_prs st pr).
Proof.
  unfold complete_worker.
  pose proof (shared_worker_events (inference_reads w (pr_number pr))
                (client st) pr) as Hev.
  destruct (_classify_pr_comments_shared _ _ _ (client st) pr)
    as [[client' result] evs]. cbn [snd] in Hev.
  destruct result as [result|].
  - destruct (extract_comments _ _ _) as [[comments cs] total].
    eapply extends_trans;
      [| apply save_checkpoint_extends; intros; exact I].
    exists evs. split; [reflexivity | exact Hev].
  - exists evs. split; [reflexivity | exact Hev].
Qed.

Lemma completion_event_mono (ns ms : list Z) (e : event) :
  incl ns ms -> completion_event ns e -> completion_event ms e.
Proof. intros Hincl. destruct e; cbn; auto. Qed.

Lemma fold_complete_extends (w : World) (top_prs prs : list PullRequest)
    (st : RunState) :
  extends (completion_event (map pr_number prs)) st
          (fold_left (complete w top_prs) prs st).
Proof.
  revert st. induction prs as [| pr prs IH]; intros st; cbn [fold_left].
  - apply extends_refl.
  - eapply extends_trans.
    + eapply extends_weaken; [| apply complete_worker_extends].
      intros e. apply completion_event_mono.
      intros n [<- | []]. now left.
    + eapply extends_weaken; [| apply IH].
      intros e. apply completion_event_mono.
      intros n Hn. now right.
Qed.

Lemma dispatched_app (a b : list event) :
  dispatched (a ++ b) = dispatched a ++ dispatched b.
Proof. apply flat_map_app. Qed.

Lemma dispatched_workers (prs : list PullRequest) :
  dispatched (map (fun pr => EvWorker (pr_number pr)) prs) = map pr_number prs.
Proof.
  unfold dispatched.
  induction prs as [| pr prs IH]; cbn; [reflexivity | now f_equal].
Qed.

Lemma dispatched_none (P : event -> Prop) (evs : list event) :
  (forall n, ~ P (EvWorker n)) -> Forall P evs -> dispatched evs = [].
Proof.
  intros HP. induction 1 as [| e evs He _ IH]; [reflexivity|].
  unfold dispatched in *. cbn [flat_map]. rewrite IH.
  destruct e; try reflexivity. now apply HP in He.
Qed.

Lemma remove_checkpoint_extends (w : World) (st : RunState) :
  extends closing_event st (remove_checkpoint w st).
Proof.
  unfold remove_checkpoint.
  destruct (checkpoint st); [apply extends_refl | |];
    destruct (remove_ok w); eexists; (split; [reflexivity|]);
    repeat constructor.
Qed.

Lemma finish_extends (w : World) (top_prs : list PullRequest)
    (existing_content : string) (existing_file : bool) (st4 : RunState) :
  extends closing_event st4
          (final (finishing w top_prs existing_content existing_file st4)).
Proof.
  unfold finish. destruct (synthesis_raises w).
  - eexists. split; [reflexivity | repeat constructor].
  - destruct (synthesis _ _ _) as [[client' llmtxt_content] evs] eqn:Hs.
    assert (Hevs : Forall closing_event evs).
    { unfold generate_llmtxt_guidelines in Hs.
      destruct (tracked_invoke_model _ _ _) in Hs.
      injection Hs as _ _ <-. repeat constructor. }
    set (st5 := mkRun _ _ _ _ client' _ _ _).
    assert (H5 : extends closing_event st4 st5)
      by (exists evs; split; [reflexivity | exact Hevs]).
    assert (H6 : extends closing_event st4
                   (save_checkpoint w st5
                      (snapshot st5 top_prs (Some "llm_extraction_complete"))
                      "Error updating checkpoint after LLM extraction")).
    { eapply extends_trans; [exact H5|].
      apply save_checkpoint_extends; intros; exact I. }
    destruct (should_write _ _ _); [destruct (write_ok w)|]; cbn [final].
    + eapply extends_trans; [| apply remove_checkpoint_extends].
      eapply extends_trans; [exact H6|].
      eexists. split; [reflexivity | repeat constructor].
    + exact H6.
    + eapply extends_trans; [exact H6 | apply remove_checkpoint_extends].
Qed.

(** The trace of ANALYSIS, SYNTHESIS and DONE: one worker per PR not yet
    processed, then what their completions add, then the closing events. *)
Lemma analyse_finish_trace (w : World) (top_prs : list PullRequest)
    (existing_content : string) (existing_file : bool) (st1 : RunState) :
  let pending := unprocessed top_prs (processed_pr_ids st1) in
  exists comp clos,
    trace (final (finishing w top_prs existing_content existing_file
                            (analysis w top_prs st1)))
    = trace st1 ++ map (fun pr => EvWorker (pr_number pr)) pending
                ++ comp ++ clos /\
    Forall (completion_event (map pr_number pending)) comp /\
    Forall closing_event clos.
Proof.
  intros pending.
  destruct (finish_extends w top_prs existing_content existing_file
                           (analysis w top_prs st1)) as [clos [Hc Fc]].
  unfold analyse in Hc at 2. fold pending in Hc.
  set (st2 := with_trace st1 _) in Hc.
  set (st3 := fold_left _ _ st2) in Hc.
  destruct (save_checkpoint_extends closing_event w st3
              (snapshot st3 top_prs (Some "pr_analysis_complete"))
              "Error saving final checkpoint") as [sv [Hsv Fsv]];
    try (intros; exact I).
  destruct (fold_complete_extends w top_prs
              (as_completed (worker_schedule w) pending) st2) as [comp [Hcomp Fcomp]].
  fold st3 in Hcomp.
  assert (Fsv' : Forall (completion_event (map pr_number pending)) sv).
  { unfold save_checkpoint in Hsv. cbn [trace] in Hsv.
    apply app_inv_head in Hsv. subst sv.
    destruct (save_result w (saves st3)); repeat constructor. }
  exists (comp ++ sv), clos. split; [| split].
  - rewrite Hc, Hsv, Hcomp. unfold st2, with_trace. cbn [trace].
    now rewrite <- !app_assoc.
  - apply Forall_app. split; [| exact Fsv'].
    eapply Forall_impl; [| exact Fcomp].
    intros e. apply completion_event_mono.
    intros n Hn. apply in_map_iff in Hn. destruct Hn as [pr [<- Hpr]].
    apply in_map.
    eapply Permutation_in; [apply as_completed_perm | exact Hpr].
  - exact Fc.
Qed.

(** *** Resuming from a checkpoint *)

Lemma classified_app (a b : list event) :
  classified (a ++ b) = classified a ++ classified b.
Proof. apply flat_map_app. Qed.

Lemma extracted_app (a b : list event) :
  extracted (a ++ b) = extracted a ++ extracted b.
Proof. apply flat_map_app. Qed.

Lemma classified_completion (ns : list Z) (evs : list event) :
  Forall (completion_event ns) evs -> incl (classified evs) ns.
Proof.
  induction 1 as [| e evs He _ IH]; [intros n []|].
  unfold classified in *. cbn [flat_map].
  apply incl_app; [| exact IH].
  destruct e; intros m Hm; cbn in Hm; try contradiction.
  destruct Hm as [<- | []]. exact He.
Qed.

Lemma classified_none (P : event -> Prop) (evs : list event) :
  (forall n k, ~ P (EvClassify n k)) -> Forall P evs -> classified evs = [].
Proof.
  intros HP. induction 1 as [| e evs He _ IH]; [reflexivity|].
  unfold classified in *. cbn [flat_map]. rewrite IH.
  destruct e; try reflexivity. now apply HP in He.
Qed.

Lemma extracted_none (P : event -> Prop) (evs : list event) :
  (forall n, ~ P (EvExtract n)) -> Forall P evs -> extracted evs = [].
Proof.
  intros HP. induction 1 as [| e evs He _ IH]; [reflexivity|].
  unfold extracted in *. cbn [flat_map]. rewrite IH.
  destruct e; try reflexivity. now apply HP in He.
Qed.

Lemma no_search (P : event -> Prop) (evs : list event) :
  ~ P EvSearch -> Forall P evs -> ~ In EvSearch evs.
Proof.
  intros HP HF Hin. rewrite Forall_forall in HF. exact (HP (HF _ Hin)).
Qed.

Lemma get_top_k_events (h : Host) (k : nat) :
  Forall selector_event (snd (get_top_k_prs_by_comments h k)).
Proof.
  unfold get_top_k_prs_by_comments.
  destruct (select_top_prs h k) as [top_prs|]; cbn [snd].
  - constructor; [exact I|]. apply Forall_forall. intros e He.
    apply in_map_iff in He. destruct He as [pr [<- _]]. exact I.
  - repeat constructor.
Qed.

Lemma submitted_events (prs : list PullRequest) :
  Forall submission_event (map (fun pr => EvWorker (pr_number pr)) prs).
Proof.
  apply Forall_forall. intros e He. apply in_map_iff in He.
  destruct He as [pr [<- _]]. exact I.
Qed.

Lemma unprocessed_not_processed (top_prs : list PullRequest)
    (processed : list Z) (n : Z) :
  In n (map pr_number (unprocessed top_prs processed)) ->
  is_processed processed n = false.
Proof.
  intros Hn. apply in_map_iff in Hn. destruct Hn as [pr [<- Hpr]].
  apply filter_In in Hpr. destruct Hpr as [_ Hpr].
  now apply negb_true_iff in Hpr.
Qed.

(** C4, as amended.  A resumed run whose checkpoint loads restores
    [processed_pr_ids], [all_comments], the counters and [top_prs] from it.
    With [top_prs] the restored list, or the selector's when the restored
    one is empty, workers are submitted for exactly the PRs of [top_prs]
    whose number is not in [processed_pr_ids], and the classifier is never
    called for a processed PR.  When the restored [top_prs] is not empty
    the selector and the extractor are not invoked at all. *)
Theorem resume_dispatches_unprocessed :
  forall (w : World) (limit : nat) (cp : CheckpointState),
    checkpoint_file w = Stored cp ->
    let top_prs := snd (discover w limit (restored cp) (cp_top_prs cp)) in
    let t := trace (final (pipeline w limit true)) in
    initial_state w true = (restored cp, cp_top_prs cp) /\
    dispatched t
    = map pr_number (unprocessed top_prs (cp_processed_pr_ids cp)) /\
    (forall n, In n (classified t) ->
               is_processed (cp_processed_pr_ids cp) n = false) /\
    (cp_top_prs cp <> [] ->
     top_prs = cp_top_prs cp /\ extracted t = [] /\ ~ In EvSearch t).
Proof.
  intros w limit cp Hcp top_prs t.
  assert (Hinit : initial_state w true = (restored cp, cp_top_prs cp))
    by (unfold initial_state, restored; now rewrite Hcp).
  split; [exact Hinit|].
  subst t. unfold generate_llmtxt, before_analysis.
  replace (makedirs_ok w) with true by (unfold makedirs_ok; now rewrite Hcp).
  rewrite Hinit.
  destruct (discover w limit (restored cp) (cp_top_prs cp)) as [st1 tops] eqn:Hd.
  cbn [snd] in top_prs. subst top_prs.
  assert (Hst1 : processed_pr_ids st1 = cp_processed_pr_ids cp /\
                 Forall selector_event (trace st1) /\
                 (cp_top_prs cp <> [] -> tops = cp_top_prs cp /\ trace st1 = [])).
  { unfold discover in Hd. destruct (cp_top_prs cp) as [| pr0 prs0].
    - pose proof (get_top_k_events (host w) limit) as Hev.
      destruct (get_top_k_prs_by_comments (host w) limit) as [found evs].
      injection Hd as <- <-. cbn. split; [reflexivity|].
      split; [exact Hev | intros H; now contradiction H].
    - injection Hd as <- <-. cbn. repeat split. constructor. }
  destruct Hst1 as [Hproc [Hsel Hne]].
  assert (Hd0 : dispatched (trace st1) = [])
    by (eapply dispatched_none; [| exact Hsel]; intros n H; exact H).
  assert (Hc0 : classified (trace st1) = [])
    by (eapply classified_none; [| exact Hsel]; intros n k H; exact H).
  destruct tops as [| pr prs].
  - cbn [final trace]. rewrite Hd0, Hc0. cbn. split; [reflexivity|].
    split; [intros n []|]. intros H. destruct (Hne H) as [<- Ht].
    rewrite Ht. cbn. auto.
  - destruct (analyse_finish_trace w (pr :: prs) (existing_content_of w)
                (negb (is_empty (strip (existing_content_of w)))) st1)
      as [comp [clos [Ht [Fcomp Fclos]]]].
    rewrite Hproc in Ht, Fcomp. rewrite Ht.
    split; [| split].
    + rewrite !dispatched_app, Hd0, dispatched_workers.
      rewrite (dispatched_none _ comp (fun n H => H) Fcomp).
      rewrite (dispatched_none _ clos (fun n H => H) Fclos).
      cbn. now rewrite app_nil_r.
    + intros n Hn. rewrite !classified_app, Hc0 in Hn. cbn [app] in Hn.
      rewrite (classified_none _ _ (fun n k H => H) (submitted_events _)) in Hn.
      rewrite (classified_none _ clos (fun n k H => H) Fclos), app_nil_r in Hn.
      cbn [app] in Hn.
      apply (classified_completion _ _ Fcomp) in Hn.
      eapply unprocessed_not_processed. exact Hn.
    + intros H. destruct (Hne H) as [Htops Ht1]. split; [exact Htops|].
      rewrite Ht1. cbn [app]. split.
      * rewrite !extracted_app.
        rewrite (extracted_none _ _ (fun n H => H) (submitted_events _)).
        rewrite (extracted_none _ comp (fun n H => H) Fcomp).
        now rewrite (extracted_none _ clos (fun n H => H) Fclos).
      * intros Hin. apply in_app_or in Hin. destruct Hin as [Hin | Hin].
        { apply in_map_iff in Hin. destruct Hin as [x [Hx _]]. discriminate. }
        apply in_app_or in Hin. destruct Hin as [Hin | Hin].
        { exact (no_search _ comp (fun H => H) Fcomp Hin). }
        { exact (no_search _ clos (fun H => H) Fclos Hin). }
Qed.

End OrchestratorFacts.

(** *** Concrete runs *)

(** Resuming with two of five PRs processed: workers for the other three,
    and no extraction. *)
Lemma resume_dispatches_unprocessed_witness :
  dispatched (trace (final (demo_run (world_with two_of_five no_host) 5 true)))
  = [3; 4; 5]%Z /\
  extracted (trace (final (demo_run (world_with two_of_five no_host) 5 true)))
  = [].
Proof.
  pose proof (resume_dispatches_unprocessed "claude-3-sonnet" demo_classify
                demo_generation demo_update demo_synthesize
                (world_with two_of_five no_host) 5 two_of_five eq_refl)
    as (_ & Hd & _ & Hne).
  split; [exact Hd|].
  exact (proj1 (proj2 (Hne ltac:(discriminate)))).
Defined.

(** Resuming from a checkpoint without [top_prs]: discovery runs again and
    the context of PR 10, already processed, is extracted once more. *)
Lemma resume_reextracts_processed :
  let w := world_with lacks_top_prs (scenario_host (fun _ => Some []) []) in
  checkpoint_file w = Stored lacks_top_prs /\
  is_processed (cp_processed_pr_ids lacks_top_prs) 10 = true /\
  In 10%Z (extracted (trace (final (demo_run w 3 true)))).
Proof.
  cbv zeta. split; [reflexivity|]. split; [reflexivity|].
  vm_compute. left. reflexivity.
Qed.

(** ** Stripping *)

Lemma lstrip_idempotent (s : string) : lstrip (lstrip s) = lstrip s.
Proof.
  induction s as [| c s IH]; [reflexivity|]. cbn.
  destruct (isspace c) eqn:Hc; [exact IH|]. cbn. now rewrite Hc.
Qed.

Lemma rstrip_idempotent (s : string) : rstrip (rstrip s) = rstrip s.
Proof.
  induction s as [| c s IH]; [reflexivity|]. cbn.
  destruct (is_empty (rstrip s) && isspace c) eqn:Hc; [reflexivity|].
  cbn. now rewrite IH, Hc.
Qed.

(** Stripping on the left keeps a string stripped on the right. *)
Lemma rstrip_lstrip (s : string) : rstrip s = s -> rstrip (lstrip s) = lstrip s.
Proof.
  induction s as [| c s IH]; [reflexivity|]. intros H.
  assert (Hs : rstrip s = s).
  { cbn in H. destruct (is_empty (rstrip s) && isspace c); [discriminate|].
    now injection H. }
  cbn [lstrip]. destruct (isspace c); [now apply IH | exact H].
Qed.

Lemma strip_idempotent (s : string) : strip (strip s) = strip s.
Proof.
  unfold strip.
  rewrite (rstrip_lstrip (rstrip s) (rstrip_idempotent s)).
  apply lstrip_idempotent.
Qed.

Lemma strip_starts_nonspace (c : ascii) (s : string) :
  isspace c = false -> is_empty (strip (String c s)) = false.
Proof.
  intros Hc. unfold strip. cbn. rewrite Hc, andb_false_r. cbn. now rewrite Hc.
Qed.

(** ** Writing the guideline file *)

Section WriteGuardFacts.

Variable BEDROCK_MODEL_ID : string.
Variable llm_classify : string -> nat -> llm_reply.
Variable LLMTXT_GENERATION_PROMPT : string -> string.
Variable LLMTXT_UPDATE_PROMPT : string -> string -> string.
Variable llm_synthesize : string -> llm_reply.

Local Abbreviation analysis := (analyse BEDROCK_MODEL_ID llm_classify).
Local Abbreviation synthesis :=
  (generate_llmtxt_guidelines BEDROCK_MODEL_ID LLMTXT_GENERATION_PROMPT
                              LLMTXT_UPDATE_PROMPT llm_synthesize).
Local Abbreviation synthesized_text :=
  (synthesized BEDROCK_MODEL_ID LLMTXT_GENERATION_PROMPT LLMTXT_UPDATE_PROMPT
               llm_synthesize).
Local Abbreviation finishing :=
  (finish BEDROCK_MODEL_ID LLMTXT_GENERATION_PROMPT LLMTXT_UPDATE_PROMPT
          llm_synthesize).
Local Abbreviation pipeline :=
  (generate_llmtxt BEDROCK_MODEL_ID llm_classify LLMTXT_GENERATION_PROMPT
                   LLMTXT_UPDATE_PROMPT llm_synthesize).

(** The synthesizer never returns a non-empty blank text: its result is a
    stripped text or one of its two messages. *)
Lemma guidelines_not_blank (r : option reply_content) (msg : string) :
  is_empty (strip (guidelines_of_reply r msg)) = true ->
  guidelines_of_reply r msg = "".
Proof.
  destruct r as [[m | | t] |]; cbn [guidelines_of_reply]; intros H.
  - cbn [append] in H.
    rewrite strip_starts_nonspace in H by reflexivity. discriminate.
  - vm_compute in H. discriminate.
  - rewrite strip_idempotent in H. now destruct (strip t).
  - cbn [append] in H.
    rewrite strip_starts_nonspace in H by reflexivity. discriminate.
Qed.

Lemma synthesized_not_blank (st : RunState) (existing_content : string) :
  is_empty (strip (synthesized_text st existing_content)) = true ->
  synthesized_text st existing_content = "".
Proof.
  unfold synthesized, generate_llmtxt_guidelines.
  destruct (tracked_invoke_model _ _ _) as [self' content]. cbn [fst snd].
  apply guidelines_not_blank.
Qed.

(** With a non-empty file on disk, [should_write] says whether the new
    text differs from it. *)
Lemma should_write_iff_changed (st : RunState) (s : string) :
  s <> "" ->
  should_write (negb (is_empty (strip s))) s (synthesized_text st s)
  = negb (String.eqb s (synthesized_text st s)).
Proof.
  intros Hs. unfold should_write.
  destruct (is_empty (strip s)) eqn:Hblank; cbn [negb]; [| reflexivity].
  destruct (String.eqb s (synthesized_text st s)) eqn:Heq; [| reflexivity].
  apply String.eqb_eq in Heq. exfalso. apply Hs.
  rewrite Heq. apply synthesized_not_blank. now rewrite <- Heq.
Qed.

Lemma written_app (a b : list event) : written (a ++ b) = written a ++ written b.
Proof. apply flat_map_app. Qed.

Lemma written_none (evs : list event) : Forall not_a_write evs -> written evs = [].
Proof.
  induction 1 as [| e evs He _ IH]; [reflexivity|].
  unfold written in *. cbn [flat_map]. rewrite IH.
  destruct e; try reflexivity. contradiction.
Qed.

Lemma written_extends (a b : RunState) :
  extends not_a_write a b -> written (trace b) = written (trace a).
Proof.
  intros [evs [H F]]. rewrite H, written_app, (written_none _ F).
  apply app_nil_r.
Qed.

Lemma save_checkpoint_no_write (w : World) (st : RunState)
    (cp : CheckpointState) (err : string) :
  written (trace (save_checkpoint w st cp err)) = written (trace st).
Proof.
  apply written_extends, save_checkpoint_extends; intros; exact I.
Qed.

Lemma remove_checkpoint_no_write (w : World) (st : RunState) :
  written (trace (remove_checkpoint w st)) = written (trace st).
Proof.
  apply written_extends. unfold remove_checkpoint.
  destruct (checkpoint st); [apply extends_refl | |];
    destruct (remove_ok w); eexists; (split; [reflexivity|]);
    repeat constructor.
Qed.

Lemma before_analysis_no_write (w : World) (limit : nat) (resume : bool) :
  written (trace (fst (before_analysis w limit resume))) = [].
Proof.
  unfold before_analysis.
  destruct (makedirs_ok w); [| reflexivity].
  assert (H0 : Forall not_a_write (trace (fst (initial_state w resume)))).
  { unfold initial_state. destruct resume; [| constructor].
    destruct (checkpoint_file w); cbn; repeat constructor. }
  destruct (initial_state w resume) as [st0 loaded]. cbn [fst] in H0.
  unfold discover. destruct loaded as [| pr prs].
  - pose proof (get_top_k_events (host w) limit) as Hev.
    destruct (get_top_k_prs_by_comments (host w) limit) as [found evs].
    cbn [fst snd trace with_trace] in *.
    apply written_none, Forall_app. split; [exact H0|].
    eapply Forall_impl; [| exact Hev]. intros e. now destruct e.
  - cbn [fst]. now apply written_none.
Qed.

Lemma analyse_no_write (w : World) (top_prs : list PullRequest) (st1 : RunState) :
  written (trace (analysis w top_prs st1)) = written (trace st1).
Proof.
  unfold analyse. rewrite save_checkpoint_no_write.
  set (st2 := with_trace st1 _).
  transitivity (written (trace st2)).
  - apply written_extends.
    eapply extends_weaken; [| apply fold_complete_extends].
    intros e. now destruct e.
  - unfold st2, with_trace. cbn [trace]. rewrite written_app.
    rewrite (written_none (map _ _)); [apply app_nil_r|].
    apply Forall_forall. intros e He. apply in_map_iff in He.
    destruct He as [pr [<- _]]. exact I.
Qed.

(** What SYNTHESIS and DONE write when they succeed. *)
Lemma finish_written (w : World) (top_prs : list PullRequest)
    (existing_content : string) (existing_file : bool) (st4 : RunState) :
  let out := finishing w top_prs existing_content existing_file st4 in
  let content := synthesized_text st4 existing_content in
  ret out = true ->
  if should_write existing_file existing_content content
  then written (trace (final out)) = written (trace st4) ++ [content] /\
       final_output out = Content (text_mode_write (os_linesep w) content)
  else written (trace (final out)) = written (trace st4) /\
       final_output out = output_file w.
Proof.
  intros out content. subst out content. unfold finish, synthesized.
  destruct (synthesis_raises w); [discriminate|].
  destruct (synthesis _ _ _) as [[client' content] evs] eqn:Hs.
  assert (Hevs : written evs = []).
  { unfold generate_llmtxt_guidelines in Hs.
    destruct (tracked_invoke_model _ _ _) in Hs. now injection Hs as _ _ <-. }
  cbn [fst snd].
  destruct (should_write existing_file existing_content content).
  - destruct (write_ok w); [| discriminate]. intros _. cbn [final final_output].
    split; [| reflexivity].
    rewrite remove_checkpoint_no_write. unfold with_trace. cbn [trace].
    rewrite written_app, save_checkpoint_no_write. cbn [trace].
    now rewrite written_app, Hevs, app_nil_r.
  - intros _. cbn [final final_output]. split; [| reflexivity].
    rewrite remove_checkpoint_no_write, save_checkpoint_no_write. cbn [trace].
    now rewrite written_app, Hevs, app_nil_r.
Qed.

Lemma universal_newlines_nonempty (s : string) :
  s <> "" -> universal_newlines s <> "".
Proof.
  destruct s as [| c s]; [contradiction|]. intros _. cbn [universal_newlines].
  destruct (Ascii.eqb c CR); discriminate.
Qed.

(** C7, as amended.  The file is read in text mode, which turns every
    [\r\n] and every other [\r] into [\n], and the guard compares the
    synthesized text with the text so read.  In a successful run that finds
    the guideline file with non-empty content, the synthesized text is
    written exactly when it differs from the file's content as read: when
    it is the same nothing is written and the file stays as it was, and
    otherwise it is written once, in text mode. *)
Theorem guideline_written_only_if_changed :
  forall (w : World) (limit : nat) (resume : bool) (s : string),
    output_file w = Content s ->
    s <> "" ->
    ret (pipeline w limit resume) = true ->
    let start := before_analysis w limit resume in
    let existing_content := universal_newlines s in
    let content :=
      synthesized_text (analysis w (snd start) (fst start)) existing_content in
    let out := pipeline w limit resume in
    written (trace (final out))
    = (if String.eqb existing_content content then [] else [content]) /\
    final_output out
    = (if String.eqb existing_content content then Content s
       else Content (text_mode_write (os_linesep w) content)).
Proof.
  intros w limit resume s Hfile Hs Hret start existing_content content out.
  subst out. unfold generate_llmtxt in *.
  assert (Hex : existing_content_of w = existing_content)
    by (unfold existing_content_of; now rewrite Hfile).
  rewrite Hex in *.
  pose proof (before_analysis_no_write w limit resume) as H1.
  fold start in H1. subst content.
  destruct (before_analysis w limit resume) as [st1 top_prs].
  subst start. cbn [fst snd] in *.
  destruct top_prs as [| pr prs]; [discriminate|].
  pose proof (finish_written w (pr :: prs) existing_content
                (negb (is_empty (strip existing_content)))
                (analysis w (pr :: prs) st1) Hret) as Hw.
  cbv zeta in Hw. rewrite should_write_iff_changed in Hw
    by now apply universal_newlines_nonempty.
  rewrite analyse_no_write, H1 in Hw.
  destruct (String.eqb existing_content (synthesized_text _ existing_content));
    cbn [negb] in Hw.
  - destruct Hw as [Hw Ho]. split; [exact Hw|]. now rewrite Ho.
  - exact Hw.
Qed.

End WriteGuardFacts.

(** The second of two identical runs: the file already holds the text the
    synthesizer returns, and nothing is written. *)
Lemma guideline_written_only_if_changed_witness :
  written (trace (final (demo_run (world_with_output two_of_five "# Guidelines")
                                  5 true))) = [] /\
  final_output (demo_run (world_with_output two_of_five "# Guidelines") 5 true)
  = Content "# Guidelines".
Proof.
  exact (guideline_written_only_if_changed "claude-3-sonnet" demo_classify
           demo_generation demo_update demo_synthesize
           (world_with_output two_of_five "# Guidelines") 5 true "# Guidelines"
           eq_refl ltac:(discriminate) eq_refl).
Defined.

(** The claim as stated fails: the file holds [a\rb], the synthesizer
    returns [a\rb], byte for byte the same, and the run, which succeeds,
    writes it all the same: read in text mode the file is [a\nb]. *)
Lemma identical_bytes_are_rewritten :
  let w := world_with_output two_of_five text_with_cr in
  let out := generate_llmtxt "claude-3-sonnet" demo_classify demo_generation
               demo_update cr_synthesize w 5 true in
  ret out = true /\
  output_file w = Content text_with_cr /\
  synthesized "claude-3-sonnet" demo_generation demo_update cr_synthesize
              (analyse "claude-3-sonnet" demo_classify w
                       (snd (before_analysis w 5 true))
                       (fst (before_analysis w 5 true)))
              (existing_content_of w)
  = text_with_cr /\
  written (trace (final out)) = [text_with_cr] /\
  final_output out = Content text_with_cr.
Proof. vm_compute. repeat split. Qed.

(** ** Failing checkpoint saves *)

Section SaveFailureFacts.

Variable BEDROCK_MODEL_ID : string.
Variable llm_classify : string -> nat -> llm_reply.
Variable LLMTXT_GENERATION_PROMPT : string -> string.
Variable LLMTXT_UPDATE_PROMPT : string -> string -> string.
Variable llm_synthesize : string -> llm_reply.

Local Abbreviation complete := (complete_worker BEDROCK_MODEL_ID llm_classify).
Local Abbreviation analysis := (analyse BEDROCK_MODEL_ID llm_classify).
Local Abbreviation synthesis :=
  (generate_llmtxt_guidelines BEDROCK_MODEL_ID LLMTXT_GENERATION_PROMPT
                              LLMTXT_UPDATE_PROMPT llm_synthesize).
Local Abbreviation finishing :=
  (finish BEDROCK_MODEL_ID LLMTXT_GENERATION_PROMPT LLMTXT_UPDATE_PROMPT
          llm_synthesize).
Local Abbreviation pipeline :=
  (generate_llmtxt BEDROCK_MODEL_ID llm_classify LLMTXT_GENERATION_PROMPT
                   LLMTXT_UPDATE_PROMPT llm_synthesize).

Lemma work_events_app (a b : list event) :
  work_events (a ++ b) = work_events a ++ work_events b.
Proof. apply filter_app. Qed.




Lemma failed_save_is_logged (w : World) (st : RunState) (cp : CheckpointState)
    (err : string) :
  save_result w (saves st) <> Saved ->
  trace (save_checkpoint w st cp err)
  = trace st ++ [EvSave cp false; EvSaveError err].
Proof.
  unfold save_checkpoint. destruct (save_result w (saves st)); cbn; congruence.
Qed.






(** *** Failed saves are logged *)












(** *** The workers and the synthesis run all the same *)










End SaveFailureFacts.

(** A resumed run all of whose saves fail in [pickle.dump]: the three
    pending PRs are classified, the guidelines are synthesized and written,
    the run returns [True], and the torn checkpoint is removed. *)
Example run_with_failing_saves :
  let out := demo_run (with_save_result (world_with two_of_five no_host)
                                        (fun _ => DumpFailed)) 5 true in
  ret out = true /\
  final_output out = Content "# Guidelines" /\
  classified (trace (final out)) = [3; 4; 5]%Z /\
  written (trace (final out)) = ["# Guidelines"] /\
  checkpoint (final out) = Absent.
Proof. vm_compute. repeat split. Qed.


(** ** Saving a checkpoint *)

Module CheckpointFileFacts.

Import CheckpointFile.

Lemma append_assoc (a b c : string) :
  String.append (String.append a b) c = String.append a (String.append b c).
Proof. induction a as [| x a IH]; cbn; [reflexivity | now rewrite IH]. Qed.

Lemma append_empty_r (a : string) : String.append a "" = a.
Proof. induction a as [| x a IH]; cbn; [reflexivity | now rewrite IH]. Qed.

Lemma writes_append (chunks : list string) (c : string) :
  fold_left apply_op (map Write chunks) (Some c)
  = Some (String.append c (pickled chunks)).
Proof.
  revert c. induction chunks as [| x chunks IH]; intros c; cbn.
  - now rewrite append_empty_r.
  - rewrite IH. now rewrite append_assoc.
Qed.

Lemma firstn_writes (j : nat) (chunks : list string) :
  fold_left apply_op (firstn j (map Write chunks ++ [Close])) (Some "")
  = Some (pickled (firstn j chunks)).
Proof.
  destruct (Nat.le_gt_cases j (length chunks)) as [Hle | Hgt].
  - rewrite firstn_app, length_map.
    replace (j - length chunks) with 0 by lia. cbn [firstn].
    rewrite app_nil_r, firstn_map. apply writes_append.
  - rewrite firstn_all2 by (rewrite length_app, length_map; cbn; lia).
    rewrite fold_left_app, writes_append. cbn.
    now rewrite firstn_all2 by lia.
Qed.

(** C5, as amended.  A save rewrites the checkpoint file in place.  Before
    its first step the file is as it was; from then on it holds the part of
    the new snapshot written so far, the empty file to begin with, and once
    the save is complete it holds the whole new snapshot. *)
Theorem save_rewrites_in_place :
  forall (old : file) (chunks : list string),
    file_after 0 old chunks = old /\
    (forall j, file_after (S j) old chunks = Some (pickled (firstn j chunks))) /\
    file_after (length (save_ops chunks)) old chunks = Some (pickled chunks).
Proof.
  intros old chunks. split; [reflexivity|].
  assert (H : forall j, file_after (S j) old chunks
                        = Some (pickled (firstn j chunks))).
  { intros j. unfold file_after, save_ops. cbn [firstn fold_left apply_op].
    apply firstn_writes. }
  split; [exact H|].
  unfold save_ops. cbn [length]. rewrite H.
  now rewrite firstn_all2 by (rewrite length_app, length_map; cbn; lia).
Qed.

(** A reader that opens the file after the first chunk of a save finds
    neither the old snapshot nor the new one. *)
Lemma save_is_not_atomic : ~ atomic_save.
Proof.
  intros H.
  destruct (H (Some "old snapshot") ["new "; "snapshot"] 2) as [E | E];
    vm_compute in E; discriminate.
Qed.

End CheckpointFileFacts.

(** ** The ledger *)

Module LedgerThreadsFacts.

Import LedgerThreads.

Section Serial.

Variable modelId : string.

(** A thread that runs alone does what [tracked_invoke_model] does. *)
Lemma six_steps (u : Z * Z) (ts : list thread) (self : BedrockClient) :
  run modelId (repeat 0 6) (spawn u :: ts) self
  = (done u self :: ts,
     fst (tracked_invoke_model modelId self (Reply (fst u) (snd u) NotText))).
Proof. reflexivity. Qed.

Lemma run_app (a b : list nat) (ts : list thread) (self : BedrockClient) :
  run modelId (a ++ b) ts self
  = run modelId b (fst (run modelId a ts self)) (snd (run modelId a ts self)).
Proof.
  revert ts self. induction a as [| i a IH]; intros ts self; cbn; [reflexivity|].
  destruct (step_at modelId i ts self) as [ts' self']. apply IH.
Qed.

Lemma run_shift (schedule : list nat) (t : thread) (ts : list thread)
    (self : BedrockClient) :
  run modelId (map S schedule) (t :: ts) self
  = (t :: fst (run modelId schedule ts self), snd (run modelId schedule ts self)).
Proof.
  revert ts self. induction schedule as [| i schedule IH]; intros ts self; cbn.
  - reflexivity.
  - destruct (step_at modelId i ts self) as [ts' self']. apply IH.
Qed.

Lemma serial_shift (first n : nat) : serial (S first) n = map S (serial first n).
Proof.
  revert first. induction n as [| n IH]; intros first; cbn; [reflexivity|].
  now rewrite IH.
Qed.

Lemma serial_run (usages : list (Z * Z)) (self : BedrockClient) :
  snd (run modelId (serial 0 (length usages)) (map spawn usages) self)
  = one_at_a_time modelId usages self /\
  finished (fst (run modelId (serial 0 (length usages)) (map spawn usages) self))
  = true.
Proof.
  revert self. induction usages as [| u usages IH]; intros self.
  - split; reflexivity.
  - cbn [length serial map]. rewrite run_app, six_steps. cbn [fst snd].
    rewrite serial_shift, run_shift. cbn [fst snd].
    destruct (IH (mkClient (inferences self) (input_tokens self + fst u)
                           (output_tokens self + snd u)
                           (total_cost self
                            + calculate_cost modelId (fst u) (snd u))%float))
      as [Hs Hf].
    split; [exact Hs|]. cbn [finished forallb done pc]. exact Hf.
Qed.

Lemma one_at_a_time_tokens (usages : list (Z * Z)) (self : BedrockClient) :
  input_tokens (one_at_a_time modelId usages self)
  = (input_tokens self + fold_right Z.add 0 (map fst usages))%Z /\
  output_tokens (one_at_a_time modelId usages self)
  = (output_tokens self + fold_right Z.add 0 (map snd usages))%Z.
Proof.
  revert self. induction usages as [| u usages IH]; intros self.
  - cbn. split; lia.
  - unfold one_at_a_time in *. cbn [fold_left map fold_right].
    destruct (IH (fst (tracked_invoke_model modelId self
                         (Reply (fst u) (snd u) NotText)))) as [Hi Ho].
    rewrite Hi, Ho. cbn. split; lia.
Qed.

(** C9, as amended.  The ledger is updated by plain reads and writes of the
    shared client's fields, with no lock.  When the return paths of the
    calls run one after another, each to its end, every call is accounted
    for: the ledger is the one [tracked_invoke_model] builds call by call,
    and its token counters have grown by the sums of the calls' counts. *)
Theorem serial_updates_accumulate :
  forall (usages : list (Z * Z)) (self : BedrockClient),
    let after := run modelId (serial 0 (length usages)) (map spawn usages) self in
    finished (fst after) = true /\
    snd after = one_at_a_time modelId usages self /\
    input_tokens (snd after)
    = (input_tokens self + fold_right Z.add 0 (map fst usages))%Z /\
    output_tokens (snd after)
    = (output_tokens self + fold_right Z.add 0 (map snd usages))%Z.
Proof.
  intros usages self after. subst after.
  destruct (serial_run usages self) as [Hs Hf].
  split; [exact Hf|]. split; [exact Hs|].
  rewrite Hs. apply one_at_a_time_tokens.
Qed.

End Serial.

(** Two workers whose replies count 10 and 20 input tokens both read the
    counter before either writes it: the ledger ends at 20, not 30. *)
Lemma interleaved_update_is_lost : ~ no_lost_update "claude-3-sonnet".
Proof.
  intros H.
  specialize (H [(10, 1); (20, 2)]%Z [0; 1; 0; 1; 0; 0; 0; 0; 1; 1; 1; 1]
                new_client eq_refl).
  vm_compute in H. discriminate.
Qed.

End LedgerThreadsFacts.

(** ** The synthesizer's prompt *)

Section PromptFacts.

Variable LLMTXT_GENERATION_PROMPT : string -> string.
Variable LLMTXT_UPDATE_PROMPT : string -> string -> string.

(** The section stops before the next [## word] heading, also inside a
    [###] heading; without one it runs to the end of the document, less a
    final newline. *)
Example toc_stops_at_heading :
  TocPattern.toc_section ("# T" ++ nl ++ "## Table of Contents" ++ nl ++ "- a" ++ nl
                          ++ "### x" ++ nl ++ "## 1. First" ++ nl)
  = ("## Table of Contents" ++ nl ++ "- a" ++ nl ++ "#")%string.
Proof. vm_compute. reflexivity. Qed.

Example toc_runs_to_end :
  TocPattern.toc_section ("# T" ++ nl ++ "## Table of Contents" ++ nl ++ "- a" ++ nl
                          ++ "##nope" ++ nl ++ "# First" ++ nl)
  = ("## Table of Contents" ++ nl ++ "- a" ++ nl ++ "##nope" ++ nl
     ++ "# First")%string.
Proof. vm_compute. reflexivity. Qed.

(** For a large document that is not blank, the update template receives
    the table-of-contents section, the first 10,000 characters, the
    truncation marker and the last 5,000 characters, in this order. *)
Lemma large_content_prompt (all_comments : list CommentDatum)
    (existing_content : string) :
  is_empty (strip existing_content) = false ->
  20000 < String.length existing_content ->
  build_prompt LLMTXT_GENERATION_PROMPT LLMTXT_UPDATE_PROMPT all_comments
               existing_content
  = LLMTXT_UPDATE_PROMPT
      (TocPattern.toc_section existing_content ++ nl ++ nl
       ++ take 10000 existing_content ++ truncation_marker
       ++ last_chars 5000 existing_content)
      (comments_text all_comments).
Proof.
  intros Hblank Hlen. unfold build_prompt, forwarded_content.
  rewrite Hblank.
  replace (20000 <? String.length existing_content) with true
    by (symmetry; now apply Nat.ltb_lt).
  unfold optimized_content.
  replace (5000 <? String.length existing_content) with true; [reflexivity|].
  symmetry. apply Nat.ltb_lt.
  eapply Nat.lt_trans; [| exact Hlen]. apply Nat.ltb_lt. vm_compute. reflexivity.
Qed.

(** C8.  For [toc_only_document], larger than 20,000 characters, the
    pattern's table-of-contents section runs to the end of the document, so
    the content put into the update prompt begins with the whole existing
    document, verbatim, and goes on with the two windows: 35,065 characters
    for a document of 20,021. *)
Theorem large_toc_is_forwarded_whole :
  String.length toc_only_document = 20021 /\
  TocPattern.toc_section toc_only_document = toc_only_document /\
  forwarded_content toc_only_document
  = Some (optimized_content toc_only_document) /\
  startswith toc_only_document (optimized_content toc_only_document) = true /\
  String.length (optimized_content toc_only_document) = 35065 /\
  forall all_comments,
    build_prompt LLMTXT_GENERATION_PROMPT LLMTXT_UPDATE_PROMPT all_comments
                 toc_only_document
    = LLMTXT_UPDATE_PROMPT (optimized_content toc_only_document)
                           (comments_text all_comments).
Proof.
  assert (Hblank : is_empty (strip toc_only_document) = false)
    by (vm_compute; reflexivity).
  assert (Hlen : String.length toc_only_document = 20021)
    by (apply Nat.eqb_eq; vm_compute; reflexivity).
  assert (Hf : forwarded_content toc_only_document
               = Some (optimized_content toc_only_document)).
  { assert (Hbig : (20000 <? String.length toc_only_document) = true)
      by (vm_compute; reflexivity).
    unfold forwarded_content. now rewrite Hblank, Hbig. }
  split; [exact Hlen|].
  split; [apply String.eqb_eq; vm_compute; reflexivity|].
  split; [exact Hf|].
  split; [vm_compute; reflexivity|].
  split; [apply Nat.eqb_eq; vm_compute; reflexivity|].
  intros all_comments. unfold build_prompt. now rewrite Hf.
Qed.

End PromptFacts.

(** * Further properties *)

(** ** The classifiers *)

Section MoreClassifierFacts.

Variable BEDROCK_MODEL_ID : string.
Variable llm_classify : string -> nat -> llm_reply.

Lemma parse_block_well_formed (response : string) :
  well_formed_result (fst (parse_block response)) (snd (parse_block response)).
Proof.
  unfold parse_block, well_formed_result, is_category.
  destruct (contains "code_standards" _).
  - cbn [fst snd]. split; [auto|]. split; [auto|].
    destruct (split nl (strip response)) as [| l0 [| l1 ls]]; try reflexivity.
    destruct (is_empty (strip l1)); [reflexivity | apply strip_idempotent].
  - destruct (contains "discussions" _); cbn [fst snd]; repeat split; auto.
Qed.

Lemma parse_blocks_well_formed (responses : list string) :
  Forall (fun p => well_formed_result (fst p) (snd p)) (parse_blocks responses).
Proof.
  induction responses as [| r rs IH]; cbn; [constructor|].
  destruct (is_empty (strip r)); [exact IH|].
  constructor; [apply parse_block_well_formed | exact IH].
Qed.

Lemma Forall2_fst_snd {A B : Type} (R : A -> B -> Prop) (l : list (A * B)) :
  Forall (fun p => R (fst p) (snd p)) l -> Forall2 R (map fst l) (map snd l).
Proof. induction 1; cbn; constructor; auto. Qed.

(** X1.  Whatever text the model returns, the parser pairs every
    classification with its inference: the classification is one of the
    three categories, the inference is empty unless the classification is
    [code_standards], and it carries no surrounding white space. *)
Theorem parse_response_well_formed :
  forall text : string,
    Forall2 well_formed_result (fst (parse_response text))
            (snd (parse_response text)).
Proof.
  intros text. unfold parse_response. cbn [fst snd].
  apply Forall2_fst_snd, parse_blocks_well_formed.
Qed.

Lemma Forall_repeat {A : Type} (P : A -> Prop) (x : A) (n : nat) :
  P x -> Forall P (repeat x n).
Proof. intros H. induction n; cbn; constructor; auto. Qed.

Lemma Forall_firstn {A : Type} (P : A -> Prop) (n : nat) (l : list A) :
  Forall P l -> Forall P (firstn n l).
Proof.
  intros H. revert n. induction H; intros [| n]; cbn; constructor; auto.
Qed.

Lemma general_is_category : is_category "general".
Proof. unfold is_category. auto. Qed.

Lemma parsed_categories (text : string) :
  Forall is_category (fst (parse_response text)).
Proof.
  unfold parse_response. cbn [fst].
  pose proof (parse_blocks_well_formed (split (nl ++ nl) (strip text))) as H.
  induction H as [| p ps [Hc _] _ IH]; cbn; constructor; auto.
Qed.

Lemma classified_categories (self : BedrockClient) (n : nat) (r : llm_reply) :
  Forall is_category (snd (classify_comments BEDROCK_MODEL_ID self n r)).
Proof.
  destruct r as [msg | i o [msg | | text]];
    try (cbn; apply Forall_repeat, general_is_category).
  rewrite classify_comments_text. cbn [snd].
  pose proof (parsed_categories text) as Hc.
  unfold reconcile.
  destruct (length (fst (parse_response text)) <? n).
  - apply Forall_app. split; [exact Hc|].
    apply Forall_repeat, general_is_category.
  - destruct (n <? length (fst (parse_response text)));
      [now apply Forall_firstn | exact Hc].
Qed.

(** X2.  Every classification [classify_comments] returns is one of
    [code_standards], [discussions] and [general], on every reply and for
    every requested count. *)
Theorem classify_comments_categories :
  forall (self : BedrockClient) (num_comments : nat) (r : llm_reply),
    Forall is_category
           (snd (classify_comments BEDROCK_MODEL_ID self num_comments r)).
Proof. intros self n r. apply classified_categories. Qed.

End MoreClassifierFacts.

(** ** The worker *)

Section MoreWorkerFacts.

Variable BEDROCK_MODEL_ID : string.
Variable llm_classify : string -> nat -> llm_reply.

Local Abbreviation worker := (_classify_pr_comments BEDROCK_MODEL_ID llm_classify).

Lemma map_back_fields (infs : list string) (idx : nat)
    (cs : list (ReviewComment * string)) (classifications : list string) :
  length classifications = length cs ->
  map file (map_back infs idx cs classifications) = map (fun p => path (fst p)) cs /\
  map comment (map_back infs idx cs classifications)
  = map (fun p => review_comment (fst p)) cs /\
  map classification (map_back infs idx cs classifications) = classifications.
Proof.
  revert idx classifications.
  induction cs as [| [c t] cs IH]; intros idx [| cl cls] Hlen;
    try discriminate; cbn; [repeat split|].
  injection Hlen as Hlen. destruct (IH (S idx) cls Hlen) as (H1 & H2 & H3).
  now rewrite H1, H2, H3.
Qed.

Lemma comments_to_classify_submitted (rcs : list ReviewComment) :
  map fst (comments_to_classify rcs) = submitted rcs.
Proof.
  unfold comments_to_classify, submitted. rewrite map_map. cbn. apply map_id.
Qed.

Lemma worker_aligned_aux :
  forall (client : BedrockClient) (pr : PullRequest) (rcs : list ReviewComment),
    review_comments pr = Some rcs ->
    exists a,
      snd (fst (worker client pr)) = Some a /\
      an_pr_number a = pr_number pr /\
      map file (comment_analysis a) = map path (submitted rcs) /\
      map comment (comment_analysis a) = map review_comment (submitted rcs) /\
      Forall is_category (map classification (comment_analysis a)).
Proof.
  intros client pr rcs Hrcs. unfold _classify_pr_comments. rewrite Hrcs.
  pose proof (comments_to_classify_submitted rcs) as Hsub.
  destruct (comments_to_classify rcs) as [| p ps] eqn:Hcs.
  - cbn in Hsub. rewrite <- Hsub. eexists. cbn. repeat split. constructor.
  - pose proof (classified_categories BEDROCK_MODEL_ID client (length (p :: ps))
                  (llm_classify (String.concat nl (map snd (p :: ps)))
                                (length (p :: ps)))) as Hcat.
    assert (Hlen : length (snd (classify_comments BEDROCK_MODEL_ID client
                                  (length (p :: ps))
                                  (llm_classify (String.concat nl (map snd (p :: ps)))
                                                (length (p :: ps)))))
                   = length (p :: ps)).
    { destruct (llm_classify _ _) as [msg | i o [msg | | text]];
        cbn - [length]; try apply repeat_length.
      destruct (parse_response text) as [cl infs]. cbn - [length].
      apply reconcile_length. }
    destruct (classify_comments _ _ _ _) as [client' cls]. cbn [fst snd] in *.
    destruct (map_back_fields (inferences client') 0 (p :: ps) cls Hlen)
      as (H1 & H2 & H3).
    eexists. split; [reflexivity|]. cbn [an_pr_number comment_analysis].
    split; [reflexivity|].
    rewrite H1, H2, H3, <- Hsub, !map_map. repeat split. exact Hcat.
Qed.

(** X3.  For a PR that carries its review comments, the worker always
    returns an analysis, whatever the model replies: it has one entry per
    submitted comment (those with a body), in the comments' order, each
    with the comment's own path and text and with one of the three
    categories. *)
Theorem worker_keeps_comments_aligned :
  forall (client : BedrockClient) (pr : PullRequest) (rcs : list ReviewComment),
    review_comments pr = Some rcs ->
    exists a,
      snd (fst (worker client pr)) = Some a /\
      an_pr_number a = pr_number pr /\
      map file (comment_analysis a) = map path (submitted rcs) /\
      map comment (comment_analysis a) = map review_comment (submitted rcs) /\
      Forall is_category (map classification (comment_analysis a)).
Proof. exact worker_aligned_aux. Qed.

(** X4.  A PR none of whose review comments has a body (in particular a
    PR with no review comments) gets an empty analysis without any call of
    the classifier; the client is left as it was. *)
Theorem worker_skips_empty_prs :
  forall (client : BedrockClient) (pr : PullRequest) (rcs : list ReviewComment),
    review_comments pr = Some rcs ->
    Forall (fun c => review_comment c = "") rcs ->
    worker client pr
    = (client,
       Some (mkPRAnalysis (pr_number pr) (title pr) (comment_count pr) []), []).
Proof.
  intros client pr rcs Hrcs Hempty. unfold _classify_pr_comments. rewrite Hrcs.
  replace (comments_to_classify rcs) with (@nil (ReviewComment * string));
    [reflexivity|].
  unfold comments_to_classify. clear Hrcs.
  induction Hempty as [| c cs Hc _ IH]; [reflexivity|].
  cbn [filter]. rewrite Hc. cbn [is_empty negb]. exact IH.
Qed.

End MoreWorkerFacts.

Lemma worker_keeps_comments_aligned_witness :
  exists a,
    snd (fst (_classify_pr_comments "claude-3-sonnet" demo_classify new_client
                (fetched 3 30))) = Some a /\
    an_pr_number a = 3%Z /\
    map file (comment_analysis a) = ["a.py"] /\
    map comment (comment_analysis a) = ["rename this"] /\
    Forall is_category (map classification (comment_analysis a)).
Proof.
  exact (worker_keeps_comments_aligned "claude-3-sonnet" demo_classify new_client
           (fetched 3 30) [mkComment "a.py" "rename this" ""] eq_refl).
Defined.

Lemma worker_skips_empty_prs_witness :
  _classify_pr_comments "claude-3-sonnet" demo_classify new_client
    (mkPR 8 "t" 2 (Some [silent_comment]))
  = (new_client, Some (mkPRAnalysis 8 "t" 2 []), []).
Proof.
  apply (worker_skips_empty_prs "claude-3-sonnet" demo_classify new_client
           (mkPR 8 "t" 2 (Some [silent_comment])) [silent_comment] eq_refl).
  repeat constructor.
Defined.

(** ** Letter case and white space *)

Lemma isspace_lower_char (c : ascii) : isspace (lower_char c) = isspace c.
Proof. destruct c as [[] [] [] [] [] [] [] []]; reflexivity. Qed.

Lemma lower_char_idempotent (c : ascii) : lower_char (lower_char c) = lower_char c.
Proof. destruct c as [[] [] [] [] [] [] [] []]; reflexivity. Qed.

Lemma lower_idempotent (s : string) : lower (lower s) = lower s.
Proof.
  induction s as [| c s IH]; cbn; [reflexivity|].
  now rewrite lower_char_idempotent, IH.
Qed.

Lemma is_empty_lower (s : string) : is_empty (lower s) = is_empty s.
Proof. now destruct s. Qed.

Lemma lstrip_lower (s : string) : lstrip (lower s) = lower (lstrip s).
Proof.
  induction s as [| c s IH]; cbn; [reflexivity|].
  rewrite isspace_lower_char. destruct (isspace c); [exact IH | reflexivity].
Qed.

Lemma rstrip_lower (s : string) : rstrip (lower s) = lower (rstrip s).
Proof.
  induction s as [| c s IH]; cbn; [reflexivity|].
  rewrite IH, is_empty_lower, isspace_lower_char.
  now destruct (is_empty (rstrip s) && isspace c).
Qed.

Lemma strip_lower (s : string) : strip (lower s) = lower (strip s).
Proof. unfold strip. now rewrite rstrip_lower, lstrip_lower. Qed.

Section SingleClassifierFacts.

Variable BEDROCK_MODEL_ID : string.

(** X5.  [classify_comment] always answers with one of the three
    categories; a reply that is not a text block, or no reply at all, gives
    [general]; the letter case of the model's text does not matter; and the
    client changes only as [tracked_invoke_model] changes it. *)
Theorem classify_comment_total :
  forall (self : BedrockClient) (r : llm_reply),
    is_category (snd (classify_comment BEDROCK_MODEL_ID self r)) /\
    fst (classify_comment BEDROCK_MODEL_ID self r)
    = fst (tracked_invoke_model BEDROCK_MODEL_ID self r) /\
    (forall (i o : Z) (text : string),
        snd (classify_comment BEDROCK_MODEL_ID self (Reply i o (TextBlock (lower text))))
        = snd (classify_comment BEDROCK_MODEL_ID self (Reply i o (TextBlock text)))) /\
    (forall (i o : Z) (msg : string),
        snd (classify_comment BEDROCK_MODEL_ID self (TransportError msg)) = "general" /\
        snd (classify_comment BEDROCK_MODEL_ID self (Reply i o NotText)) = "general" /\
        snd (classify_comment BEDROCK_MODEL_ID self (Reply i o (Malformed msg)))
        = "general").
Proof.
  intros self r. split; [| split; [| split]].
  - unfold classify_comment, is_category.
    destruct r as [msg | i o [msg | | text]]; cbn; auto.
    destruct (contains "code_standards" _); auto.
    destruct (contains "discussions" _); auto.
  - unfold classify_comment.
    now destruct r as [msg | i o [msg | | text]].
  - intros i o text. unfold classify_comment. cbn [tracked_invoke_model snd].
    now rewrite strip_lower, lower_idempotent.
  - intros i o msg. repeat split.
Qed.

End SingleClassifierFacts.

(** ** The cost ledger *)

(** ** The ledger *)

Section LedgerFacts.


Lemma float_differ (x y : float) : Prim2SF x <> Prim2SF y -> x <> y.
Proof. intros H E. apply H. now rewrite E. Qed.


Lemma after_replies_counts (modelId : string) (replies : list llm_reply)
    (self : BedrockClient) :
  input_tokens (after_replies modelId replies self)
  = (input_tokens self + counted_in replies)%Z /\
  output_tokens (after_replies modelId replies self)
  = (output_tokens self + counted_out replies)%Z /\
  inferences (after_replies modelId replies self) = inferences self.
Proof.
  revert self. unfold after_replies, counted_in, counted_out.
  induction replies as [| r rs IH]; intros self; cbn [fold_left].
  - cbn. split; [lia|]. split; [lia | reflexivity].
  - destruct (IH (fst (tracked_invoke_model modelId self r))) as (Hi & Ho & Hf).
    rewrite Hi, Ho, Hf.
    destruct r as [msg | i o content];
      cbn [tracked_invoke_model fst input_tokens output_tokens inferences
           fold_right];
      (split; [lia|]); (split; [lia | reflexivity]).
Qed.

(** X7.  After any series of gateway calls on a fresh client, failed ones
    included, the two token counters are exactly the sums of what the
    replies reported, and [inferences] is untouched.  The cost is another
    matter: it is summed call by call in binary floating point, and is not
    determined by the counters.  With [claude-3-haiku], calls of 1000/200
    and 500/100 tokens leave the counters of one call of 1500/300 tokens
    and another [total_cost], which is not the cost of the tokens
    counted. *)
Theorem ledger_counts_tokens_exactly :
  (forall (modelId : string) (replies : list llm_reply),
      let self := after_replies modelId replies new_client in
      input_tokens self = counted_in replies /\
      output_tokens self = counted_out replies /\
      inferences self = []) /\
  (let a := after_replies "claude-3-haiku" two_calls new_client in
   let b := after_replies "claude-3-haiku" one_call new_client in
   input_tokens a = input_tokens b /\
   output_tokens a = output_tokens b /\
   total_cost a <> total_cost b /\
   total_cost a
   <> calculate_cost "claude-3-haiku" (input_tokens a) (output_tokens a)).
Proof.
  split.
  - intros modelId replies self.
    destruct (after_replies_counts modelId replies new_client) as (Hi & Ho & Hf).
    subst self. rewrite Hi, Ho, Hf. cbn. repeat split.
  - cbv zeta. split; [reflexivity|]. split; [reflexivity|].
    split; apply float_differ; vm_compute; discriminate.
Qed.

End LedgerFacts.

(** ** Sorting and selecting *)

Section SortFacts.

Context {A : Type} (key : A -> Z).

Lemma insert_desc_perm (x : A) (l : list A) :
  Permutation (insert_desc key x l) (x :: l).
Proof.
  induction l as [| y l IH]; cbn; [reflexivity|].
  destruct (key y <=? key x)%Z; [reflexivity|].
  rewrite IH. apply perm_swap.
Qed.

Lemma sort_desc_perm (l : list A) : Permutation (sort_desc key l) l.
Proof.
  unfold sort_desc. induction l as [| x l IH]; cbn; [reflexivity|].
  rewrite insert_desc_perm. now constructor.
Qed.

Lemma insert_desc_sorted (x : A) (l : list A) :
  StronglySorted (descending key) l ->
  StronglySorted (descending key) (insert_desc key x l).
Proof.
  induction 1 as [| y l Hs IH Hy]; cbn; [repeat constructor|].
  destruct (key y <=? key x)%Z eqn:Hle.
  - apply Z.leb_le in Hle. constructor; [now constructor|].
    constructor; [exact Hle|].
    eapply Forall_impl; [| exact Hy]. unfold descending. intros a Ha. lia.
  - apply Z.leb_gt in Hle. constructor; [exact IH|].
    apply Forall_forall. intros a Ha.
    apply (Permutation_in _ (insert_desc_perm x l)) in Ha.
    destruct Ha as [<- | Ha]; [unfold descending; lia|].
    rewrite Forall_forall in Hy. now apply Hy.
Qed.

Lemma sort_desc_sorted (l : list A) :
  StronglySorted (descending key) (sort_desc key l).
Proof.
  unfold sort_desc. induction l as [| x l IH]; cbn; [constructor|].
  now apply insert_desc_sorted.
Qed.

Lemma insert_desc_stable (v : Z) (x : A) (l : list A) :
  filter (fun a => key a =? v)%Z (insert_desc key x l)
  = filter (fun a => key a =? v)%Z (x :: l).
Proof.
  induction l as [| y l IH]; [reflexivity|]. cbn [insert_desc].
  destruct (key y <=? key x)%Z eqn:Hle; [reflexivity|].
  apply Z.leb_gt in Hle. cbn [filter] in *. rewrite IH.
  destruct (key x =? v)%Z eqn:Hx, (key y =? v)%Z eqn:Hy; try reflexivity.
  apply Z.eqb_eq in Hx. apply Z.eqb_eq in Hy. lia.
Qed.

Lemma sort_desc_stable (v : Z) (l : list A) :
  filter (fun a => key a =? v)%Z (sort_desc key l)
  = filter (fun a => key a =? v)%Z l.
Proof.
  unfold sort_desc. induction l as [| x l IH]; [reflexivity|].
  cbn [fold_right]. rewrite insert_desc_stable. cbn [filter]. now rewrite IH.
Qed.

(** X8.  The sort behind [list.sort(key=..., reverse=True)] and
    [sorted(..., reverse=True)], as the selector and the synthesizer use
    it: the result holds the same elements, in descending order of the
    key, and elements with equal keys keep the order they had. *)
Theorem sort_desc_stable_descending :
  forall l : list A,
    Permutation (sort_desc key l) l /\
    StronglySorted (descending key) (sort_desc key l) /\
    (forall v : Z,
        filter (fun a => key a =? v)%Z (sort_desc key l)
        = filter (fun a => key a =? v)%Z l).
Proof.
  intros l. split; [apply sort_desc_perm|]. split; [apply sort_desc_sorted|].
  intros v. apply sort_desc_stable.
Qed.

End SortFacts.

Lemma sorted_app_left {A : Type} (R : A -> A -> Prop) (l1 l2 : list A) :
  StronglySorted R (l1 ++ l2) -> StronglySorted R l1.
Proof.
  induction l1 as [| x l1 IH]; cbn; [constructor|].
  intros H. inversion H as [| ? ? Hs Hx]; subst.
  constructor; [now apply IH|]. apply Forall_app in Hx. tauto.
Qed.

Lemma sorted_app_between {A : Type} (R : A -> A -> Prop) (l1 l2 : list A)
    (a b : A) :
  StronglySorted R (l1 ++ l2) -> In a l1 -> In b l2 -> R a b.
Proof.
  induction l1 as [| x l1 IH]; cbn; [contradiction|].
  intros H Ha Hb. inversion H as [| ? ? Hs Hx]; subst.
  destruct Ha as [<- | Ha]; [| now apply IH].
  rewrite Forall_forall in Hx. apply Hx, in_or_app. now right.
Qed.

Lemma In_firstn {A : Type} (n : nat) (l : list A) (x : A) :
  In x (firstn n l) -> In x l.
Proof.
  revert l. induction n as [| n IH]; intros [| y l]; cbn; try contradiction.
  intros [H | H]; [now left | right; now apply IH].
Qed.

Section MoreSelectorFacts.

Lemma select_top_prs_scanned (h : Host) (k : nat) (top_prs : list PullRequest) :
  select_top_prs h k = Some top_prs ->
  top_prs = firstn k (sort_by_comments (scanned_candidates h k)).
Proof.
  unfold select_top_prs, scanned_candidates.
  destruct (search_issues h) as [results|]; [| discriminate].
  destruct (scan_candidates _ _ _ _ _); [discriminate|].
  now intros [= <-].
Qed.

(** X9.  When the selector selects, it selects at most [k] candidates, in
    descending order of comment count, and they are the top of what was
    scanned: together with the candidates left out they make up the
    scanned list, and no candidate left out has more comments than a
    selected one. *)
Theorem select_top_prs_is_top_k :
  forall (h : Host) (k : nat) (top_prs : list PullRequest),
    select_top_prs h k = Some top_prs ->
    length top_prs <= k /\
    StronglySorted (descending comment_count) top_prs /\
    exists rest,
      Permutation (top_prs ++ rest) (scanned_candidates h k) /\
      forall q r, In q top_prs -> In r rest ->
                  (comment_count r <= comment_count q)%Z.
Proof.
  intros h k top_prs Hsel. apply select_top_prs_scanned in Hsel.
  set (sorted := sort_by_comments (scanned_candidates h k)) in *.
  assert (Hsorted : StronglySorted (descending comment_count)
                                   (firstn k sorted ++ skipn k sorted)).
  { rewrite firstn_skipn. apply sort_desc_sorted. }
  subst top_prs. split; [apply firstn_le_length|].
  split; [eapply sorted_app_left; exact Hsorted|].
  exists (skipn k sorted). split.
  - rewrite firstn_skipn. apply sort_desc_perm.
  - intros q r Hq Hr.
    exact (sorted_app_between _ _ _ _ _ Hsorted Hq Hr).
Qed.

Lemma scan_candidates_length (g : Z -> option PullRequest) (k : nat)
    (issues : list Z) (c : nat) (acc : list PullRequest) :
  length acc = c ->
  length (scan_candidates g k issues c acc) <= Nat.max (k * 2) (S c) /\
  length (scan_candidates g k issues c acc) <= c + length issues.
Proof.
  revert c acc. induction issues as [| n issues IH]; intros c acc Hc; cbn.
  - lia.
  - destruct (g n) as [info|].
    + destruct (k * 2 <=? S c) eqn:Hstop.
      * rewrite length_app. cbn. lia.
      * apply Nat.leb_gt in Hstop.
        destruct (IH (S c) (acc ++ [info])) as [H1 H2].
        { rewrite length_app. cbn. lia. }
        lia.
    + destruct (IH c acc Hc) as [H1 H2]. lia.
Qed.

Lemma scan_candidates_from (g : Z -> option PullRequest) (k : nat)
    (issues : list Z) (c : nat) (acc : list PullRequest) (pr : PullRequest) :
  In pr (scan_candidates g k issues c acc) ->
  In pr acc \/ exists n, In n issues /\ g n = Some pr.
Proof.
  revert c acc. induction issues as [| n issues IH]; intros c acc Hin; cbn in *.
  - now left.
  - destruct (g n) as [info|] eqn:Hg.
    + assert (Hnew : In pr (acc ++ [info]) ->
                     In pr acc \/ exists m, (n = m \/ In m issues) /\ g m = Some pr).
      { intros H. apply in_app_or in H. destruct H as [H | [<- | []]]; [now left|].
        right. exists n. auto. }
      destruct (k * 2 <=? S c); [now apply Hnew|].
      apply IH in Hin. destruct Hin as [Hin | [m [Hm Hgm]]]; [now apply Hnew|].
      right. exists m. auto.
    + apply IH in Hin. destruct Hin as [Hin | [m [Hm Hgm]]]; [now left|].
      right. exists m. auto.
Qed.

(** X10.  The selector's scan is bounded: it retains at most [2 * k]
    candidates (one when [k] is 0) and never more than 300, and every
    candidate it retains is the pull of one of the search results. *)
Theorem scan_is_bounded :
  forall (h : Host) (k : nat),
    length (scanned_candidates h k) <= Nat.max (2 * k) 1 /\
    length (scanned_candidates h k) <= 300 /\
    forall pr, In pr (scanned_candidates h k) ->
               exists results n,
                 search_issues h = Some results /\ In n results /\
                 get_pull h n = Some pr.
Proof.
  intros h k. unfold scanned_candidates.
  destruct (search_issues h) as [results|].
  - set (issues := firstn (Nat.min 300 (length results)) results).
    destruct (scan_candidates_length (get_pull h) k issues 0 [] eq_refl)
      as [H1 H2].
    assert (Hlen : length issues <= 300).
    { unfold issues. rewrite length_firstn.
      eapply Nat.le_trans; [apply Nat.le_min_l | apply Nat.le_min_l]. }
    split; [replace (2 * k) with (k * 2) by lia; exact H1|].
    split; [cbn [Nat.add] in H2; lia|].
    intros pr Hin. apply scan_candidates_from in Hin.
    destruct Hin as [[] | [n [Hn Hg]]].
    exists results, n. split; [reflexivity|]. split; [| exact Hg].
    unfold issues in Hn. eapply In_firstn. exact Hn.
  - cbn. split; [lia|]. split; [lia|]. intros pr [].
Qed.

End MoreSelectorFacts.

Lemma select_top_prs_is_top_k_witness :
  let top_prs := [candidate 10 40; candidate 11 15; candidate 12 15] in
  length top_prs <= 3 /\
  StronglySorted (descending comment_count) top_prs /\
  exists rest,
    Permutation (top_prs ++ rest)
                (scanned_candidates (scenario_host (fun _ => None) []) 3) /\
    forall q r, In q top_prs -> In r rest ->
                (comment_count r <= comment_count q)%Z.
Proof.
  exact (select_top_prs_is_top_k (scenario_host (fun _ => None) []) 3
           [candidate 10 40; candidate 11 15; candidate 12 15] eq_refl).
Defined.

Section FetchedSelectionFacts.

Lemma keep_results_length {A : Type} (l : list (option A)) :
  length (keep_results l) <= length l.
Proof. induction l as [| [x|] l IH]; cbn; lia. Qed.

Lemma extracted_selection (prs : list PullRequest) :
  extracted (map (fun pr => EvExtract (pr_number pr)) prs) = map pr_number prs.
Proof.
  unfold extracted. induction prs as [| pr prs IH]; cbn; [reflexivity|].
  now f_equal.
Qed.

Lemma returned_prs_fetched_aux :
  forall (h : Host) (k : nat) (prs : list PullRequest),
    fst (get_top_k_prs_by_comments h k) = Some prs ->
    length prs <= k /\
    (forall pr, In pr prs ->
                exists rcs, review_comments pr = Some rcs /\
                            extract_pr_context h (pr_number pr) = Some rcs) /\
    length (extracted (snd (get_top_k_prs_by_comments h k))) <= k /\
    (forall pr, In pr prs ->
                In (pr_number pr)
                   (extracted (snd (get_top_k_prs_by_comments h k)))).
Proof.
  intros h k prs. unfold get_top_k_prs_by_comments.
  destruct (select_top_prs h k) as [top_prs|] eqn:Hsel; [| discriminate].
  cbn [fst snd]. intros [= <-].
  assert (Hk : length top_prs <= k).
  { apply select_top_prs_scanned in Hsel. subst top_prs.
    apply firstn_le_length. }
  assert (Hin : forall pr,
             In pr (keep_results (as_completed (fetch_schedule h)
                      (map (_process_pr (extract_pr_context h)) top_prs))) ->
             exists pr0, In pr0 top_prs /\
                         _process_pr (extract_pr_context h) pr0 = Some pr).
  { intros pr Hpr. apply keep_results_In in Hpr.
    apply (Permutation_in _ (as_completed_perm _ _)) in Hpr.
    apply in_map_iff in Hpr. destruct Hpr as [pr0 [Hp Hin0]]. eauto. }
  split; [| split; [| split]].
  - eapply Nat.le_trans; [apply keep_results_length|].
    rewrite (Permutation_length (as_completed_perm _ _)), length_map. exact Hk.
  - intros pr Hpr. destruct (Hin pr Hpr) as [pr0 [_ Hp]].
    unfold _process_pr in Hp.
    destruct (extract_pr_context h (pr_number pr0)) as [rcs|] eqn:He;
      [| discriminate].
    injection Hp as <-. exists rcs. cbn. auto.
  - unfold extracted. cbn [flat_map app].
    fold (extracted (map (fun pr => EvExtract (pr_number pr)) top_prs)).
    now rewrite extracted_selection, length_map.
  - intros pr Hpr. destruct (Hin pr Hpr) as [pr0 [Hin0 Hp]].
    unfold extracted. cbn [flat_map app].
    fold (extracted (map (fun pr => EvExtract (pr_number pr)) top_prs)).
    rewrite extracted_selection.
    unfold _process_pr in Hp.
    destruct (extract_pr_context h (pr_number pr0)); [| discriminate].
    injection Hp as <-. cbn. now apply in_map.
Qed.

(** X11.  What [get_top_k_prs_by_comments] returns holds at most [k] PRs;
    each carries the review comments its extraction gave, so that the
    worker can read them; a selected PR whose extraction failed is left
    out; and the extractor is invoked once for each selected PR, at most
    [k] times. *)
Theorem get_top_k_returns_fetched_prs :
  forall (h : Host) (k : nat) (prs : list PullRequest),
    fst (get_top_k_prs_by_comments h k) = Some prs ->
    length prs <= k /\
    (forall pr, In pr prs ->
                exists rcs, review_comments pr = Some rcs /\
                            extract_pr_context h (pr_number pr) = Some rcs) /\
    length (extracted (snd (get_top_k_prs_by_comments h k))) <= k /\
    (forall pr, In pr prs ->
                In (pr_number pr)
                   (extracted (snd (get_top_k_prs_by_comments h k)))).
Proof. exact returned_prs_fetched_aux. Qed.

End FetchedSelectionFacts.

Lemma get_top_k_returns_fetched_prs_witness :
  let h := scenario_host (fun n => if (n =? 10)%Z then None else Some []) [] in
  let prs := [mkPR 11 "" 15 (Some []); mkPR 12 "" 15 (Some [])] in
  length prs <= 3 /\
  (forall pr, In pr prs ->
              exists rcs, review_comments pr = Some rcs /\
                          extract_pr_context h (pr_number pr) = Some rcs) /\
  length (extracted (snd (get_top_k_prs_by_comments h 3))) <= 3 /\
  (forall pr, In pr prs ->
              In (pr_number pr) (extracted (snd (get_top_k_prs_by_comments h 3)))).
Proof.
  exact (get_top_k_returns_fetched_prs
           (scenario_host (fun n => if (n =? 10)%Z then None else Some []) []) 3
           [mkPR 11 "" 15 (Some []); mkPR 12 "" 15 (Some [])] eq_refl).
Defined.

(** ** File extensions *)

Section SplitOnChar.

Variable c0 : ascii.

Local Abbreviation sep := (String c0 EmptyString).

Lemma contains_char_cons (c : ascii) (s : string) :
  contains sep (String c s) = Ascii.eqb c0 c || contains sep s.
Proof. cbn. now rewrite andb_true_r. Qed.

Lemma contains_char_app (a b : string) :
  contains sep (a ++ b) = contains sep a || contains sep b.
Proof.
  induction a as [| c a IH].
  - cbn [append]. destruct b; reflexivity.
  - cbn [append]. rewrite !contains_char_cons, IH. apply orb_assoc.
Qed.

Lemma rev_string_app (acc s : string) :
  rev_string acc s = (rev_string "" s ++ acc)%string.
Proof.
  revert acc. induction s as [| c s IH]; intros acc; cbn; [reflexivity|].
  rewrite (IH (String c acc)), (IH (String c "")).
  rewrite CheckpointFileFacts.append_assoc. reflexivity.
Qed.

Lemma contains_char_rev (s : string) :
  contains sep (rev_string "" s) = contains sep s.
Proof.
  induction s as [| c s IH]; [reflexivity|].
  cbn [rev_string]. rewrite rev_string_app, contains_char_app, IH.
  rewrite !contains_char_cons. cbn. rewrite orb_false_r. apply orb_comm.
Qed.

Lemma split_aux_nonempty (k : nat) (acc s : string) :
  split_aux sep k acc s <> [].
Proof.
  revert k acc. induction s as [| c s IH]; intros k acc; cbn; [discriminate|].
  destruct k; [| apply IH].
  destruct (Ascii.eqb c0 c && true); [discriminate | apply IH].
Qed.

Lemma last_cons_nonempty {A : Type} (x d : A) (l : list A) :
  l <> [] -> last (x :: l) d = last l d.
Proof. destruct l; [contradiction | reflexivity]. Qed.

(** The last piece of a split on one character: it holds no separator,
    and what was split ends with it. *)
Lemma split_char_last (s acc : string) :
  contains sep acc = false ->
  let piece := last (split_aux sep 0 acc s) "" in
  contains sep piece = false /\
  (contains sep s = false -> piece = (rev_string "" acc ++ s)%string) /\
  (contains sep s = true ->
   exists stem, (rev_string "" acc ++ s)%string = (stem ++ sep ++ piece)%string).
Proof.
  revert acc. induction s as [| c s IH]; intros acc Hacc.
  - cbn. rewrite CheckpointFileFacts.append_empty_r, contains_char_rev.
    repeat split; auto. discriminate.
  - cbn [split_aux startswith String.length Nat.sub].
    rewrite contains_char_cons.
    destruct (Ascii.eqb c0 c) eqn:Hc.
    + apply Ascii.eqb_eq in Hc. subst c. cbn [andb].
      rewrite last_cons_nonempty by apply split_aux_nonempty.
      destruct (IH "" eq_refl) as (H1 & H2 & H3). cbn [rev_string append] in *.
      split; [exact H1|]. split; [discriminate|]. intros _.
      destruct (contains sep s) eqn:Hs.
      * destruct (H3 eq_refl) as [stem Hstem].
        exists (rev_string "" acc ++ String c0 stem)%string.
        rewrite CheckpointFileFacts.append_assoc. cbn [append].
        now rewrite <- Hstem.
      * rewrite (H2 eq_refl). now exists (rev_string "" acc).
    + cbn [andb orb].
      assert (Hacc' : contains sep (String c acc) = false)
        by (now rewrite contains_char_cons, Hc).
      destruct (IH (String c acc) Hacc') as (H1 & H2 & H3).
      assert (Hrev : (rev_string "" (String c acc) ++ s)%string
                     = (rev_string "" acc ++ String c s)%string).
      { cbn [rev_string]. rewrite rev_string_app.
        now rewrite CheckpointFileFacts.append_assoc. }
      rewrite Hrev in *. auto.
Qed.

End SplitOnChar.

(** X12.  The extension [get_file_extension] returns never contains a
    dot.  A path with a dot ends with a dot followed by the extension (so a
    path ending in a dot has the empty extension); a path without a dot,
    the empty path included, has the empty extension. *)
Theorem get_file_extension_is_suffix :
  forall file_path : string,
    let ext := get_file_extension file_path in
    contains "." ext = false /\
    (contains "." file_path = true ->
     exists stem, file_path = (stem ++ "." ++ ext)%string) /\
    (contains "." file_path = false -> ext = "").
Proof.
  intros file_path ext. subst ext. unfold get_file_extension.
  destruct (contains "." file_path) eqn:Hdot.
  - destruct file_path as [| c s]; [discriminate|].
    cbn [is_empty negb orb].
    destruct (split_char_last "."%char (String c s) "" eq_refl) as (H1 & _ & H3).
    split; [exact H1|]. split; [| discriminate]. intros _.
    exact (H3 Hdot).
  - rewrite orb_true_r. repeat split. discriminate.
Qed.

Example extensions :
  get_file_extension "src/app.test.py" = "py" /\
  get_file_extension ".gitignore" = "gitignore" /\
  get_file_extension "notes." = "" /\
  get_file_extension "Makefile" = "".
Proof. repeat split. Qed.

(** ** Fetching a PR's context *)

Section FetchFacts.

Variable BEDROCK_MODEL_ID : string.
Variable llm_classify : string -> nat -> llm_reply.
Variable MAX_COMMENTS_PER_PR : nat.

Local Abbreviation worker := (_classify_pr_comments BEDROCK_MODEL_ID llm_classify).
Local Abbreviation complete := (complete_worker BEDROCK_MODEL_ID llm_classify).
Local Abbreviation extract := (extract_pr_context_of MAX_COMMENTS_PER_PR).
Local Abbreviation review_comments_of :=
  (get_pr_review_comments MAX_COMMENTS_PER_PR).
Local Abbreviation host_through := (host_of MAX_COMMENTS_PER_PR).

Lemma review_comments_length (response : HttpResponse (list RawComment)) :
  length (review_comments_of response) <= MAX_COMMENTS_PER_PR.
Proof.
  unfold get_pr_review_comments.
  destruct (status_code response =? 200)%Z; cbn; [| lia].
  rewrite length_map. apply firstn_le_length.
Qed.

Lemma review_comments_error (response : HttpResponse (list RawComment)) :
  status_code response <> 200%Z -> review_comments_of response = [].
Proof.
  intros H. unfold get_pr_review_comments.
  destruct (status_code response =? 200)%Z eqn:E; [| reflexivity].
  apply Z.eqb_eq in E. contradiction.
Qed.

(** X13.  When [extract_pr_context] returns a context, it is the context
    of the PR asked for, all three requests were answered, and the context
    holds at most [MAX_COMMENTS_PER_PR] review comments: the first ones of
    the answer, in its order, each with the extension of its path.  An
    answer with a status other than 200 counts as no files, or no review
    comments, not as a failure. *)
Theorem extract_pr_context_bounded :
  forall (api : GitHubApi) (n : Z) (ctx : PRContext),
    extract api n = Some ctx ->
    ctx_pr_number ctx = n /\
    length (ctx_review_comments ctx) <= MAX_COMMENTS_PER_PR /\
    Forall (fun c => file_extension c = get_file_extension (pc_path c))
           (ctx_review_comments ctx) /\
    exists pr files review,
      get_pull_meta api n = Some pr /\
      files_request api n = Some files /\
      comments_request api n = Some review /\
      ctx_title ctx = pm_title pr /\
      (status_code files <> 200%Z -> ctx_files ctx = []) /\
      (status_code review <> 200%Z -> ctx_review_comments ctx = []) /\
      (status_code review = 200%Z ->
       map pc_review_comment (ctx_review_comments ctx)
       = firstn MAX_COMMENTS_PER_PR (map body (json review))).
Proof.
  intros api n ctx. unfold extract_pr_context_of.
  destruct (get_pull_meta api n) as [pr|]; [| discriminate].
  destruct (files_request api n) as [files|]; [| discriminate].
  destruct (comments_request api n) as [review|]; [| discriminate].
  intros [= <-]. cbn [ctx_pr_number ctx_review_comments ctx_title ctx_files].
  split; [reflexivity|]. split; [apply review_comments_length|]. split.
  - unfold get_pr_review_comments.
    destruct (status_code review =? 200)%Z; [| constructor].
    apply Forall_forall. intros c Hc. apply in_map_iff in Hc.
    now destruct Hc as [raw [<- _]].
  - exists pr, files, review. repeat split.
    + intros H. unfold get_pr_files.
      destruct (status_code files =? 200)%Z eqn:E; [| reflexivity].
      apply Z.eqb_eq in E. contradiction.
    + apply review_comments_error.
    + intros H. unfold get_pr_review_comments. rewrite H. cbn [Z.eqb Pos.eqb].
      rewrite map_map. cbn. now rewrite firstn_map.
Qed.

Lemma submitted_length (rcs : list ReviewComment) :
  length (submitted rcs) <= length rcs.
Proof. apply filter_length_le. Qed.

Lemma host_extract_length (api : GitHubApi) (search : option (list Z))
    (schedule : list nat) (n : Z) (rcs : list ReviewComment) :
  extract_pr_context (host_through api search schedule) n = Some rcs ->
  length rcs <= MAX_COMMENTS_PER_PR.
Proof.
  cbn [extract_pr_context host_of]. unfold extract_pr_context_of.
  destruct (get_pull_meta api n); [| discriminate].
  destruct (files_request api n); [| discriminate].
  destruct (comments_request api n) as [review|]; [| discriminate].
  cbn. intros [= <-]. rewrite length_map. apply review_comments_length.
Qed.

Lemma worker_submits (client : BedrockClient) (pr : PullRequest)
    (rcs : list ReviewComment) (n : Z) (num : nat) :
  review_comments pr = Some rcs ->
  In (EvClassify n num) (snd (worker client pr)) ->
  n = pr_number pr /\ num = length (submitted rcs).
Proof.
  intros Hrcs. unfold _classify_pr_comments. rewrite Hrcs.
  pose proof (comments_to_classify_submitted rcs) as Hsub.
  destruct (comments_to_classify rcs) as [| p ps]; [intros []|].
  destruct (classify_comments _ _ _ _) as [client' cls]. cbn [snd].
  intros [[= <- <-] | []]. split; [reflexivity|].
  now rewrite <- Hsub, length_map.
Qed.

(** X14.  For every PR the selector returns from a host that answers
    through the API, no call of the classifier submits more than
    [MAX_COMMENTS_PER_PR] comments, and the PR's analysis has no more
    entries than that. *)
Theorem classifier_prompt_is_bounded :
  forall (api : GitHubApi) (search : option (list Z)) (schedule : list nat)
         (k : nat) (prs : list PullRequest) (pr : PullRequest)
         (client : BedrockClient),
    fst (get_top_k_prs_by_comments (host_through api search schedule) k)
    = Some prs ->
    In pr prs ->
    (forall n num, In (EvClassify n num) (snd (worker client pr)) ->
                   num <= MAX_COMMENTS_PER_PR) /\
    exists a, snd (fst (worker client pr)) = Some a /\
              length (comment_analysis a) <= MAX_COMMENTS_PER_PR.
Proof.
  intros api search schedule k prs pr client Hprs Hin.
  destruct (proj1 (proj2 (returned_prs_fetched_aux _ _ _ Hprs)) pr Hin)
    as [rcs [Hrcs Hext]].
  apply host_extract_length in Hext.
  pose proof (submitted_length rcs) as Hsub.
  split.
  - intros n num Hev.
    destruct (worker_submits client pr rcs n num Hrcs Hev) as [_ ->]. lia.
  - destruct (worker_aligned_aux BEDROCK_MODEL_ID llm_classify client pr rcs Hrcs)
      as [a (Ha & _ & Hfile & _)].
    exists a. split; [exact Ha|].
    rewrite <- (length_map file), Hfile, length_map. lia.
Qed.

End FetchFacts.

Lemma extract_pr_context_bounded_witness :
  exists ctx,
    extract_pr_context_of 2 (api_with_status 200) 21 = Some ctx /\
    ctx_pr_number ctx = 21%Z /\
    length (ctx_review_comments ctx) <= 2.
Proof.
  eexists. split; [reflexivity|].
  pose proof (extract_pr_context_bounded 2 (api_with_status 200) 21 _ eq_refl)
    as (H1 & H2 & _).
  split; [exact H1 | exact H2].
Defined.

Lemma classifier_prompt_is_bounded_witness :
  (forall n num,
      In (EvClassify n num)
         (snd (_classify_pr_comments "claude-3-sonnet" demo_classify new_client
                 fetched_21)) ->
      num <= 2) /\
  exists a,
    snd (fst (_classify_pr_comments "claude-3-sonnet" demo_classify new_client
                fetched_21)) = Some a /\
    length (comment_analysis a) <= 2.
Proof.
  exact (classifier_prompt_is_bounded "claude-3-sonnet" demo_classify 2
           (api_with_status 200) (Some [21%Z]) [] 1 [fetched_21] fetched_21
           new_client eq_refl (or_introl eq_refl)).
Defined.

(** ** A comments request that is refused *)

Section RefusedCommentsFacts.

Variable BEDROCK_MODEL_ID : string.
Variable llm_classify : string -> nat -> llm_reply.
Variable MAX_COMMENTS_PER_PR : nat.

Local Abbreviation complete := (complete_worker BEDROCK_MODEL_ID llm_classify).
Local Abbreviation host_through := (host_of MAX_COMMENTS_PER_PR).

Lemma is_processed_add (l : list Z) (n : Z) :
  is_processed (add_processed l n) n = true.
Proof.
  unfold add_processed. destruct (is_processed l n) eqn:E; [exact E|].
  unfold is_processed. rewrite existsb_app. cbn.
  now rewrite Z.eqb_refl, orb_true_r.
Qed.

(** X15.  When the request for a PR's review comments is answered with a
    status other than 200 (a rate limit, say) while the other requests
    succeed, the PR is fetched with no review comments; once its worker
    completes, the classifier has not been called, no comment has been
    gathered or counted, and the PR is among the processed ones, so that a
    later resume does not fetch it again. *)
Theorem refused_comments_mark_processed :
  forall (api : GitHubApi) (search : option (list Z)) (schedule : list nat)
         (pr_info pr : PullRequest) (review : HttpResponse (list RawComment))
         (w : World) (top_prs : list PullRequest) (st : RunState),
    comments_request api (pr_number pr_info) = Some review ->
    status_code review <> 200%Z ->
    _process_pr (extract_pr_context (host_through api search schedule)) pr_info
    = Some pr ->
    let st' := complete w top_prs st pr in
    review_comments pr = Some [] /\
    is_processed (processed_pr_ids st') (pr_number pr_info) = true /\
    all_comments st' = all_comments st /\
    total_comments_count st' = total_comments_count st /\
    classified (trace st') = classified (trace st) /\
    client st' = client st.
Proof.
  intros api search schedule pr_info pr review w top_prs st Hreq Hstatus Hproc.
  assert (Hpr : pr = mkPR (pr_number pr_info) (title pr_info)
                          (comment_count pr_info) (Some [])).
  { unfold _process_pr in Hproc. cbn [extract_pr_context host_of] in Hproc.
    unfold extract_pr_context_of in Hproc.
    destruct (get_pull_meta api (pr_number pr_info)); [| discriminate].
    destruct (files_request api (pr_number pr_info)); [| discriminate].
    rewrite Hreq in Hproc. cbn in Hproc.
    unfold get_pr_review_comments in Hproc.
    destruct (status_code review =? 200)%Z eqn:E.
    - apply Z.eqb_eq in E. contradiction.
    - cbn in Hproc. now injection Hproc as <-. }
  subst pr. cbv zeta. unfold complete_worker.
  cbn [_classify_pr_comments_shared review_comments comments_to_classify
       filter map pr_number title comment_count].
  cbn [extract_comments comment_analysis an_pr_number all_comments
       code_standards_count total_comments_count processed_pr_ids client
       checkpoint saves trace].
  split; [reflexivity|]. unfold save_checkpoint.
  cbn [all_comments total_comments_count processed_pr_ids client trace saves].
  split; [apply is_processed_add|]. split; [reflexivity|].
  split; [reflexivity|]. split; [| reflexivity].
  rewrite app_nil_r. unfold classified. rewrite flat_map_app.
  destruct (save_result w (saves st)); cbn; now rewrite app_nil_r.
Qed.

End RefusedCommentsFacts.

Lemma refused_comments_mark_processed_witness :
  let pr := mkPR 21 "Fix" 9 (Some []) in
  let st' := complete_worker "claude-3-sonnet" demo_classify quiet_world [pr]
                             (fresh_state quiet_world) pr in
  review_comments pr = Some [] /\
  is_processed (processed_pr_ids st') 21 = true /\
  all_comments st' = [] /\
  total_comments_count st' = 0 /\
  classified (trace st') = [] /\
  client st' = new_client.
Proof.
  exact (refused_comments_mark_processed "claude-3-sonnet" demo_classify 2
           (api_with_status 403) (Some [21%Z]) [] (mkPR 21 "Fix" 9 None)
           (mkPR 21 "Fix" 9 (Some [])) (mkResponse 403 _) quiet_world
           [mkPR 21 "Fix" 9 (Some [])] (fresh_state quiet_world)
           eq_refl ltac:(discriminate) eq_refl).
Defined.

(** ** What a run gathers *)

Section GatheringFacts.

Variable BEDROCK_MODEL_ID : string.
Variable llm_classify : string -> nat -> llm_reply.
Variable LLMTXT_GENERATION_PROMPT : string -> string.
Variable LLMTXT_UPDATE_PROMPT : string -> string -> string.
Variable llm_synthesize : string -> llm_reply.

Local Abbreviation worker := (_classify_pr_comments BEDROCK_MODEL_ID llm_classify).
Local Abbreviation complete := (complete_worker BEDROCK_MODEL_ID llm_classify).
Local Abbreviation analysis := (analyse BEDROCK_MODEL_ID llm_classify).
Local Abbreviation finishing :=
  (finish BEDROCK_MODEL_ID LLMTXT_GENERATION_PROMPT LLMTXT_UPDATE_PROMPT
          llm_synthesize).
Local Abbreviation pipeline :=
  (generate_llmtxt BEDROCK_MODEL_ID llm_classify LLMTXT_GENERATION_PROMPT
                   LLMTXT_UPDATE_PROMPT llm_synthesize).

Lemma same_data_progress (pending : list Z) (st st' : RunState) :
  same_data st st' -> progress pending st st'.
Proof.
  intros (H1 & H2 & H3 & H4). exists []. rewrite H1, H2, H3, H4, app_nil_r.
  cbn. repeat split; auto using incl_refl; lia.
Qed.

Lemma progress_trans (p1 p2 : list Z) (a b c : RunState) :
  progress p1 a b -> progress p2 b c -> progress (p1 ++ p2) a c.
Proof.
  intros (n1 & A1 & A2 & A3 & A4 & A5 & A6 & A7)
         (n2 & B1 & B2 & B3 & B4 & B5 & B6 & B7).
  exists (n1 ++ n2). rewrite B1, A1, B3, A3, length_app, <- app_assoc.
  split; [reflexivity|]. split; [now apply Forall_app|].
  split; [lia|]. split; [lia|].
  split; [eapply incl_tran; eauto|]. split; [| auto].
  intros n Hn. rewrite in_app_iff.
  destruct (B6 n Hn) as [H | H]; [| auto].
  destruct (A6 n H); auto.
Qed.

Lemma progress_weaken (p q : list Z) (a b : RunState) :
  incl p q -> progress p a b -> progress q a b.
Proof.
  intros Hpq (n & A1 & A2 & A3 & A4 & A5 & A6 & A7).
  exists n. repeat split; auto.
  intros m Hm. destruct (A6 m Hm); auto.
Qed.

Lemma save_checkpoint_same_data (w : World) (st : RunState)
    (cp : CheckpointState) (err : string) :
  same_data st (save_checkpoint w st cp err).
Proof. repeat split. Qed.

Lemma remove_checkpoint_same_data (w : World) (st : RunState) :
  same_data st (remove_checkpoint w st).
Proof.
  unfold remove_checkpoint.
  destruct (checkpoint st); try destruct (remove_ok w); repeat split.
Qed.

Lemma same_data_trans (a b c : RunState) :
  same_data a b -> same_data b c -> same_data a c.
Proof.
  intros (A1 & A2 & A3 & A4) (B1 & B2 & B3 & B4).
  repeat split; congruence.
Qed.

Lemma finish_same_data (w : World) (top_prs : list PullRequest)
    (existing_content : string) (existing_file : bool) (st4 : RunState) :
  same_data st4 (final (finishing w top_prs existing_content existing_file st4)).
Proof.
  unfold finish. destruct (synthesis_raises w); [repeat split|].
  destruct (generate_llmtxt_guidelines _ _ _ _ _ _ _) as [[client' content] evs].
  destruct (should_write _ _ _); [destruct (write_ok w)|]; cbn [final].
  - eapply same_data_trans; [| apply remove_checkpoint_same_data]. repeat split.
  - repeat split.
  - eapply same_data_trans; [| apply remove_checkpoint_same_data]. repeat split.
Qed.

(** The loop over the analysis entries of one result. *)
Lemma extract_comments_spec (result : PRAnalysis) (analyses : list CommentAnalysis)
    (comments : list CommentDatum) (cs total : nat) :
  exists new,
    extract_comments result analyses (comments, cs, total)
    = (comments ++ new, cs + length new, total + length analyses) /\
    Forall is_standard new /\ length new <= length analyses.
Proof.
  revert comments cs total.
  induction analyses as [| a analyses IH]; intros comments cs total.
  - exists []. cbn. rewrite app_nil_r, !Nat.add_0_r. repeat split; auto.
  - cbn [extract_comments].
    destruct (String.eqb (classification a) "code_standards") eqn:E.
    + destruct (IH (comments ++ [mkDatum (an_pr_number result) (an_title result)
                                   (file a) (comment a) (classification a)
                                   (if is_empty (inferred_comment a) then None
                                    else Some (inferred_comment a))])
                   (S cs) (S total)) as (new & H1 & H2 & H3).
      eexists (_ :: new). rewrite H1, <- app_assoc. cbn [app length].
      split; [f_equal; [f_equal|]; lia|].
      split; [| lia]. constructor; [| exact H2].
      unfold is_standard. cbn. now apply String.eqb_eq.
    + destruct (IH comments cs (S total)) as (new & H1 & H2 & H3).
      exists new. rewrite H1. cbn [length].
      split; [f_equal; lia|]. split; [exact H2 | lia].
Qed.

Lemma add_processed_incl (l : list Z) (n : Z) : incl l (add_processed l n).
Proof.
  unfold add_processed. destruct (is_processed l n); [apply incl_refl|].
  apply incl_appl, incl_refl.
Qed.

Lemma is_processed_In (l : list Z) (n : Z) : is_processed l n = true <-> In n l.
Proof.
  unfold is_processed. rewrite existsb_exists. split.
  - intros [m [Hm E]]. apply Z.eqb_eq in E. now subst.
  - intros H. exists n. split; [exact H | apply Z.eqb_refl].
Qed.

Lemma add_processed_In (l : list Z) (n m : Z) :
  In m (add_processed l n) -> In m l \/ m = n.
Proof.
  unfold add_processed. destruct (is_processed l n); [auto|].
  intros H. apply in_app_or in H. destruct H as [H | [H | []]]; auto.
Qed.

Lemma add_processed_NoDup (l : list Z) (n : Z) :
  NoDup l -> NoDup (add_processed l n).
Proof.
  intros H. unfold add_processed. destruct (is_processed l n) eqn:E; [exact H|].
  apply NoDup_app; [exact H | repeat constructor; intros [] |].
  intros m Hm [<- | []].
  apply is_processed_In in Hm. congruence.
Qed.

Lemma complete_worker_progress (w : World) (top_prs : list PullRequest)
    (st : RunState) (pr : PullRequest) :
  progress [pr_number pr] st (complete w top_prs st pr).
Proof.
  unfold complete_worker.
  pose proof (shared_worker_number BEDROCK_MODEL_ID llm_classify
                (inference_reads w (pr_number pr)) (client st) pr) as Hnum.
  destruct (_classify_pr_comments_shared _ _ _ (client st) pr)
    as [[client' result] evs].
  cbn [fst snd] in Hnum. destruct result as [result|].
  - assert (Hn : an_pr_number result = pr_number pr) by now apply Hnum.
    cbn [all_comments code_standards_count total_comments_count processed_pr_ids
         client checkpoint saves trace].
    destruct (extract_comments_spec result (comment_analysis result)
                (all_comments st) (code_standards_count st)
                (total_comments_count st)) as (new & H1 & H2 & H3).
    rewrite H1.
    eapply progress_weaken; [| eapply progress_trans;
                                [| apply same_data_progress with (pending := []);
                                   apply save_checkpoint_same_data]].
    { rewrite app_nil_r. apply incl_refl. }
    exists new. cbn. rewrite Hn.
    split; [reflexivity|]. split; [exact H2|]. split; [reflexivity|].
    split; [lia|]. split; [apply add_processed_incl|].
    split; [| apply add_processed_NoDup].
    intros m Hm. apply add_processed_In in Hm. destruct Hm; [auto|].
    right. now left.
  - apply same_data_progress. repeat split.
Qed.

Lemma fold_complete_progress (w : World) (top_prs prs : list PullRequest)
    (st : RunState) :
  progress (map pr_number prs) st (fold_left (complete w top_prs) prs st).
Proof.
  revert st. induction prs as [| pr prs IH]; intros st; cbn [fold_left map].
  - apply same_data_progress. repeat split.
  - change (pr_number pr :: map pr_number prs)
      with ([pr_number pr] ++ map pr_number prs).
    eapply progress_trans; [apply complete_worker_progress | apply IH].
Qed.

Lemma analyse_progress (w : World) (top_prs : list PullRequest) (st1 : RunState) :
  progress (map pr_number (unprocessed top_prs (processed_pr_ids st1)))
           st1 (analysis w top_prs st1).
Proof.
  unfold analyse.
  set (pending := unprocessed top_prs (processed_pr_ids st1)).
  eapply progress_weaken;
    [| eapply progress_trans;
       [eapply progress_trans;
        [apply same_data_progress with (pending := [])
        | apply (fold_complete_progress w top_prs
                   (as_completed (worker_schedule w) pending))]
       | apply same_data_progress with (pending := []);
         apply save_checkpoint_same_data]].
  - rewrite app_nil_r. cbn [app]. intros n Hn.
    apply in_map_iff in Hn. destruct Hn as [pr [<- Hpr]]. apply in_map.
    eapply Permutation_in; [apply as_completed_perm | exact Hpr].
  - repeat split.
Qed.


Lemma before_analysis_same_data (w : World) (limit : nat) (resume : bool) :
  same_data (fst (initial_state w resume)) (fst (before_analysis w limit resume)).
Proof.
  unfold before_analysis. destruct (makedirs_ok w) eqn:M.
  - destruct (initial_state w resume) as [st0 loaded]. unfold discover.
    destruct loaded; [destruct (get_top_k_prs_by_comments _ _)|]; repeat split.
  - unfold makedirs_ok in M. unfold initial_state.
    destruct (checkpoint_file w); try discriminate.
    destruct resume; repeat split.
Qed.

Lemma unprocessed_incl (top_prs : list PullRequest) (processed : list Z) :
  incl (unprocessed top_prs processed) top_prs.
Proof. intros pr H. apply filter_In in H. tauto. Qed.

Lemma pipeline_progress (w : World) (limit : nat) (resume : bool) :
  progress (map pr_number (snd (before_analysis w limit resume)))
           (fst (initial_state w resume))
           (final (pipeline w limit resume)).
Proof.
  unfold generate_llmtxt.
  pose proof (before_analysis_same_data w limit resume) as H0.
  destruct (before_analysis w limit resume) as [st1 top_prs].
  cbn [fst snd] in *. destruct top_prs as [| pr prs].
  - cbn [final]. now apply same_data_progress.
  - set (top_prs := pr :: prs).
    eapply progress_weaken;
      [| eapply progress_trans;
         [eapply progress_trans;
          [apply same_data_progress with (pending := []); exact H0
          | apply (analyse_progress w top_prs st1)]
         | apply same_data_progress with (pending := []);
           apply finish_same_data]].
    rewrite app_nil_r. cbn [app]. intros n Hn.
    apply in_map_iff in Hn. destruct Hn as [p [<- Hp]]. apply in_map.
    now apply unprocessed_incl in Hp.
Qed.

(** X16.  Whatever the host, the model and the file system do, a run only
    appends to the comments it starts from (none, or those of the restored
    checkpoint): every comment it adds is classified [code_standards],
    [code_standards_count] grows by exactly the number of added comments
    and [total_comments_count] by at least as much. *)
Theorem run_gathers_code_standards :
  forall (w : World) (limit : nat) (resume : bool),
    let st0 := fst (initial_state w resume) in
    let st := final (pipeline w limit resume) in
    exists new,
      all_comments st = all_comments st0 ++ new /\
      Forall is_standard new /\
      code_standards_count st = code_standards_count st0 + length new /\
      total_comments_count st0 + length new <= total_comments_count st.
Proof.
  intros w limit resume st0 st.
  destruct (pipeline_progress w limit resume) as (new & H1 & H2 & H3 & H4 & _).
  exists new. auto.
Qed.

(** X17.  In a run that does not resume, the counter of [code_standards]
    comments is the number of gathered comments, all of which carry that
    classification, and it never exceeds the counter of all comments. *)
Theorem fresh_run_counters_agree :
  forall (w : World) (limit : nat),
    let st := final (pipeline w limit false) in
    code_standards_count st = length (all_comments st) /\
    Forall is_standard (all_comments st) /\
    code_standards_count st <= total_comments_count st.
Proof.
  intros w limit st.
  destruct (pipeline_progress w limit false) as (new & H1 & H2 & H3 & H4 & _).
  fold st in H1, H3, H4. cbn in H1, H3, H4. rewrite H1, H3.
  repeat split; [exact H2 | lia].
Qed.

(** X18.  The PRs marked processed at the end of a run are those that
    were marked at its start together with PRs of the list under analysis:
    no mark is dropped, and no PR outside that list is ever marked. *)
Theorem processed_prs_are_selected :
  forall (w : World) (limit : nat) (resume : bool) (n : Z),
    let st0 := fst (initial_state w resume) in
    let top_prs := snd (before_analysis w limit resume) in
    let st := final (pipeline w limit resume) in
    (In n (processed_pr_ids st0) -> In n (processed_pr_ids st)) /\
    (In n (processed_pr_ids st) ->
     In n (processed_pr_ids st0) \/ In n (map pr_number top_prs)).
Proof.
  intros w limit resume n st0 top_prs st.
  destruct (pipeline_progress w limit resume)
    as (new & _ & _ & _ & _ & H5 & H6 & _).
  split; [apply H5 | apply H6].
Qed.

(** *** Every fetched PR gets processed *)

Lemma complete_worker_marks (w : World) (top_prs : list PullRequest)
    (st : RunState) (pr : PullRequest) :
  review_comments pr <> None ->
  in_range (inference_reads w (pr_number pr)) ->
  In (pr_number pr) (processed_pr_ids (complete w top_prs st pr)).
Proof.
  intros Hrc Hreads.
  destruct (review_comments pr) as [rcs|] eqn:Hrcs; [| contradiction].
  destruct (worker_aligned_aux BEDROCK_MODEL_ID llm_classify (client st) pr rcs Hrcs)
    as (a & Ha & _).
  destruct (shared_worker_spec BEDROCK_MODEL_ID llm_classify
              (inference_reads w (pr_number pr)) (client st) pr)
    as (_ & _ & _ & _ & Hret).
  pose proof (shared_worker_number BEDROCK_MODEL_ID llm_classify
                (inference_reads w (pr_number pr)) (client st) pr) as Hnum.
  assert (Hsome : snd (fst (_classify_pr_comments_shared BEDROCK_MODEL_ID
                              llm_classify (inference_reads w (pr_number pr))
                              (client st) pr)) <> None)
    by (apply Hret; [exact Hreads | now rewrite Ha]).
  unfold complete_worker.
  destruct (_classify_pr_comments_shared _ _ _ (client st) pr)
    as [[client' result] evs].
  cbn [fst snd] in Hsome, Hnum.
  destruct result as [result|]; [| contradiction].
  destruct (extract_comments _ _ _) as [[comments cs] total].
  cbn [save_checkpoint processed_pr_ids]. rewrite (Hnum result eq_refl).
  apply is_processed_In, is_processed_add.
Qed.

Lemma fold_complete_marks (w : World) (top_prs prs : list PullRequest)
    (st : RunState) (pr : PullRequest) :
  In pr prs -> review_comments pr <> None ->
  in_range (inference_reads w (pr_number pr)) ->
  In (pr_number pr) (processed_pr_ids (fold_left (complete w top_prs) prs st)).
Proof.
  revert st.
  induction prs as [| p prs IH]; intros st Hin Hrc Hreads; [destruct Hin|].
  destruct Hin as [-> | Hin]; cbn [fold_left]; [| now apply IH].
  destruct (fold_complete_progress w top_prs prs (complete w top_prs st pr))
    as (new & _ & _ & _ & _ & H5 & _).
  apply H5. now apply complete_worker_marks.
Qed.

Lemma analyse_marks (w : World) (top_prs : list PullRequest) (st1 : RunState)
    (pr : PullRequest) :
  In pr top_prs -> review_comments pr <> None ->
  in_range (inference_reads w (pr_number pr)) ->
  In (pr_number pr) (processed_pr_ids (analysis w top_prs st1)).
Proof.
  intros Hin Hrc Hreads. unfold analyse. cbn [save_checkpoint processed_pr_ids].
  destruct (is_processed (processed_pr_ids st1) (pr_number pr)) eqn:E.
  - apply is_processed_In in E.
    destruct (fold_complete_progress w top_prs
                (as_completed (worker_schedule w)
                   (unprocessed top_prs (processed_pr_ids st1)))
                (with_trace st1
                   (map (fun pr => EvWorker (pr_number pr))
                        (unprocessed top_prs (processed_pr_ids st1)))))
      as (new & _ & _ & _ & _ & H5 & _).
    apply H5. exact E.
  - apply fold_complete_marks; [| exact Hrc | exact Hreads].
    eapply Permutation_in; [apply Permutation_sym, as_completed_perm|].
    apply filter_In. split; [exact Hin|]. now rewrite E.
Qed.

Lemma pipeline_marks_aux :
  forall (w : World) (limit : nat) (resume : bool) (pr : PullRequest),
    In pr (snd (before_analysis w limit resume)) ->
    review_comments pr <> None ->
    in_range (inference_reads w (pr_number pr)) ->
    In (pr_number pr) (processed_pr_ids (final (pipeline w limit resume))).
Proof.
  intros w limit resume pr Hin Hrc Hreads. unfold generate_llmtxt.
  destruct (before_analysis w limit resume) as [st1 top_prs].
  cbn [snd] in Hin. destruct top_prs as [| p prs]; [destruct Hin|].
  destruct (finish_same_data w (p :: prs) (existing_content_of w)
              (negb (is_empty (strip (existing_content_of w))))
              (analysis w (p :: prs) st1)) as (_ & _ & _ & ->).
  now apply analyse_marks.
Qed.

(** X19.  The workers share the client's [inferences].  A PR of the list
    under analysis that carries its review comments is marked processed by
    the end of the run provided the reads of its worker stay in range (no
    other worker's call leaves a shorter list between its length test and
    its subscript): then it is marked whatever the model replies, in
    whatever order the workers complete and whether or not the checkpoint
    saves succeed. *)
Theorem fetched_prs_get_processed :
  forall (w : World) (limit : nat) (resume : bool) (pr : PullRequest),
    In pr (snd (before_analysis w limit resume)) ->
    review_comments pr <> None ->
    in_range (inference_reads w (pr_number pr)) ->
    In (pr_number pr) (processed_pr_ids (final (pipeline w limit resume))).
Proof. exact pipeline_marks_aux. Qed.

(** *** The checkpoint at the end of a run *)

(** X20.  A run that returns [True] leaves no checkpoint behind, provided
    the file can be removed: neither the one it was resumed from nor any
    it saved on the way. *)
Theorem success_removes_checkpoint :
  forall (w : World) (limit : nat) (resume : bool),
    ret (pipeline w limit resume) = true ->
    remove_ok w = true ->
    checkpoint (final (pipeline w limit resume)) = Absent.
Proof.
  intros w limit resume Hret Hrm. unfold generate_llmtxt in *.
  destruct (before_analysis w limit resume) as [st1 top_prs].
  destruct top_prs as [| p prs]; [discriminate|].
  unfold finish in *. destruct (synthesis_raises w); [discriminate|].
  destruct (generate_llmtxt_guidelines _ _ _ _ _ _ _) as [[client' content] evs].
  destruct (should_write _ _ _); [destruct (write_ok w); [| discriminate]|];
    cbn [final]; unfold remove_checkpoint; rewrite Hrm;
    match goal with
    | |- checkpoint (match checkpoint ?s with _ => _ end) = _ =>
        destruct (checkpoint s) eqn:E; cbn [checkpoint]; auto
    end.
Qed.

Lemma failed_run_checkpoint_aux :
  forall (w : World) (limit : nat) (resume : bool),
    snd (before_analysis w limit resume) <> [] ->
    (forall n, save_result w n = Saved) ->
    ret (pipeline w limit resume) = false ->
    checkpoint (final (pipeline w limit resume))
    = Stored (snapshot (final (pipeline w limit resume))
                       (snd (before_analysis w limit resume))
                       (Some (if synthesis_raises w
                              then "pr_analysis_complete"
                              else "llm_extraction_complete"))).
Proof.
  intros w limit resume Htop Hsave Hret. unfold generate_llmtxt in *.
  destruct (before_analysis w limit resume) as [st1 top_prs].
  cbn [snd] in *. destruct top_prs as [| p prs]; [contradiction|].
  unfold finish in *. destruct (synthesis_raises w).
  - cbn [final]. unfold analyse, save_checkpoint, with_trace, snapshot.
    cbn [checkpoint all_comments code_standards_count total_comments_count
         processed_pr_ids]. now rewrite Hsave.
  - destruct (generate_llmtxt_guidelines _ _ _ _ _ _ _) as [[client' content] evs].
    destruct (should_write _ _ _); [destruct (write_ok w)|]; try discriminate.
    cbn [final]. unfold save_checkpoint, snapshot.
    cbn [checkpoint all_comments code_standards_count total_comments_count
         processed_pr_ids]. now rewrite Hsave.
Qed.

(** X21.  When a run over a non-empty list of PRs returns [False] and its
    checkpoint saves succeed, the checkpoint file holds exactly what the run
    had gathered: its comments, its counters, the list of PRs and the
    processed PRs, with the stage [pr_analysis_complete] when the
    synthesizer raised and [llm_extraction_complete] when the guideline
    file could not be written. *)
Theorem failed_run_leaves_checkpoint :
  forall (w : World) (limit : nat) (resume : bool),
    snd (before_analysis w limit resume) <> [] ->
    (forall n, save_result w n = Saved) ->
    ret (pipeline w limit resume) = false ->
    checkpoint (final (pipeline w limit resume))
    = Stored (snapshot (final (pipeline w limit resume))
                       (snd (before_analysis w limit resume))
                       (Some (if synthesis_raises w
                              then "pr_analysis_complete"
                              else "llm_extraction_complete"))).
Proof. exact failed_run_checkpoint_aux. Qed.

(** *** Resuming when every PR is processed *)

Lemma as_completed_nil {A : Type} (schedule : list nat) :
  as_completed schedule (@nil A) = [].
Proof. now destruct schedule. Qed.

Lemma unprocessed_nil (top_prs : list PullRequest) (processed : list Z) :
  (forall pr, In pr top_prs -> In (pr_number pr) processed) ->
  unprocessed top_prs processed = [].
Proof.
  intros H. unfold unprocessed. induction top_prs as [| p prs IH]; [reflexivity|].
  cbn [filter]. replace (is_processed processed (pr_number p)) with true.
  - cbn [negb]. apply IH. intros pr Hpr. apply H. now right.
  - symmetry. apply is_processed_In, H. now left.
Qed.

Lemma analyse_nothing_pending (w : World) (top_prs : list PullRequest)
    (st1 : RunState) :
  unprocessed top_prs (processed_pr_ids st1) = [] ->
  same_data st1 (analysis w top_prs st1).
Proof.
  intros H. unfold analyse. rewrite H, as_completed_nil. repeat split.
Qed.

Lemma resume_complete_aux :
  forall (w : World) (limit : nat) (cp : CheckpointState),
    checkpoint_file w = Stored cp ->
    cp_top_prs cp <> [] ->
    (forall pr, In pr (cp_top_prs cp) ->
                In (pr_number pr) (cp_processed_pr_ids cp)) ->
    let out := pipeline w limit true in
    dispatched (trace (final out)) = [] /\
    classified (trace (final out)) = [] /\
    extracted (trace (final out)) = [] /\
    all_comments (final out) = cp_all_comments cp /\
    code_standards_count (final out) = cp_code_standards_count cp /\
    total_comments_count (final out) = cp_total_comments_count cp /\
    (synthesis_raises w = false -> write_ok w = true -> ret out = true).
Proof.
  intros w limit cp Hcp Htop Hall out. subst out.
  unfold generate_llmtxt, before_analysis.
  replace (makedirs_ok w) with true by (unfold makedirs_ok; now rewrite Hcp).
  unfold initial_state. rewrite Hcp. unfold discover.
  destruct (cp_top_prs cp) as [| p prs] eqn:Et; [contradiction|].
  set (st0 := mkRun _ _ _ _ _ _ _ _).
  assert (Hun : unprocessed (p :: prs) (processed_pr_ids st0) = [])
    by now apply unprocessed_nil.
  destruct (analyse_finish_trace BEDROCK_MODEL_ID llm_classify
              LLMTXT_GENERATION_PROMPT LLMTXT_UPDATE_PROMPT llm_synthesize
              w (p :: prs) (existing_content_of w)
              (negb (is_empty (strip (existing_content_of w)))) st0)
    as [comp [clos [Ht [Fcomp Fclos]]]].
  rewrite Hun in Ht, Fcomp. cbn [map app trace st0] in Ht, Fcomp.
  pose proof (same_data_trans _ _ _
                (analyse_nothing_pending w (p :: prs) st0 Hun)
                (finish_same_data w (p :: prs) (existing_content_of w)
                   (negb (is_empty (strip (existing_content_of w))))
                   (analysis w (p :: prs) st0))) as (D1 & D2 & D3 & _).
  rewrite Ht, D1, D2, D3.
  split; [| split; [| split; [| repeat split]]].
  - rewrite dispatched_app.
    rewrite (dispatched_none _ comp (fun n H => H) Fcomp).
    now rewrite (dispatched_none _ clos (fun n H => H) Fclos).
  - rewrite classified_app.
    rewrite (incl_l_nil (classified_completion _ _ Fcomp)).
    now rewrite (classified_none _ clos (fun n k H => H) Fclos).
  - rewrite extracted_app.
    rewrite (extracted_none _ comp (fun n H => H) Fcomp).
    now rewrite (extracted_none _ clos (fun n H => H) Fclos).
  - intros Hsyn Hwr. unfold finish. rewrite Hsyn.
    destruct (generate_llmtxt_guidelines _ _ _ _ _ _ _) as [[client' content] evs].
    destruct (should_write _ _ _); [rewrite Hwr|]; reflexivity.
Qed.

(** X22.  A run resumed from a checkpoint that marks every PR of its list
    as processed goes straight to synthesis: it submits no worker, calls the
    classifier for no PR and fetches nothing, it works on the restored
    comments and counters, and it returns [True] as soon as the synthesizer
    does not raise and the guideline file can be written. *)
Theorem resume_of_complete_analysis :
  forall (w : World) (limit : nat) (cp : CheckpointState),
    checkpoint_file w = Stored cp ->
    cp_top_prs cp <> [] ->
    (forall pr, In pr (cp_top_prs cp) ->
                In (pr_number pr) (cp_processed_pr_ids cp)) ->
    let out := pipeline w limit true in
    dispatched (trace (final out)) = [] /\
    classified (trace (final out)) = [] /\
    extracted (trace (final out)) = [] /\
    all_comments (final out) = cp_all_comments cp /\
    code_standards_count (final out) = cp_code_standards_count cp /\
    total_comments_count (final out) = cp_total_comments_count cp /\
    (synthesis_raises w = false -> write_ok w = true -> ret out = true).
Proof. exact resume_complete_aux. Qed.

(** X23.  Two runs in a row.  Let a run over PRs that all carry their
    review comments, and whose workers' reads of the shared [inferences]
    all stay in range, return [False] although its checkpoint saves
    succeed.  A later run with [resume] that finds the checkpoint it left
    repeats none of the analysis: no worker, no call of the classifier, no
    fetch; it synthesizes from the comments and counters of the failed
    run. *)
Theorem resume_after_failure_repeats_nothing :
  forall (w : World) (limit : nat) (resume : bool) (w' : World) (limit' : nat),
    snd (before_analysis w limit resume) <> [] ->
    Forall (fun pr => review_comments pr <> None /\
                      in_range (inference_reads w (pr_number pr)))
           (snd (before_analysis w limit resume)) ->
    (forall n, save_result w n = Saved) ->
    ret (pipeline w limit resume) = false ->
    checkpoint_file w' = checkpoint (final (pipeline w limit resume)) ->
    let out := pipeline w limit resume in
    let out' := pipeline w' limit' true in
    dispatched (trace (final out')) = [] /\
    classified (trace (final out')) = [] /\
    extracted (trace (final out')) = [] /\
    all_comments (final out') = all_comments (final out) /\
    code_standards_count (final out') = code_standards_count (final out) /\
    total_comments_count (final out') = total_comments_count (final out).
Proof.
  intros w limit resume w' limit' Htop Hfetched Hsave Hret Hfile out out'.
  rewrite (failed_run_checkpoint_aux w limit resume Htop Hsave Hret) in Hfile.
  destruct (resume_complete_aux w' limit' _ Hfile) as (H1 & H2 & H3 & H4 & H5 & H6 & _).
  - exact Htop.
  - cbn [snapshot cp_top_prs cp_processed_pr_ids]. intros pr Hpr.
    rewrite Forall_forall in Hfetched.
    apply pipeline_marks_aux; [exact Hpr | |]; now apply Hfetched.
  - repeat split; assumption.
Qed.

(** *** A run that finds no PR *)

Lemma initial_state_store (w : World) (resume : bool) :
  checkpoint (fst (initial_state w resume)) = checkpoint_file w /\
  saves (fst (initial_state w resume)) = 0 /\
  classified (trace (fst (initial_state w resume))) = [].
Proof.
  unfold initial_state.
  destruct resume; [destruct (checkpoint_file w) eqn:E|]; cbn; rewrite ?E; auto.
Qed.

(** X24.  When nothing is restored and the selector finds no PR (the
    search fails or matches nothing), the run returns [False] having
    called no model, saved no checkpoint and written nothing: the guideline
    file and the checkpoint file are as they were. *)
Theorem nothing_found_changes_nothing :
  forall (w : World) (limit : nat) (resume : bool),
    finds_nothing w limit resume ->
    let out := pipeline w limit resume in
    ret out = false /\
    final_output out = output_file w /\
    checkpoint (final out) = checkpoint_file w /\
    saves (final out) = 0 /\
    classified (trace (final out)) = [] /\
    written (trace (final out)) = [] /\
    client (final out) = new_client.
Proof.
  intros w limit resume [Hloaded Hfound] out. subst out.
  pose proof (before_analysis_no_write w limit resume) as Hw.
  unfold generate_llmtxt. unfold before_analysis in *.
  destruct (makedirs_ok w); [| repeat split].
  destruct (initial_state_store w resume) as (I1 & I2 & I3).
  assert (I4 : client (fst (initial_state w resume)) = new_client).
  { unfold initial_state.
    destruct resume; [destruct (checkpoint_file w)|]; reflexivity. }
  destruct (initial_state w resume) as [st0 loaded]. cbn [fst snd] in *.
  subst loaded. unfold discover in *.
  pose proof (get_top_k_events (host w) limit) as Hev.
  destruct (get_top_k_prs_by_comments (host w) limit) as [found evs].
  cbn [fst snd] in *.
  assert (Hc : classified (trace (with_trace st0 evs)) = []).
  { unfold with_trace. cbn [trace]. rewrite classified_app, I3.
    eapply classified_none; [| exact Hev]. intros n k H. exact H. }
  destruct Hfound as [-> | ->]; cbn [final ret final_output];
    repeat split; assumption.
Qed.

End GatheringFacts.

Lemma fetched_prs_get_processed_witness :
  In 4%Z (processed_pr_ids (final (demo_run (world_with two_of_five no_host)
                                            5 true))).
Proof.
  apply (fetched_prs_get_processed "claude-3-sonnet" demo_classify
           demo_generation demo_update demo_synthesize
           (world_with two_of_five no_host) 5 true (fetched 4 20)).
  - vm_compute. tauto.
  - discriminate.
  - intros own idx H. exact H.
Defined.

(** The other case: the worker of PR 4 is disturbed, its subscript raises,
    and PR 4 is the one PR left unmarked; the run returns [True] without
    its comment. *)
Example disturbed_worker_leaves_pr_unmarked :
  let out := demo_run (world_disturbing 4 two_of_five no_host) 5 true in
  ret out = true /\
  classified (trace (final out)) = [3; 4; 5]%Z /\
  processed_pr_ids (final out) = [1; 2; 3; 5]%Z /\
  total_comments_count (final out) = 4.
Proof. vm_compute. repeat split. Qed.

Lemma success_removes_checkpoint_witness :
  checkpoint (final (demo_run (world_with two_of_five no_host) 5 true)) = Absent.
Proof.
  apply (success_removes_checkpoint "claude-3-sonnet" demo_classify
           demo_generation demo_update demo_synthesize
           (world_with two_of_five no_host) 5 true); reflexivity.
Defined.

Lemma failed_run_leaves_checkpoint_witness :
  checkpoint (final (demo_run failing_world 5 true))
  = Stored (snapshot (final (demo_run failing_world 5 true))
                     (cp_top_prs two_of_five) (Some "pr_analysis_complete")).
Proof.
  apply (failed_run_leaves_checkpoint "claude-3-sonnet" demo_classify
           demo_generation demo_update demo_synthesize failing_world 5 true).
  - discriminate.
  - reflexivity.
  - reflexivity.
Defined.

Lemma resume_of_complete_analysis_witness :
  let out := demo_run (world_with all_done no_host) 5 true in
  dispatched (trace (final out)) = [] /\
  classified (trace (final out)) = [] /\
  extracted (trace (final out)) = [] /\
  all_comments (final out) = [] /\
  code_standards_count (final out) = 0 /\
  total_comments_count (final out) = 2 /\
  (synthesis_raises (world_with all_done no_host) = false ->
   write_ok (world_with all_done no_host) = true -> ret out = true).
Proof.
  apply (resume_of_complete_analysis "claude-3-sonnet" demo_classify
           demo_generation demo_update demo_synthesize
           (world_with all_done no_host) 5 all_done).
  - reflexivity.
  - discriminate.
  - intros pr [<- | [<- | []]]; cbn; tauto.
Defined.

Lemma resume_after_failure_repeats_nothing_witness :
  let out := demo_run failing_world 5 true in
  let out' := demo_run (world_after out) 5 true in
  dispatched (trace (final out')) = [] /\
  classified (trace (final out')) = [] /\
  extracted (trace (final out')) = [] /\
  all_comments (final out') = all_comments (final out) /\
  code_standards_count (final out') = code_standards_count (final out) /\
  total_comments_count (final out') = total_comments_count (final out).
Proof.
  apply (resume_after_failure_repeats_nothing "claude-3-sonnet" demo_classify
           demo_generation demo_update demo_synthesize failing_world 5 true
           (world_after (demo_run failing_world 5 true)) 5).
  - discriminate.
  - repeat constructor; try discriminate; intros own idx H; exact H.
  - reflexivity.
  - reflexivity.
  - reflexivity.
Defined.

Lemma nothing_found_changes_nothing_witness :
  let out := demo_run unreachable_world 5 false in
  ret out = false /\
  final_output out = Content "# Guidelines" /\
  checkpoint (final out) = Absent /\
  saves (final out) = 0 /\
  classified (trace (final out)) = [] /\
  written (trace (final out)) = [] /\
  client (final out) = new_client.
Proof.
  apply (nothing_found_changes_nothing "claude-3-sonnet" demo_classify
           demo_generation demo_update demo_synthesize unreachable_world 5 false).
  split; [reflexivity | left; reflexivity].
Defined.

(** ** A synthesis model that fails *)

Section SynthesisErrorFacts.

Variable BEDROCK_MODEL_ID : string.
Variable llm_classify : string -> nat -> llm_reply.
Variable LLMTXT_GENERATION_PROMPT : string -> string.
Variable LLMTXT_UPDATE_PROMPT : string -> string -> string.
Variable llm_synthesize : string -> llm_reply.

Local Abbreviation pipeline :=
  (generate_llmtxt BEDROCK_MODEL_ID llm_classify LLMTXT_GENERATION_PROMPT
                   LLMTXT_UPDATE_PROMPT llm_synthesize).

Lemma existing_file_content (w : World) (content : string) :
  should_write (negb (is_empty (strip (existing_content_of w))))
               (existing_content_of w) content = false ->
  existing_content_of w = content.
Proof.
  unfold should_write.
  destruct (is_empty (strip (existing_content_of w))); [discriminate|].
  cbn [negb]. intros H. now apply negb_false_iff, String.eqb_eq in H.
Qed.

(** X25.  The synthesizer turns an exception of its model call into its
    return value.  So when the call of the synthesis model fails with
    message [msg] in a run that found PRs, the run still returns [True],
    and the text ["Error generating coding guidelines: " ++ msg] is
    written to the guideline file (in text mode), replacing whatever
    guidelines it held, unless the file, read in text mode, is that text
    already; nothing is charged to the ledger for the call. *)
Theorem synthesis_error_becomes_guidelines :
  forall (w : World) (limit : nat) (resume : bool) (msg : string),
    snd (before_analysis w limit resume) <> [] ->
    (forall prompt, llm_synthesize prompt = TransportError msg) ->
    synthesis_raises w = false ->
    write_ok w = true ->
    let out := pipeline w limit resume in
    let content := ("Error generating coding guidelines: " ++ msg)%string in
    ret out = true /\
    (final_output out = Content (text_mode_write (os_linesep w) content) \/
     final_output out = output_file w /\ existing_content_of w = content) /\
    client (final out)
    = client (analyse BEDROCK_MODEL_ID llm_classify w
                      (snd (before_analysis w limit resume))
                      (fst (before_analysis w limit resume))).
Proof.
  intros w limit resume msg Htop Hllm Hsyn Hwr out content. subst out content.
  unfold generate_llmtxt.
  destruct (before_analysis w limit resume) as [st1 top_prs].
  cbn [fst snd] in *. destruct top_prs as [| p prs]; [contradiction|].
  unfold finish. rewrite Hsyn. unfold generate_llmtxt_guidelines.
  rewrite Hllm. cbn [tracked_invoke_model guidelines_of_reply].
  destruct (should_write _ _ _) eqn:E; [rewrite Hwr|]; cbn [ret final_output final].
  - split; [reflexivity|]. split; [now left|].
    unfold remove_checkpoint.
    destruct (checkpoint _); [| destruct (remove_ok w) | destruct (remove_ok w)];
      reflexivity.
  - split; [reflexivity|].
    split; [right; split; [reflexivity | now apply existing_file_content]|].
    unfold remove_checkpoint.
    destruct (checkpoint _); [| destruct (remove_ok w) | destruct (remove_ok w)];
      reflexivity.
Qed.

End SynthesisErrorFacts.

Lemma synthesis_error_becomes_guidelines_witness :
  let out := generate_llmtxt "claude-3-sonnet" demo_classify demo_generation
               demo_update (unreachable_synthesizer "timed out")
               (world_with_output two_of_five "# Guidelines") 5 true in
  ret out = true /\
  (final_output out = Content "Error generating coding guidelines: timed out" \/
   final_output out = Content "# Guidelines" /\
   "# Guidelines" = "Error generating coding guidelines: timed out") /\
  client (final out)
  = client (analyse "claude-3-sonnet" demo_classify
              (world_with_output two_of_five "# Guidelines")
              (cp_top_prs two_of_five) (restored two_of_five)).
Proof.
  apply (synthesis_error_becomes_guidelines "claude-3-sonnet" demo_classify
           demo_generation demo_update (unreachable_synthesizer "timed out")
           (world_with_output two_of_five "# Guidelines") 5 true "timed out").
  - discriminate.
  - reflexivity.
  - reflexivity.
  - reflexivity.
Defined.

(** ** Grouping the comments by file *)

Section GroupingFacts.

Local Abbreviation groups := (list (string * list (string * string))).

Lemma add_to_file_keys (f : string) (e : string * string) (acc : groups) (x : string) :
  In x (map fst (add_to_file f e acc)) <-> x = f \/ In x (map fst acc).
Proof.
  induction acc as [| [f' entries] acc IH]; cbn [add_to_file map fst In].
  - intuition.
  - destruct (String.eqb f f') eqn:E; cbn [map fst In].
    + apply String.eqb_eq in E. subst. intuition.
    + rewrite IH. intuition.
Qed.

Lemma add_to_file_NoDup (f : string) (e : string * string) (acc : groups) :
  NoDup (map fst acc) -> NoDup (map fst (add_to_file f e acc)).
Proof.
  induction acc as [| [f' entries] acc IH]; cbn [add_to_file map fst]; intros H.
  - repeat constructor. intros [].
  - inversion H as [| ? ? Hnotin Hnd]; subst.
    destruct (String.eqb f f') eqn:E; cbn [map fst]; [exact H|].
    constructor; [| now apply IH].
    rewrite add_to_file_keys. intros [-> | Hin]; [| contradiction].
    now rewrite String.eqb_refl in E.
Qed.

Lemma add_to_file_entries (f : string) (e : string * string) (acc : groups)
    (f' : string) :
  file_entries f' (add_to_file f e acc)
  = file_entries f' acc ++ (if String.eqb f f' then [e] else []).
Proof.
  unfold file_entries.
  induction acc as [| [g entries] acc IH]; cbn [add_to_file find fst snd].
  - destruct (String.eqb f f'); reflexivity.
  - destruct (String.eqb f g) eqn:E; cbn [find fst snd].
    + apply String.eqb_eq in E. subst g.
      destruct (String.eqb f f'); [reflexivity | now rewrite app_nil_r].
    + destruct (String.eqb g f') eqn:E'; [| exact IH].
      apply String.eqb_eq in E'. subst g. rewrite E. now rewrite app_nil_r.
Qed.

Lemma add_to_file_nonempty (f : string) (e : string * string) (acc : groups) :
  Forall (fun g => snd g <> []) acc ->
  Forall (fun g => snd g <> []) (add_to_file f e acc).
Proof.
  induction 1 as [| [f' entries] acc Hg Hacc IH]; cbn [add_to_file].
  - repeat constructor. discriminate.
  - destruct (String.eqb f f'); constructor; auto.
    cbn. now destruct entries.
Qed.

Lemma entries_of_snoc (f : string) (cs : list CommentDatum) (d : CommentDatum) :
  entries_of f (cs ++ [d])
  = entries_of f cs
    ++ (if String.eqb (cd_file d) f then [(cd_comment d, inferred_of d)] else []).
Proof.
  unfold entries_of. rewrite filter_app, map_app. cbn [filter].
  now destruct (String.eqb (cd_file d) f).
Qed.

(** X26.  [file_comments] partitions the comments by file: its keys are
    the files that occur, each once; under each file stand that file's
    comments, all of them and in their order of arrival, each with its
    inferred standard; no file has an empty list. *)
Theorem group_by_file_partitions :
  forall (all_comments : list CommentDatum),
    NoDup (map fst (group_by_file all_comments)) /\
    (forall f, In f (map fst (group_by_file all_comments))
               <-> In f (map cd_file all_comments)) /\
    (forall f, file_entries f (group_by_file all_comments)
               = entries_of f all_comments) /\
    Forall (fun g => snd g <> []) (group_by_file all_comments).
Proof.
  intros comments. unfold group_by_file.
  induction comments as [| d cs IH] using rev_ind.
  - cbn. split; [constructor|]. split; [tauto|].
    split; [reflexivity | constructor].
  - destruct IH as (H1 & H2 & H3 & H4).
    rewrite fold_left_app. cbn [fold_left].
    split; [now apply add_to_file_NoDup|].
    split; [| split; [| now apply add_to_file_nonempty]].
    + intros f. rewrite add_to_file_keys, H2, map_app, in_app_iff. cbn.
      intuition.
    + intros f. now rewrite add_to_file_entries, H3, entries_of_snoc.
Qed.

End GroupingFacts.

(** ** The table-of-contents pattern *)

Module TocPatternFacts.

Import TocPattern.

Lemma find_heading_eq (s : string) :
  find_heading s
  = if startswith heading s then Some s
    else match s with
         | EmptyString => None
         | String _ s' => find_heading s'
         end.
Proof. now destruct s. Qed.

Lemma lazy_any_eq (s : string) :
  lazy_any s
  = if lookahead s then EmptyString
    else match s with
         | EmptyString => EmptyString
         | String c s' => String c (lazy_any s')
         end.
Proof. now destruct s. Qed.

Lemma startswith_drop (p s : string) :
  startswith p s = true -> s = (p ++ drop (String.length p) s)%string.
Proof.
  revert s. induction p as [| a p IH]; intros [| b s] H; try discriminate;
    try reflexivity.
  cbn in H. apply andb_true_iff in H. destruct H as [Hab Hp].
  apply Ascii.eqb_eq in Hab. subst b. cbn. f_equal. now apply IH.
Qed.

Lemma contains_eq (sub s : string) :
  contains sub s
  = startswith sub s
    || match s with
       | EmptyString => false
       | String _ s' => contains sub s'
       end.
Proof. now destruct s. Qed.

Lemma contains_suffix (sub pre suffix : string) :
  startswith sub suffix = true -> contains sub (pre ++ suffix) = true.
Proof.
  intros H. induction pre as [| c pre IH]; cbn [append]; rewrite contains_eq.
  - now rewrite H.
  - rewrite IH. apply orb_true_r.
Qed.

(** The first occurrence of the heading. *)
Lemma find_heading_spec (s : string) :
  match find_heading s with
  | Some suffix =>
      exists pre, s = (pre ++ suffix)%string /\
                  startswith heading suffix = true /\
                  forall k, k < String.length pre ->
                            startswith heading (drop k s) = false
  | None => contains heading s = false
  end.
Proof.
  induction s as [| c s IH]; [reflexivity|].
  rewrite find_heading_eq.
  destruct (startswith heading (String c s)) eqn:E.
  - exists EmptyString. split; [reflexivity|]. split; [exact E|].
    intros k Hk. cbn in Hk. lia.
  - destruct (find_heading s) as [suffix|].
    + destruct IH as (pre & Hs & Hsuf & Hmin).
      exists (String c pre). split; [cbn; now f_equal|]. split; [exact Hsuf|].
      intros [| k] Hk; [exact E|]. cbn [drop]. apply Hmin. cbn in Hk. lia.
    + rewrite contains_eq, E, IH. reflexivity.
Qed.

(** What [.*?] leaves: the first position where the look-ahead holds. *)
Lemma lazy_any_spec (t : string) :
  exists post, t = (lazy_any t ++ post)%string /\
               lookahead post = true /\
               forall k, k < String.length (lazy_any t) ->
                         lookahead (drop k t) = false.
Proof.
  induction t as [| c t IH].
  - exists EmptyString. repeat split. intros k Hk. cbn in Hk. lia.
  - rewrite lazy_any_eq. destruct (lookahead (String c t)) eqn:E.
    + exists (String c t). repeat split; [exact E|].
      intros k Hk. cbn in Hk. lia.
    + destruct IH as (post & Ht & Hpost & Hmin).
      exists post. split; [cbn [append]; now f_equal|]. split; [exact Hpost|].
      intros [| k] Hk; [exact E|]. cbn [drop]. apply Hmin.
      cbn [String.length] in Hk. lia.
Qed.

(** X27.  [toc_section] is the leftmost, shortest match of the pattern:
    empty when the document does not contain the heading; otherwise the
    text from the first occurrence of the heading up to the first position
    after it where a heading [##], white space and a word character follow,
    or where the document ends (possibly before one last newline). *)
Theorem toc_section_is_leftmost_shortest :
  forall (s : string),
    if contains heading s then
      exists pre body post,
        s = (pre ++ heading ++ body ++ post)%string /\
        toc_section s = (heading ++ body)%string /\
        (forall k, k < String.length pre ->
                   startswith heading (drop k s) = false) /\
        lookahead post = true /\
        (forall k, k < String.length body ->
                   lookahead (drop k (body ++ post)) = false)
    else toc_section s = EmptyString.
Proof.
  intros s. pose proof (find_heading_spec s) as H. unfold toc_section.
  destruct (find_heading s) as [suffix|].
  - destruct H as (pre & Hs & Hsuf & Hmin).
    assert (Hc : contains heading s = true)
      by (rewrite Hs; now apply contains_suffix).
    rewrite Hc.
    destruct (lazy_any_spec (drop (String.length heading) suffix))
      as (post & Ht & Hpost & Hlazy).
    exists pre, (lazy_any (drop (String.length heading) suffix)), post.
    split; [| split; [reflexivity | split; [exact Hmin | split; [exact Hpost|]]]].
    + rewrite <- Ht, <- (startswith_drop _ _ Hsuf). exact Hs.
    + now rewrite <- Ht.
  - now rewrite H.
Qed.

End TocPatternFacts.

(** ** The analysis without checkpoints *)

Section AnalysisFileFacts.

Variable BEDROCK_MODEL_ID : string.
Variable llm_classify : string -> nat -> llm_reply.

Local Abbreviation collect := (collect_analysis BEDROCK_MODEL_ID llm_classify).
Local Abbreviation classify_prs :=
  (classify_pr_comments BEDROCK_MODEL_ID llm_classify).

Lemma collect_analysis_step (reads : Z -> inference_views)
    (st : AnalysisState) (pr : PullRequest) :
  consistent_analysis st ->
  consistent_analysis (collect reads st pr) /\
  as_pr_count (collect reads st pr) <= S (as_pr_count st) /\
  (review_comments pr <> None -> in_range (reads (pr_number pr)) ->
   as_pr_count (collect reads st pr) = S (as_pr_count st)).
Proof.
  intros [Hlen Hcat].
  destruct (shared_worker_spec BEDROCK_MODEL_ID llm_classify
              (reads (pr_number pr)) (as_client st) pr)
    as (_ & _ & Hsame & _ & Hret).
  assert (Hworker : forall a0,
             snd (fst (_classify_pr_comments BEDROCK_MODEL_ID llm_classify
                         (as_client st) pr)) = Some a0 ->
             Forall is_category (map classification (comment_analysis a0))).
  { intros a0 Ha0. destruct (review_comments pr) as [rcs|] eqn:Hrcs.
    - destruct (worker_aligned_aux BEDROCK_MODEL_ID llm_classify (as_client st)
                  pr rcs Hrcs) as (a & Ha & _ & _ & _ & Hc).
      rewrite Ha in Ha0. now injection Ha0 as <-.
    - unfold _classify_pr_comments in Ha0. rewrite Hrcs in Ha0. discriminate. }
  assert (Hsome : review_comments pr <> None ->
                  snd (fst (_classify_pr_comments BEDROCK_MODEL_ID llm_classify
                              (as_client st) pr)) <> None).
  { intros Hrc. destruct (review_comments pr) as [rcs|] eqn:Hrcs;
      [| contradiction].
    destruct (worker_aligned_aux BEDROCK_MODEL_ID llm_classify (as_client st)
                pr rcs Hrcs) as (a & Ha & _).
    now rewrite Ha. }
  unfold collect_analysis.
  destruct (_classify_pr_comments_shared _ _ _ (as_client st) pr)
    as [[client' result] evs].
  cbn [fst snd] in Hsame, Hret. destruct result as [a|].
  - destruct (Hsame a eq_refl) as (a0 & Ha0 & _ & _ & _ & _ & _ & Hcls).
    unfold consistent_analysis.
    cbn [as_pr_count as_total_review_comments as_comments].
    split; [split|].
    + now rewrite length_app, length_map, Hlen.
    + apply Forall_app. split; [exact Hcat|].
      pose proof (Hworker a0 Ha0) as Hc. rewrite <- Hcls in Hc.
      rewrite Forall_map in Hc. rewrite Forall_map. exact Hc.
    + split; [lia | reflexivity].
  - unfold consistent_analysis.
    cbn [as_pr_count as_total_review_comments as_comments].
    split; [split; assumption|]. split; [lia|].
    intros Hrc Hreads. exfalso. now apply (Hret Hreads (Hsome Hrc)).
Qed.

Lemma fold_collect_analysis (reads : Z -> inference_views)
    (prs : list PullRequest) (st : AnalysisState) :
  consistent_analysis st ->
  consistent_analysis (fold_left (collect reads) prs st) /\
  as_pr_count (fold_left (collect reads) prs st) <= as_pr_count st + length prs /\
  ((forall pr, In pr prs -> review_comments pr <> None /\
                            in_range (reads (pr_number pr))) ->
   as_pr_count (fold_left (collect reads) prs st) = as_pr_count st + length prs).
Proof.
  revert st. induction prs as [| pr prs IH]; intros st Hst.
  - cbn. split; [exact Hst|]. split; lia.
  - destruct (collect_analysis_step reads st pr Hst) as (Hc & Hle & Heq).
    cbn [fold_left length].
    destruct (IH (collect reads st pr) Hc) as (Hc' & Hle' & Heq').
    split; [exact Hc'|]. split; [lia|].
    intros Hprs. rewrite Heq'; [| intros p Hp; apply Hprs; now right].
    destruct (Hprs pr (or_introl eq_refl)) as [Hrc Hreads].
    rewrite (Heq Hrc Hreads). lia.
Qed.

(** X28.  [classify_pr_comments] never returns [True]: after the analysis
    file is written its body reads names that are not defined.  Before
    that, it analyses the PRs the selector returns, at most [limit] of
    them: no more PRs than were returned, and every one of them when the
    reads of the workers, which share the client's [inferences], all stay
    in range.  The counter of review comments it writes in the file's
    header is the number of entries that follow, and each entry carries one
    of the three categories.  So the [classify] command of either command
    line (without [--llmtxt]) exits with status 1. *)
Theorem analysis_file_is_consistent :
  forall (owner repo : string) (h : Host) (schedule : list nat)
         (reads : Z -> inference_views) (output_ok : bool) (limit : nat),
    let out := classify_prs owner repo h schedule reads output_ok limit in
    let st := analysis_state out in
    let found := match fst (get_top_k_prs_by_comments h limit) with
                 | Some prs => prs
                 | None => []
                 end in
    analysis_ret out = false /\
    as_pr_count st <= length found /\
    ((forall n, in_range (reads n)) -> as_pr_count st = length found) /\
    as_pr_count st <= limit /\
    consistent_analysis st /\
    (forall token_ok url_ok generated,
        cli_exit_status (Classify false) token_ok url_ok generated
                        (analysis_ret out) = 1 /\
        unified_cli_exit_status (Classify false) token_ok url_ok generated
                                (analysis_ret out) = 1).
Proof.
  intros owner repo h schedule reads output_ok limit out st found.
  assert (Hret : analysis_ret out = false).
  { subst out. unfold classify_pr_comments.
    destruct (get_top_k_prs_by_comments h limit) as [[[| p prs] |] evs];
      try reflexivity.
    now destruct output_ok. }
  split; [exact Hret|].
  assert (Hmain : as_pr_count st <= length found /\
                  ((forall n, in_range (reads n)) ->
                   as_pr_count st = length found) /\
                  consistent_analysis st).
  { subst st out found. unfold classify_pr_comments.
    pose proof (returned_prs_fetched_aux h limit) as Hf.
    destruct (get_top_k_prs_by_comments h limit) as [[[| p prs] |] evs];
      cbn [fst] in *;
      try (cbn; repeat split; auto; constructor).
    destruct (Hf (p :: prs) eq_refl) as (_ & Hfetched & _).
    set (st0 := mkAnalysisState _ _ _ _ _ _).
    destruct (fold_collect_analysis reads (as_completed schedule (p :: prs)) st0)
      as (Hc & Hle & Heq); [split; [reflexivity | constructor]|].
    rewrite (Permutation_length (as_completed_perm schedule (p :: prs)))
      in Hle, Heq.
    assert (Hst : analysis_state
                    (if output_ok
                     then mkAnalysisOutcome false
                            (Some (analysis_text owner repo
                                     (fold_left (collect reads)
                                        (as_completed schedule (p :: prs)) st0)))
                            (fold_left (collect reads)
                               (as_completed schedule (p :: prs)) st0)
                     else mkAnalysisOutcome false None
                            (fold_left (collect reads)
                               (as_completed schedule (p :: prs)) st0))
                  = fold_left (collect reads)
                              (as_completed schedule (p :: prs)) st0)
      by now destruct output_ok.
    rewrite Hst. split; [exact Hle|]. split; [| exact Hc].
    intros Hreads. apply Heq. intros pr Hpr.
    apply (Permutation_in _ (as_completed_perm _ _)) in Hpr.
    destruct (Hfetched pr Hpr) as (rcs & Hrcs & _).
    split; [now rewrite Hrcs | apply Hreads]. }
  destruct Hmain as (Hcount & Heq & Hcons).
  split; [exact Hcount|]. split; [exact Heq|]. split; [| split; [exact Hcons|]].
  - eapply Nat.le_trans; [exact Hcount|]. subst found.
    pose proof (returned_prs_fetched_aux h limit) as Hf.
    destruct (fst (get_top_k_prs_by_comments h limit)) as [prs|]; [| cbn; lia].
    now destruct (Hf prs eq_refl).
  - intros token_ok url_ok generated. rewrite Hret.
    destruct token_ok, url_ok; split; reflexivity.
Qed.

End AnalysisFileFacts.
